(** * Volar language tooling core: a shallow embedding and its properties

    The development follows three source files of the repository:
    - the Language Context ([createLanguageContext]: [update],
      [getScriptFileNames], [getScriptVersion], [getScriptSnapshot] and the
      derived host view's [fileExists]);
    - the workspace resolver and the program overlay ([getReferencesChains],
      [sortTsConfigs], [getRootFileNames], [transformDiagnostics]);
    - the custom server features (the handler that writes the generated files).

    JavaScript values are modelled as follows.  Strings are [string]
    (paths are taken to be ASCII).  Counters are [N]: they start at 0 and are
    only incremented, far below the range where a JavaScript number stops
    being exact.  Offsets are [Z].  [undefined] is [None].  A snapshot
    carries its identity, so that [===] on snapshots is equality.  The
    variables shared by the closures of a context become a state that every
    operation takes and returns. *)

From Stdlib Require Import ZArith String Ascii List Bool Lia.
From stdpp Require Import base option list strings gmap pretty.

Set Warnings "-register-all,-clear-no-such-hyp".

Local Open Scope Z_scope.
Local Open Scope list_scope.

(** ** JavaScript string operations used by the sources *)

Fixpoint lastIndexOf_from (c : ascii) (s : string) (i acc : Z) : Z :=
  match s with
  | EmptyString => acc
  | String a s' => lastIndexOf_from c s' (i + 1) (if Ascii.eqb a c then i else acc)
  end.

(** [s.lastIndexOf(c)]: the index of the last occurrence, or -1. *)
Definition lastIndexOf (c : ascii) (s : string) : Z :=
  lastIndexOf_from c s 0 (-1).

(** [s.substring(start, end)]: both indices are clamped to [0, length] and
    swapped when out of order; a missing [end] is the length. *)
Definition substring (s : string) (start : Z) (end_ : option Z) : string :=
  let len := Z.of_nat (String.length s) in
  let clamp x := Z.max 0 (Z.min x len) in
  let a := clamp start in
  let b := match end_ with Some e => clamp e | None => len end in
  let lo := Z.min a b in
  let hi := Z.max a b in
  String.substring (Z.to_nat lo) (Z.to_nat (hi - lo)) s.

Definition lower_ascii (a : ascii) : ascii :=
  let n := nat_of_ascii a in
  if (65 <=? n)%nat && (n <=? 90)%nat then ascii_of_nat (n + 32) else a.

Fixpoint toLowerCase (s : string) : string :=
  match s with
  | EmptyString => EmptyString
  | String a s' => String (lower_ascii a) (toLowerCase s')
  end.

(** [s.startsWith(p)]. *)
Definition startsWith (s p : string) : bool := String.prefix p s.

(** [s.endsWith(p)]. *)
Definition endsWith (s p : string) : bool :=
  let n := String.length s in
  let m := String.length p in
  (m <=? n)%nat && String.eqb (String.substring (n - m) m s) p.

Fixpoint count_char (c : ascii) (s : string) : nat :=
  match s with
  | EmptyString => 0%nat
  | String a s' => ((if Ascii.eqb a c then 1 else 0) + count_char c s')%nat
  end.

(** [s.split('/').length]: one more than the number of separators. *)
Definition split_length (s : string) : Z :=
  Z.of_nat (S (count_char "/"%char s)).

(** [s.replace(/\\/g, '/')]. *)
Fixpoint replace_backslashes (s : string) : string :=
  match s with
  | EmptyString => EmptyString
  | String a s' =>
      String (if Ascii.eqb a (ascii_of_nat 92) then "/"%char else a)
             (replace_backslashes s')
  end.

(** The four extensions the derived host view looks for. *)
Definition hostExtensions : list string := [".js"; ".ts"; ".jsx"; ".tsx"].

(** [l.indexOf(x)] on an array of strings. *)
Fixpoint indexOf (l : list string) (x : string) : option nat :=
  match l with
  | [] => None
  | y :: l' => if String.eqb y x then Some 0%nat else S <$> indexOf l' x
  end.

(** [new Set(l)] and [set.add]: insertion order, first occurrence kept. *)
Definition set_add (acc : list string) (x : string) : list string :=
  if bool_decide (x ∈ acc) then acc else acc ++ [x].

Definition new_Set (l : list string) : list string := fold_left set_add l [].

Definition set_delete (x : string) (l : list string) : list string :=
  filter (λ y, y ≠ x) l.

Definition set_has (l : list string) (x : string) : bool := bool_decide (x ∈ l).

(** ** Snapshots, generated units and source documents *)

(** Modelled from the spec: a script snapshot ([ts.IScriptSnapshot], declared
    outside the sources), an immutable value compared only for identity.
    [snapshot_id] stands for the object's identity, [snapshot_text] for
    [getText(0, getLength())]. *)
Record IScriptSnapshot := mkSnapshot {
  snapshot_id : N;
  snapshot_text : string;
}.

#[global] Instance IScriptSnapshot_eq_dec : EqDecision IScriptSnapshot.
Proof. solve_decision. Defined.

(** Modelled from the spec: the embedding kind of a generated unit, visible to
    the engine ([TypeScriptHostFile]) or auxiliary ([TextFile]); the enum is
    declared outside the sources. *)
Inductive FileKind := TextFile | TypeScriptHostFile.

#[global] Instance FileKind_eq_dec : EqDecision FileKind.
Proof. solve_decision. Defined.

(** Modelled from the spec: the capability data of one mapped range (declared
    outside the sources); [diagnostic] is the bit [data.diagnostic] read by
    the diagnostic translation. *)
Record MappingData := mkMappingData {
  diagnostic : bool;
  otherCapabilities : N;
}.

(** Modelled from the spec: one triple of generated range, source range and
    capabilities (declared outside the sources). *)
Record Mapping := mkMapping {
  generatedRange : Z * Z;
  sourceRange : Z * Z;
  data : MappingData;
}.

(** Modelled from the spec: the bidirectional mapping view returned by
    [getMaps] (the source-map package is not among the sources).  The spec
    gives its contract only: a generated offset resolves to zero, one or
    several source offsets, each with the range that claims it, and a flag
    asks for the end-inclusive variant.  The view is an object with that
    method. *)
Record SourceMap := mkSourceMap {
  toSourceOffsets : Z → bool → list (Z * Mapping);
}.

(** Modelled from the spec: a generated unit ([VirtualFile], declared outside
    the sources), with its snapshot, kind, capability tag, mappings and child
    units.  [vf_mappings] pairs the source document a mapping targets ([None]:
    the owning document) with its view. *)
Inductive VirtualFile := mkVirtualFile {
  vf_fileName : string;
  vf_snapshot : IScriptSnapshot;
  vf_kind : FileKind;
  vf_capabilities_diagnostic : bool;
  vf_mappings : list (option string * SourceMap);
  vf_embeddedFiles : list VirtualFile;
}.

(** Modelled from the spec: a source document as the store keeps it (declared
    outside the sources). *)
Record Source := mkSource {
  src_fileName : string;
  src_languageId : option string;
  src_snapshot : IScriptSnapshot;
  src_root : VirtualFile;
}.

(** Modelled from the spec: [forEachEmbeddedFile] of the virtual-files module
    (not among the sources) visits a root unit and its descendant units; the
    model lists them in pre-order. *)
Fixpoint forEachEmbeddedFile (file : VirtualFile) : list VirtualFile :=
  match file with
  | mkVirtualFile _ _ _ _ _ embedded =>
      file :: (fix go (l : list VirtualFile) : list VirtualFile :=
                 match l with
                 | [] => []
                 | e :: l' => forEachEmbeddedFile e ++ go l'
                 end) embedded
  end.

(** Modelled from the spec: a language module, an external collaborator that
    either makes the tree of a document or declines:
    [createFile(fileName, snapshot, languageId)]. *)
Definition LanguageModule : Type :=
  string → IScriptSnapshot → option string → option VirtualFile.

(** Modelled from the spec: the modules are asked in registration order and
    the first that accepts wins. *)
Fixpoint createFile (languageModules : list LanguageModule) (fileName : string)
    (snapshot : IScriptSnapshot) (languageId : option string) : option VirtualFile :=
  match languageModules with
  | [] => None
  | m :: rest =>
      match m fileName snapshot languageId with
      | Some root => Some root
      | None => createFile rest fileName snapshot languageId
      end
  end.

(** ** The Virtual Document Store ([createVirtualFiles], not among the sources) *)
Module VirtualFiles.

(** Modelled from the spec: the store, an insertion-ordered map from the path
    of a source document to the document, kept as a list with one entry per
    path. *)
Definition t : Type := list Source.

(** Modelled from the spec: [allSources], the documents as a sequence. *)
Definition allSources (vf : t) : list Source := vf.

(** Modelled from the spec: [hasSource]. *)
Definition hasSource (vf : t) (fileName : string) : bool :=
  existsb (λ s, String.eqb (src_fileName s) fileName) vf.

(** Modelled from the spec: [getSource]. *)
Definition getSource (vf : t) (fileName : string) : option Source :=
  find (λ s, String.eqb (src_fileName s) fileName) vf.

(** Modelled from the spec: [deleteSource] removes the document of the path. *)
Definition deleteSource (vf : t) (fileName : string) : t :=
  filter (λ s, src_fileName s ≠ fileName) vf.

(** Modelled from the spec: the store's [Map.set]; an existing entry is
    replaced in place, a new one appended. *)
Fixpoint set (vf : t) (s : Source) : t :=
  match vf with
  | [] => [s]
  | s' :: rest =>
      if String.eqb (src_fileName s') (src_fileName s) then s :: rest
      else s' :: set rest s
  end.

(** Modelled from the spec: [updateSource].  The tree of the first accepting
    module replaces any previous tree of the path; when no module accepts,
    nothing is registered and the result is [None]. *)
Definition updateSource (languageModules : list LanguageModule) (vf : t)
    (fileName : string) (snapshot : IScriptSnapshot) (languageId : option string)
    : option VirtualFile * t :=
  match createFile languageModules fileName snapshot languageId with
  | Some root => (Some root, set vf (mkSource fileName languageId snapshot root))
  | None => (None, vf)
  end.

(** Modelled from the spec: [getVirtualFile], the reverse lookup from a
    generated path to its unit and owning document. *)
Fixpoint getVirtualFile (vf : t) (fileName : string) : option (VirtualFile * Source) :=
  match vf with
  | [] => None
  | s :: rest =>
      match find (λ e, String.eqb (vf_fileName e) fileName)
                 (forEachEmbeddedFile (src_root s)) with
      | Some e => Some (e, s)
      | None => getVirtualFile rest fileName
      end
  end.

(** Modelled from the spec: [hasVirtualFile]. *)
Definition hasVirtualFile (vf : t) (fileName : string) : bool :=
  bool_decide (is_Some (getVirtualFile vf fileName)).

(** Modelled from the spec: [getMaps], the mapping views of a unit, each with
    the path of the source document it targets: the owning document unless
    the mapping names another. *)
Definition getMaps (vf : t) (virtualFile : VirtualFile) : list (string * SourceMap) :=
  match getVirtualFile vf (vf_fileName virtualFile) with
  | Some (_, owner) =>
      map (λ m, (default (src_fileName owner) m.1, m.2)) (vf_mappings virtualFile)
  | None => []
  end.

End VirtualFiles.

(** ** The host environment *)

(** Modelled from the spec: the raw [LanguageServiceHost] (declared outside
    the sources), with the members the sources call.  Optional methods are
    options:
    [getProjectVersion] is [None] when the method is absent or answers
    [undefined]; [fileExists] is [None] when the host has no such method;
    [getScriptLanguageId] answers [None] also when the method is absent. *)
Module Host.

Record LanguageServiceHost := mkHost {
  getProjectVersion : option string;
  getScriptFileNames : list string;
  getScriptVersion : string → string;
  getScriptSnapshot : string → option IScriptSnapshot;
  getScriptLanguageId : string → option string;
  fileExists : option (string → bool);
  getCurrentDirectory : string;
  isTsc : bool;
}.

End Host.

Abbreviation LanguageServiceHost := Host.LanguageServiceHost.

(** The Language Context as its clients see it: the derived host view
    ([core.typescript.languageServiceHost]) and the store ([core.virtualFiles]),
    both behind a proxy whose every property access may change the context's
    state [St].  A member that can be [undefined] answers an option. *)
Record LanguageContext (St : Type) := mkLanguageContext {
  languageServiceHost_fileExists : string → St → option bool * St;
  languageServiceHost_getScriptFileNames : St → list string * St;
  languageServiceHost_getScriptSnapshot : string → St → option IScriptSnapshot * St;
  virtualFiles_getVirtualFile : string → St → option (VirtualFile * Source) * St;
  virtualFiles_getMaps : VirtualFile → St → list (string * SourceMap) * St;
}.

Arguments languageServiceHost_fileExists {St}.
Arguments languageServiceHost_getScriptFileNames {St}.
Arguments languageServiceHost_getScriptSnapshot {St}.
Arguments virtualFiles_getVirtualFile {St}.
Arguments virtualFiles_getMaps {St}.

(** ** The Language Context ([createLanguageContext]) *)
Module Core.

(** An entry of [virtualFileVersions]. *)
Record Version := mkVersion {
  value : N;
  virtualFileSnapshot : IScriptSnapshot;
  sourceFileSnapshot : IScriptSnapshot;
}.

(** The variables the closures of [createLanguageContext] share. *)
Record State := mkState {
  lastProjectVersion : option string;
  tsProjectVersion : N;
  virtualFiles : VirtualFiles.t;
  scriptSnapshots : gmap string (string * IScriptSnapshot);
  sourceTsFileVersions : gmap string string;
  sourceFileVersions : gmap string string;
  virtualFileVersions : gmap string Version;
}.

Definition initial : State := mkState None 0 [] ∅ ∅ ∅ ∅.

Definition set_virtualFiles (s : State) (vf : VirtualFiles.t) : State :=
  mkState (lastProjectVersion s) (tsProjectVersion s) vf (scriptSnapshots s)
          (sourceTsFileVersions s) (sourceFileVersions s) (virtualFileVersions s).

Definition set_scriptSnapshots (s : State)
    (m : gmap string (string * IScriptSnapshot)) : State :=
  mkState (lastProjectVersion s) (tsProjectVersion s) (virtualFiles s) m
          (sourceTsFileVersions s) (sourceFileVersions s) (virtualFileVersions s).

Definition set_virtualFileVersions (s : State) (m : gmap string Version) : State :=
  mkState (lastProjectVersion s) (tsProjectVersion s) (virtualFiles s)
          (scriptSnapshots s) (sourceTsFileVersions s) (sourceFileVersions s) m.

(** The local variables of one run of [update]. *)
Record Locals := mkLocals {
  shouldUpdateTsProject : bool;
  virtualFilesUpdatedNum : N;
  remainRootFiles : list string;
}.

(** What the loops of [update] read and write. *)
Record Cycle := mkCycle {
  c_locals : Locals;
  c_virtualFiles : VirtualFiles.t;
  c_sourceFileVersions : gmap string string;
  c_sourceTsFileVersions : gmap string string;
}.

Section WithModules.

Variable languageModules : list LanguageModule.

(** The body of [for (const { fileName } of virtualFiles.allSources())]. *)
Definition refresh_source (host : LanguageServiceHost) (c : Cycle) (fileName : string)
    : Cycle :=
  let l := c_locals c in
  let remain := set_delete fileName (remainRootFiles l) in
  match Host.getScriptSnapshot host fileName with
  | None =>
      mkCycle (mkLocals true (virtualFilesUpdatedNum l + 1) remain)
              (VirtualFiles.deleteSource (c_virtualFiles c) fileName)
              (c_sourceFileVersions c) (c_sourceTsFileVersions c)
  | Some snapshot =>
      let newVersion := Host.getScriptVersion host fileName in
      if bool_decide (c_sourceFileVersions c !! fileName ≠ Some newVersion) then
        mkCycle (mkLocals (shouldUpdateTsProject l) (virtualFilesUpdatedNum l + 1) remain)
                (VirtualFiles.updateSource languageModules (c_virtualFiles c) fileName
                   snapshot (Host.getScriptLanguageId host fileName)).2
                (<[fileName := newVersion]> (c_sourceFileVersions c))
                (c_sourceTsFileVersions c)
      else
        mkCycle (mkLocals (shouldUpdateTsProject l) (virtualFilesUpdatedNum l) remain)
                (c_virtualFiles c) (c_sourceFileVersions c) (c_sourceTsFileVersions c)
  end.

(** [if (!virtualFilesUpdatedNum) shouldUpdateTsProject = true]. *)
Definition no_source_change (c : Cycle) : Cycle :=
  let l := c_locals c in
  if (virtualFilesUpdatedNum l =? 0)%N then
    mkCycle (mkLocals true (virtualFilesUpdatedNum l) (remainRootFiles l))
            (c_virtualFiles c) (c_sourceFileVersions c) (c_sourceTsFileVersions c)
  else c.

(** The body of [for (const fileName of [...remainRootFiles])]. *)
Definition add_source (host : LanguageServiceHost) (c : Cycle) (fileName : string)
    : Cycle :=
  let l := c_locals c in
  match Host.getScriptSnapshot host fileName with
  | Some snapshot =>
      match VirtualFiles.updateSource languageModules (c_virtualFiles c) fileName
              snapshot (Host.getScriptLanguageId host fileName) with
      | (Some _, vf) =>
          mkCycle (mkLocals (shouldUpdateTsProject l) (virtualFilesUpdatedNum l)
                            (set_delete fileName (remainRootFiles l)))
                  vf (c_sourceFileVersions c) (c_sourceTsFileVersions c)
      | (None, vf) =>
          mkCycle l vf (c_sourceFileVersions c) (c_sourceTsFileVersions c)
      end
  | None => c
  end.

(** The body of [for (const [oldTsFileName, oldTsFileVersion] of
    [...sourceTsFileVersions])]. *)
Definition refresh_ts_file (host : LanguageServiceHost) (c : Cycle)
    (entry : string * string) : Cycle :=
  let '(oldTsFileName, oldTsFileVersion) := entry in
  let l := c_locals c in
  let newVersion := Host.getScriptVersion host oldTsFileName in
  if bool_decide (oldTsFileVersion ≠ newVersion) then
    mkCycle (mkLocals true (virtualFilesUpdatedNum l) (remainRootFiles l))
            (c_virtualFiles c) (c_sourceFileVersions c)
            (if negb (set_has (remainRootFiles l) oldTsFileName)
                && bool_decide (Host.getScriptSnapshot host oldTsFileName = None)
             then delete oldTsFileName (c_sourceTsFileVersions c)
             else <[oldTsFileName := newVersion]> (c_sourceTsFileVersions c))
  else c.

(** The body of [for (const nowFileName of remainRootFiles)]. *)
Definition add_ts_file (host : LanguageServiceHost) (c : Cycle) (nowFileName : string)
    : Cycle :=
  let l := c_locals c in
  if bool_decide (c_sourceTsFileVersions c !! nowFileName = None) then
    mkCycle (mkLocals true (virtualFilesUpdatedNum l) (remainRootFiles l))
            (c_virtualFiles c) (c_sourceFileVersions c)
            (<[nowFileName := Host.getScriptVersion host nowFileName]> (c_sourceTsFileVersions c))
  else c.

(** The callback given to [forEachEmbeddedFile] in the last loop. *)
Definition snapshot_outdated (versions : gmap string Version) (embedded : VirtualFile)
    : bool :=
  bool_decide (vf_kind embedded = TypeScriptHostFile)
  && match versions !! vf_fileName embedded with
     | Some version => bool_decide (virtualFileSnapshot version ≠ vf_snapshot embedded)
     | None => false
     end.

(** The body of [for (const { root: rootVirtualFile } of virtualFiles.allSources())]. *)
Definition check_embedded (versions : gmap string Version) (flag : bool) (source : Source)
    : bool :=
  if negb flag then
    fold_left (λ acc embedded, if snapshot_outdated versions embedded then true else acc)
              (forEachEmbeddedFile (src_root source)) flag
  else flag.

(** The loops of [update], run when the host's project version changed. *)
Definition update_cycle (host : LanguageServiceHost) (s : State) : Cycle * bool :=
  let c0 := mkCycle (mkLocals false 0 (new_Set (Host.getScriptFileNames host)))
                    (virtualFiles s) (sourceFileVersions s) (sourceTsFileVersions s) in
  let c1 := fold_left (refresh_source host) (src_fileName <$> VirtualFiles.allSources (virtualFiles s)) c0 in
  let c2 := no_source_change c1 in
  let c3 := fold_left (add_source host) (remainRootFiles (c_locals c2)) c2 in
  let c4 := fold_left (refresh_ts_file host) (map_to_list (c_sourceTsFileVersions c3)) c3 in
  let c5 := fold_left (add_ts_file host) (remainRootFiles (c_locals c4)) c4 in
  let flag := fold_left (check_embedded (virtualFileVersions s))
                        (VirtualFiles.allSources (c_virtualFiles c5))
                        (shouldUpdateTsProject (c_locals c5)) in
  (c5, flag).

Definition update (host : LanguageServiceHost) (s : State) : State :=
  let newProjectVersion := Host.getProjectVersion host in
  let shouldUpdate :=
    bool_decide (newProjectVersion = None)
    || bool_decide (newProjectVersion ≠ lastProjectVersion s) in
  if negb shouldUpdate then
    mkState newProjectVersion (tsProjectVersion s) (virtualFiles s) (scriptSnapshots s)
            (sourceTsFileVersions s) (sourceFileVersions s) (virtualFileVersions s)
  else
    let '(c, flag) := update_cycle host s in
    mkState newProjectVersion
            (if flag then tsProjectVersion s + 1 else tsProjectVersion s)%N
            (c_virtualFiles c) (scriptSnapshots s)
            (c_sourceTsFileVersions c) (c_sourceFileVersions c) (virtualFileVersions s).

(** *** What an update cycle finds

    The conditions under which [update] moves the Project Version, stated on
    the host and on the state the cycle starts from. *)

(** The host still has the document and reports the version last recorded. *)
Definition unchanged (host : LanguageServiceHost) (versions : gmap string string)
    (fileName : string) : Prop :=
  is_Some (Host.getScriptSnapshot host fileName)
  ∧ versions !! fileName = Some (Host.getScriptVersion host fileName).

(** Some language module makes a document of the host's file. *)
Definition accepted (host : LanguageServiceHost) (fileName : string) : bool :=
  match Host.getScriptSnapshot host fileName with
  | Some snapshot =>
      bool_decide (is_Some (createFile languageModules fileName snapshot
                              (Host.getScriptLanguageId host fileName)))
  | None => false
  end.

(** The host reports the project version seen by the last cycle. *)
Definition skipped (host : LanguageServiceHost) (s : State) : Prop :=
  ∃ v, Host.getProjectVersion host = Some v ∧ lastProjectVersion s = Some v.

(** A tracked document has no snapshot any more. *)
Definition document_deleted (host : LanguageServiceHost) (s : State) : Prop :=
  ∃ source, source ∈ virtualFiles s
            ∧ Host.getScriptSnapshot host (src_fileName source) = None.

(** No tracked document was deleted or refreshed. *)
Definition no_document_changed (host : LanguageServiceHost) (s : State) : Prop :=
  ∀ source, source ∈ virtualFiles s →
            unchanged host (sourceFileVersions s) (src_fileName source).

(** A tracked plain file has another version now. *)
Definition plain_file_changed (host : LanguageServiceHost) (s : State) : Prop :=
  ∃ f v, sourceTsFileVersions s !! f = Some v ∧ v ≠ Host.getScriptVersion host f.

(** A root file of the host that is no document is not tracked yet. *)
Definition plain_file_added (host : LanguageServiceHost) (s : State) : Prop :=
  ∃ f, f ∈ Host.getScriptFileNames host
       ∧ (f ∉ src_fileName <$> virtualFiles s)
       ∧ accepted host f = false
       ∧ sourceTsFileVersions s !! f = None.

(** An engine-visible unit of a document in [store] has a Version Token
    recorded for another snapshot than its current one. *)
Definition unit_outdated (s : State) (store : VirtualFiles.t) : Prop :=
  ∃ source embedded version,
    source ∈ store
    ∧ embedded ∈ forEachEmbeddedFile (src_root source)
    ∧ vf_kind embedded = TypeScriptHostFile
    ∧ virtualFileVersions s !! vf_fileName embedded = Some version
    ∧ virtualFileSnapshot version ≠ vf_snapshot embedded.

(** [getProjectVersion] of the derived host view. *)
Definition getProjectVersion (s : State) : string := pretty (tsProjectVersion s).

(** [getScriptFileNames] of the derived host view. *)
Definition getScriptFileNames (host : LanguageServiceHost) (s : State) : list string :=
  let tsFileNames :=
    fold_left (λ acc source,
                 fold_left (λ acc embedded,
                              if bool_decide (vf_kind embedded = TypeScriptHostFile)
                              then set_add acc (vf_fileName embedded) else acc)
                           (forEachEmbeddedFile (src_root source)) acc)
              (VirtualFiles.allSources (virtualFiles s)) [] in
  fold_left (λ acc fileName,
               if negb (VirtualFiles.hasSource (virtualFiles s) fileName)
               then set_add acc fileName else acc)
            (Host.getScriptFileNames host) tsFileNames.

(** [getScriptVersion] of the derived host view. *)
Definition getScriptVersion (host : LanguageServiceHost) (fileName : string) (s : State)
    : string * State :=
  match VirtualFiles.getVirtualFile (virtualFiles s) fileName with
  | Some (virtualFile, source) =>
      match virtualFileVersions s !! vf_fileName virtualFile with
      | None =>
          let version := mkVersion 0 (vf_snapshot virtualFile) (src_snapshot source) in
          (pretty (value version),
           set_virtualFileVersions s
             (<[vf_fileName virtualFile := version]> (virtualFileVersions s)))
      | Some version =>
          if bool_decide (virtualFileSnapshot version ≠ vf_snapshot virtualFile)
             || (Host.isTsc host
                 && bool_decide (sourceFileSnapshot version ≠ src_snapshot source))
          then
            let version' := mkVersion (value version + 1) (vf_snapshot virtualFile)
                                      (src_snapshot source) in
            (pretty (value version'),
             set_virtualFileVersions s
               (<[vf_fileName virtualFile := version']> (virtualFileVersions s)))
          else (pretty (value version), s)
      end
  | None => (Host.getScriptVersion host fileName, s)
  end.

(** The part of [getScriptSnapshot] that runs on a cache miss. *)
Definition read_snapshot (host : LanguageServiceHost) (fileName version : string)
    (s1 : State) : option IScriptSnapshot * State :=
  match VirtualFiles.getVirtualFile (virtualFiles s1) fileName with
  | Some (virtualFile, _) =>
      let snapshot := vf_snapshot virtualFile in
      (Some snapshot,
       set_scriptSnapshots s1
         (<[toLowerCase fileName := (version, snapshot)]> (scriptSnapshots s1)))
  | None =>
      match Host.getScriptSnapshot host fileName with
      | Some tsScript =>
          (Some tsScript,
           set_scriptSnapshots s1
             (<[toLowerCase fileName := (version, tsScript)]> (scriptSnapshots s1)))
      | None => (None, s1)
      end
  end.

(** [getScriptSnapshot] of the derived host view. *)
Definition getScriptSnapshot (host : LanguageServiceHost) (fileName : string) (s : State)
    : option IScriptSnapshot * State :=
  let '(version, s1) := getScriptVersion host fileName s in
  let cache := scriptSnapshots s1 !! toLowerCase fileName in
  match cache with
  | Some (cachedVersion, cached) =>
      if String.eqb cachedVersion version then (Some cached, s1)
      else read_snapshot host fileName version s1
  | None => read_snapshot host fileName version s1
  end.

(** The body of the derived host view's [fileExists]. *)
Definition fileExists_body (host : LanguageServiceHost) (fileName : string) (s : State)
    : bool * State :=
  let ext := substring fileName (lastIndexOf "."%char fileName) None in
  let s1 :=
    if String.eqb ext ".js" || String.eqb ext ".ts"
       || String.eqb ext ".jsx" || String.eqb ext ".tsx"
    then
      let sourceFileName := substring fileName 0 (Some (lastIndexOf "."%char fileName)) in
      if negb (VirtualFiles.hasSource (virtualFiles s) sourceFileName) then
        match Host.getScriptSnapshot host sourceFileName with
        | Some scriptSnapshot =>
            set_virtualFiles s
              (VirtualFiles.updateSource languageModules (virtualFiles s) sourceFileName
                 scriptSnapshot (Host.getScriptLanguageId host sourceFileName)).2
        | None => s
        end
      else s
    else s in
  if VirtualFiles.hasVirtualFile (virtualFiles s1) fileName then (true, s1)
  else (match Host.fileExists host with Some raw => raw fileName | None => false end, s1).

(** [fileExists] of the derived host view: defined when the host's is. *)
Definition fileExists (host : LanguageServiceHost)
    : option (string → State → bool * State) :=
  match Host.fileExists host with
  | Some _ => Some (fileExists_body host)
  | None => None
  end.

(** The two proxies returned by [createLanguageContext]: every property
    access runs [update] first. *)
Definition createLanguageContext (host : LanguageServiceHost) : LanguageContext State :=
  {| languageServiceHost_fileExists := λ fileName s,
       let s1 := update host s in
       match fileExists host with
       | Some f => let '(b, s2) := f fileName s1 in (Some b, s2)
       | None => (None, s1)
       end;
     languageServiceHost_getScriptFileNames := λ s,
       let s1 := update host s in (getScriptFileNames host s1, s1);
     languageServiceHost_getScriptSnapshot := λ fileName s,
       getScriptSnapshot host fileName (update host s);
     virtualFiles_getVirtualFile := λ fileName s,
       let s1 := update host s in
       (VirtualFiles.getVirtualFile (virtualFiles s1) fileName, s1);
     virtualFiles_getMaps := λ virtualFile s,
       let s1 := update host s in
       (VirtualFiles.getMaps (virtualFiles s1) virtualFile, s1) |}.

End WithModules.

End Core.

(** ** The Program Overlay ([getProgram]) *)
Module Program.

Inductive ScriptTarget := JSON | Latest | OtherTarget.

(** [ts.SourceFile], as far as the overlay reads and builds it. *)
Record SourceFile := mkSourceFile {
  sf_fileName : string;
  sf_text : string;
  sf_languageVersion : ScriptTarget;
}.

(** [ts.createSourceFile(fileName, docText, scriptTarget)]. *)
Definition createSourceFile (fileName docText : string) (scriptTarget : ScriptTarget)
    : SourceFile :=
  mkSourceFile fileName docText scriptTarget.

(** [ts.Diagnostic], [ts.DiagnosticWithLocation] and
    [ts.DiagnosticRelatedInformation] (which has no [relatedInformation]). *)
Inductive Diagnostic := mkDiagnostic {
  file : option SourceFile;
  start : option Z;
  length : option Z;
  messageText : string;
  code : Z;
  relatedInformation : option (list Diagnostic);
}.

Section WithCore.

Context {St : Type}.
Variable core : LanguageContext St.
(** [ls.getProgram().getRootFileNames()]. *)
Variable rootFileNames : list string.

(** [getRootFileNames]: a [filter] whose predicate is the proxied
    [fileExists?.(fileName)], called on the names in order. *)
Fixpoint filter_fileExists (names : list string) (s : St) : list string * St :=
  match names with
  | [] => ([], s)
  | fileName :: rest =>
      let '(exists_, s1) := languageServiceHost_fileExists core fileName s in
      let '(kept, s2) := filter_fileExists rest s1 in
      (match exists_ with Some true => fileName :: kept | _ => kept end, s2)
  end.

Definition getRootFileNames (s : St) : list string * St :=
  filter_fileExists rootFileNames s.

Definition scriptTarget_of (fileName : string) : ScriptTarget :=
  if endsWith fileName ".js" || endsWith fileName ".ts"
     || endsWith fileName ".jsx" || endsWith fileName ".tsx"
     || endsWith fileName ".mjs" || endsWith fileName ".mts"
     || endsWith fileName ".cjs" || endsWith fileName ".cts"
  then Latest else JSON.

(** [onMapping]: the diagnostic it pushes.  [transformRelated] stands for the
    recursive call of [transformDiagnostics] on the related information. *)
Definition onMapping
    (transformRelated : list Diagnostic → St → list Diagnostic * St)
    (diagnostic : Diagnostic) (fileName : string) (start_ end_ : Z)
    (docText : option string) (s : St) : Diagnostic * St :=
  let file0 :=
    match file diagnostic with
    | Some f => if String.eqb fileName (sf_fileName f) then Some f else None
    | None => None
    end in
  let '(file1, s1) :=
    match file0 with
    | Some f => (Some f, s)
    | None =>
        match docText with
        | None =>
            let '(_, s') := languageServiceHost_getScriptSnapshot core fileName s in
            (None, s')
        | Some text => (Some (createSourceFile fileName text (scriptTarget_of fileName)), s)
        end
    end in
  match relatedInformation diagnostic with
  | Some related =>
      let '(related', s2) := transformRelated related s1 in
      (mkDiagnostic file1 (Some start_) (Some (end_ - start_))
                    (messageText diagnostic) (code diagnostic) (Some related'), s2)
  | None =>
      (mkDiagnostic file1 (Some start_) (Some (end_ - start_))
                    (messageText diagnostic) (code diagnostic) None, s1)
  end.

(** The first candidate whose range forwards diagnostics: the loops over
    [toSourceOffsets] skip the candidates without the capability and stop at
    the first one with it. *)
Definition first_diagnostic (candidates : list (Z * Mapping)) : option (Z * Mapping) :=
  find (λ c, diagnostic (data c.2)) candidates.

(** The body of [for (const [sourceFileName, map] of getMaps(virtualFile))]. *)
Definition map_diagnostic
    (transformRelated : list Diagnostic → St → list Diagnostic * St)
    (d : Diagnostic) (start_ length_ : Z) (source : Source)
    (acc : list Diagnostic * St) (entry : string * SourceMap) : list Diagnostic * St :=
  let '(result, s) := acc in
  let '(sourceFileName, map) := entry in
  if negb (String.eqb sourceFileName (src_fileName source)) then (result, s) else
  match first_diagnostic (toSourceOffsets map start_ false) with
  | Some start' =>
      match first_diagnostic (toSourceOffsets map (start_ + length_) true) with
      | Some end' =>
          let '(d', s') :=
            onMapping transformRelated d (src_fileName source) start'.1 end'.1
                      (Some (snapshot_text (src_snapshot source))) s in
          (result ++ [d'], s')
      | None => (result, s)
      end
  | None => (result, s)
  end.

(** One turn of [for (const diagnostic of diagnostics)]: what it pushes. *)
Definition transform_one
    (transformRelated : list Diagnostic → St → list Diagnostic * St)
    (d : Diagnostic) (s : St) : list Diagnostic * St :=
  match file d, start d, length d with
  | Some f, Some start_, Some length_ =>
      let '(found, s1) := virtualFiles_getVirtualFile core (sf_fileName f) s in
      match found with
      | Some (virtualFile, source) =>
          let '(exists_, s2) := languageServiceHost_fileExists core (src_fileName source) s1 in
          match exists_ with
          | Some false => ([], s2)
          | _ =>
              let '(maps, s3) := virtualFiles_getMaps core virtualFile s2 in
              fold_left (map_diagnostic transformRelated d start_ length_ source) maps ([], s3)
          end
      | None =>
          let '(exists_, s2) := languageServiceHost_fileExists core (sf_fileName f) s1 in
          match exists_ with
          | Some false => ([], s2)
          | _ =>
              let '(d', s3) :=
                onMapping transformRelated d (sf_fileName f) start_ (start_ + length_)
                          (Some (sf_text f)) s2 in
              ([d'], s3)
          end
      end
  | None, _, _ => ([d], s)
  | Some _, _, _ => ([], s)
  end.

(** A diagnostic that sits at source offsets: some view among [maps] that
    targets the document [source] has a range with the diagnostic capability
    that matches [start_] and one that matches the end [start_ + length_]
    (end-inclusive lookup), and the diagnostic has the resolved offsets and a
    file named as the document. *)
Definition mapped (maps : list (string * SourceMap)) (source : Source)
    (start_ length_ : Z) (d' : Diagnostic) : Prop :=
  ∃ map start' end',
    (src_fileName source, map) ∈ maps
    ∧ start' ∈ toSourceOffsets map start_ false
    ∧ diagnostic (data start'.2) = true
    ∧ end' ∈ toSourceOffsets map (start_ + length_) true
    ∧ diagnostic (data end'.2) = true
    ∧ start d' = Some start'.1
    ∧ length d' = Some (end'.1 - start'.1)
    ∧ ∃ f', file d' = Some f' ∧ sf_fileName f' = src_fileName source.

(** [transformDiagnostics], one diagnostic at a time; the recursion is on the
    related information. *)
Fixpoint transformDiagnostic (d : Diagnostic) (s : St) {struct d} : list Diagnostic * St :=
  transform_one
    (fix loop (ds : list Diagnostic) (s' : St) : list Diagnostic * St :=
       match ds with
       | [] => ([], s')
       | d' :: rest =>
           let '(r1, s1) := transformDiagnostic d' s' in
           let '(r2, s2) := loop rest s1 in
           (r1 ++ r2, s2)
       end)
    d s.

Fixpoint transformDiagnostics (diagnostics : list Diagnostic) (s : St)
    : list Diagnostic * St :=
  match diagnostics with
  | [] => ([], s)
  | d :: rest =>
      let '(r1, s1) := transformDiagnostic d s in
      let '(r2, s2) := transformDiagnostics rest s1 in
      (r1 ++ r2, s2)
  end.

End WithCore.

End Program.

(** ** The workspace resolver *)
Module Workspace.

Section WithPath.

(** The path library ([typesafe-path/posix]) and the helper [isFileInDir] are
    not among the sources: they stay parameters. *)
Variable dirname : string → string.
Variable basename : string → string.
Variable join : string → string → string.
Variable isFileInDir : string → string → bool.

Definition weight (b : bool) : Z := if b then 1 else 0.

(** [sortTsConfigs]: a comparator, negative when [a] sorts before [b]. *)
Definition sortTsConfigs (file a b : string) : Z :=
  let inA := isFileInDir file (dirname a) in
  let inB := isFileInDir file (dirname b) in
  if negb (Bool.eqb inA inB) then
    let aWeight := weight inA in
    let bWeight := weight inB in
    bWeight - aWeight
  else
    let aLength := split_length a in
    let bLength := split_length b in
    if (aLength =? bLength)%Z then
      let aWeight := weight (String.eqb (basename a) "tsconfig.json") in
      let bWeight := weight (String.eqb (basename b) "tsconfig.json") in
      bWeight - aWeight
    else bLength - aLength.

(** [ts.ParsedCommandLine], as far as the resolver reads it: the paths of the
    project references, [None] when the property is absent. *)
Record ParsedCommandLine := mkParsedCommandLine {
  projectReferences : option (list string);
}.

(** The workspace's file system, when there is one. *)
Variable sys_fileExists : option (string → bool).

(** What [getParsedCommandLine] answers for each configuration path: a finite
    table; a path outside it has no project. *)
Variable configs : gmap string ParsedCommandLine.

Definition getParsedCommandLine (tsConfig : string) : option ParsedCommandLine :=
  configs !! tsConfig.

(** The path a project reference stands for (the fix for directory
    references). *)
Definition resolve_reference (path : string) : string :=
  let tsConfigPath := replace_backslashes path in
  match sys_fileExists with
  | Some fileExists =>
      if negb (fileExists tsConfigPath) then
        let newTsConfigPath := join tsConfigPath "tsconfig.json" in
        let newJsConfigPath := join tsConfigPath "jsconfig.json" in
        if fileExists newTsConfigPath then newTsConfigPath
        else if fileExists newJsConfigPath then newJsConfigPath
        else tsConfigPath
      else tsConfigPath
  | None => tsConfigPath
  end.

(** The body of [for (const projectReference of ...projectReferences)]:
    [recurse] stands for the recursive call, [None] for a call that did not
    return. *)
Definition follow_reference
    (recurse : ParsedCommandLine → string → list string → option (list (list string)))
    (tsConfig : string) (before : list string)
    (acc : option (list (list string))) (projectReference : string)
    : option (list (list string)) :=
  match acc with
  | None => None
  | Some newChains =>
      let tsConfigPath := resolve_reference projectReference in
      match indexOf before tsConfigPath with
      | Some beforeIndex =>
          Some (newChains ++ [take (Nat.max beforeIndex 1) before])
      | None =>
          match getParsedCommandLine tsConfigPath with
          | Some referenceParsedCommandLine =>
              match recurse referenceParsedCommandLine tsConfigPath (before ++ [tsConfig]) with
              | Some chains => Some (newChains ++ chains)
              | None => None
              end
          | None => Some newChains
          end
      end
  end.

(** [getReferencesChains].  The recursion follows the reference graph, so the
    model counts down [fuel]; [None] means the fuel ran out. *)
Fixpoint getReferencesChains (fuel : nat) (parsedCommandLine : ParsedCommandLine)
    (tsConfig : string) (before : list string) : option (list (list string)) :=
  match fuel with
  | O => None
  | S fuel' =>
      match projectReferences parsedCommandLine with
      | Some ((_ :: _) as references) =>
          fold_left (follow_reference (getReferencesChains fuel') tsConfig before)
                    references (Some [])
      | _ => Some [before ++ [tsConfig]]
      end
  end.

(** A bound on the depth of the recursion from [tsConfig] with [before] on the
    path: twice the number of configurations of the table that are neither on
    the path nor the one visited, and one more while the visited one is not
    on the path. *)
Definition chain_measure (before : list string) (tsConfig : string) : nat :=
  2 * size (dom configs ∖ (list_to_set before ∪ {[tsConfig]}) : gset string)
  + (if bool_decide (tsConfig ∈ before) then 0 else 1).

(** No configuration of the table lists itself among its references. *)
Definition no_self_reference : Prop :=
  ∀ tsConfig parsedCommandLine references projectReference,
    configs !! tsConfig = Some parsedCommandLine →
    projectReferences parsedCommandLine = Some references →
    projectReference ∈ references →
    resolve_reference projectReference ≠ tsConfig.

(** A chain of distinct configurations of the table. *)
Definition distinct_configs (chain : list string) : Prop :=
  NoDup chain ∧ ∀ tsConfig, tsConfig ∈ chain → is_Some (configs !! tsConfig).

End WithPath.

End Workspace.

(** ** The custom server features *)
Module CustomFeatures.

Section WithCore.

Context {St : Type}.
(** [ls.context.host] and [ls.context.core]. *)
Variable host : LanguageServiceHost.
Variable core : LanguageContext St.

(** The body of [for (const virtualFile of ...getScriptFileNames())]:
    [written] lists the calls of [fs.writeFile], path and text. *)
Definition write_virtual_file (sourceFiles : list string)
    (acc : list (string * string) * St) (virtualFile : string)
    : list (string * string) * St :=
  let '(written, s) := acc in
  if startsWith virtualFile (Host.getCurrentDirectory host)
     && negb (set_has sourceFiles virtualFile)
  then
    let '(snapshot, s1) := languageServiceHost_getScriptSnapshot core virtualFile s in
    match snapshot with
    | Some snap => (written ++ [(virtualFile, snapshot_text snap)], s1)
    | None => (written, s1)
    end
  else (written, s).

(** A call of [fs.writeFile] the handler may make. *)
Definition writable (names : list string) (entry : string * string) : Prop :=
  (entry.1 ∉ Host.getScriptFileNames host)
  ∧ startsWith entry.1 (Host.getCurrentDirectory host) = true
  ∧ entry.1 ∈ names
  ∧ ∃ s' snapshot,
      (languageServiceHost_getScriptSnapshot core entry.1 s').1 = Some snapshot
      ∧ entry.2 = snapshot_text snapshot.

(** The handler of [WriteVirtualFilesNotification], once the project's
    language service is at hand. *)
Definition writeVirtualFiles (s : St) : list (string * string) * St :=
  let sourceFiles := new_Set (Host.getScriptFileNames host) in
  let '(names, s1) := languageServiceHost_getScriptFileNames core s in
  fold_left (write_virtual_file sourceFiles) names ([], s1).

End WithCore.

End CustomFeatures.

(** ** The diagnostics of the Program Overlay *)
Module Overlay.

Import Program.

Section WithCore.

Context {St : Type}.
Variable core : LanguageContext St.
(** What the underlying program answers for a source file:
    [getProgram()[api](sourceFile, cancellationToken) ?? []], for [api] one
    of [getSyntacticDiagnostics], [getSemanticDiagnostics] and
    [getBindAndCheckDiagnostics].  The answer is taken as given: what the
    program itself reads of the host while it computes it is not followed. *)
Variable api : option SourceFile → list Diagnostic.

(** [getSourceFileDiagnosticsWorker]. *)
Definition getSourceFileDiagnosticsWorker (sourceFile : option SourceFile) (s : St)
    : list Diagnostic * St :=
  match sourceFile with
  | Some sf =>
      let '(found, s1) := virtualFiles_getVirtualFile core (sf_fileName sf) s in
      match found with
      | Some (virtualFile, source) =>
          if negb (vf_capabilities_diagnostic virtualFile) then ([], s1)
          else transformDiagnostics core (api sourceFile) s1
      | None => transformDiagnostics core (api sourceFile) s1
      end
  | None => transformDiagnostics core (api sourceFile) s
  end.

(** [getGlobalDiagnostics], given the program's global diagnostics. *)
Definition getGlobalDiagnostics (globalDiagnostics : list Diagnostic) (s : St)
    : list Diagnostic * St :=
  transformDiagnostics core globalDiagnostics s.

End WithCore.

End Overlay.

(** ** The discovery of configurations and the search among the chains *)
Module Resolver.

(** [rootTsConfigNames]. *)
Definition rootTsConfigNames : list string := ["tsconfig.json"; "jsconfig.json"].

(** The two sets [findMatchConfigs] fills, in insertion order. *)
Record Discovery := mkDiscovery {
  rootTsConfigs : list string;
  searchedDirs : list string;
}.

Section WithPath.

(** The path library is not among the sources: [dirname] and [join] stay
    parameters. *)
Variable dirname : string → string.
Variable join : string → string → string.
(** The workspace's file system, when there is one. *)
Variable sys_fileExists : option (string → bool).

(** [sys?.fileExists(path)] as a condition. *)
Definition sys_has (path : string) : bool :=
  match sys_fileExists with
  | Some fileExists => fileExists path
  | None => false
  end.

(** The body of [for (const tsConfigName of rootTsConfigNames)]. *)
Definition probe_config (dir : string) (roots : list string) (tsConfigName : string)
    : list string :=
  let tsconfigPath := join dir tsConfigName in
  if sys_has tsconfigPath then set_add roots tsconfigPath else roots.

(** The [while (true)] loop of [findMatchConfigs], from the directory [dir]
    upwards.  The loop ends when it meets a directory already searched, so
    the model counts down [fuel]; [None] means the fuel ran out. *)
Fixpoint search_dirs (fuel : nat) (dir : string) (d : Discovery) : option Discovery :=
  match fuel with
  | O => None
  | S fuel' =>
      if set_has (searchedDirs d) dir then Some d
      else
        search_dirs fuel' (dirname dir)
          (mkDiscovery (fold_left (probe_config dir) rootTsConfigNames (rootTsConfigs d))
                       (set_add (searchedDirs d) dir))
  end.

End WithPath.

Section WithTable.

Variable join : string → string → string.
Variable sys_fileExists : option (string → bool).
Variable configs : gmap string Workspace.ParsedCommandLine.

(** The configuration [a] of the table lists a reference that stands for [b]. *)
Definition references (a b : string) : Prop :=
  ∃ parsedCommandLine projectReferences projectReference,
    configs !! a = Some parsedCommandLine
    ∧ Workspace.projectReferences parsedCommandLine = Some projectReferences
    ∧ projectReference ∈ projectReferences
    ∧ Workspace.resolve_reference join sys_fileExists projectReference = b.

(** Every configuration of the chain references the next one. *)
Definition reference_path (chain : list string) : Prop :=
  ∀ i a b, chain !! i = Some a → chain !! S i = Some b → references a b.

End WithTable.

Section WithMatch.

Context {St : Type}.
(** The callback [match] of [findTsconfig]; it may change the workspace's
    state [St]. *)
Variable match_ : string → St → bool * St.

(** The loop [for (let i = chain.length - 1; i >= 0; i--)] of [findTsconfig],
    on the chain read from its end: the configuration returned, if any, the
    set [checked] and the state. *)
Fixpoint check_chain (reversed : list string) (checked : list string) (s : St)
    : option string * list string * St :=
  match reversed with
  | [] => (None, checked, s)
  | tsconfig :: rest =>
      if set_has checked tsconfig then check_chain rest checked s
      else
        let checked' := set_add checked tsconfig in
        let '(matched, s') := match_ tsconfig s in
        if matched then (Some tsconfig, checked', s')
        else check_chain rest checked' s'
  end.

(** The loop [for (const chain of chains)] of [findTsconfig]. *)
Fixpoint check_chains (chains : list (list string)) (checked : list string) (s : St)
    : option string * list string * St :=
  match chains with
  | [] => (None, checked, s)
  | chain :: rest =>
      match check_chain (rev chain) checked s with
      | (Some tsconfig, checked', s') => (Some tsconfig, checked', s')
      | (None, checked', s') => check_chains rest checked' s'
      end
  end.

(** The callback that also writes down, in order, the configurations it is
    asked about. *)
Definition logged (tsconfig : string) (ls : list string * St) : bool * (list string * St) :=
  let '(matched, s') := match_ tsconfig ls.2 in (matched, (ls.1 ++ [tsconfig], s')).

(** The chains of one root configuration, searched in the order the
    workspace asks for: [chains.reverse()] under
    [reverseConfigFilePriority]. *)
Definition search_chains (reverseConfigFilePriority : bool) (chains : list (list string))
    (checked : list string) (s : St) : option string * list string * St :=
  check_chains (if reverseConfigFilePriority then rev chains else chains) checked s.

End WithMatch.

(** The order in which [findTsconfig] meets the configurations of the chains
    of one root. *)
Definition search_order (reverseConfigFilePriority : bool) (chains : list (list string))
    : list string :=
  flat_map (@rev string) (if reverseConfigFilePriority then rev chains else chains).

End Resolver.

(** ** The host as the language modules proxy it *)
Module HostProxy.

Section WithValues.

(** The values of the members of a host. *)
Context {V : Type}.

(** A host object, or the object a module's [proxyLanguageServiceHost]
    returns: the member of each name, when there is one. *)
Definition Members : Type := string → option V.

(** A language module, as far as the first loop of [createLanguageContext]
    reads it: its optional [proxyLanguageServiceHost]. *)
Record Module := mkModule {
  proxyLanguageServiceHost : option (Members → Members);
}.

(** [new Proxy(host, { get(target, key) { ... } })]. *)
Definition wrap (target proxyApis : Members) : Members :=
  λ key,
    match proxyApis key with
    | Some member => Some member
    | None => target key
    end.

(** The body of [for (const languageModule of languageModules.reverse())]. *)
Definition proxy_step (host : Members) (languageModule : Module) : Members :=
  match proxyLanguageServiceHost languageModule with
  | Some make => wrap host (make host)
  | None => host
  end.

(** The host after the loop. *)
Definition proxied_host (languageModules : list Module) (host : Members) : Members :=
  fold_left proxy_step (rev languageModules) host.

End WithValues.

Arguments Module : clear implicits.

End HostProxy.

(** ** The request for the names of a document's generated units *)
Module Requests.

Section WithModules.

(** The Language Context of the project: its modules and its host. *)
Variable languageModules : list LanguageModule.
Variable host : LanguageServiceHost.

(** The handler of [GetVirtualFileNamesRequest], once the project is at
    hand, for the document's path [fileName] and the kinds asked for
    ([document.fileKinds ?? [FileKind.TypeScriptHostFile]]).  Reading
    [getSource] off the proxied store runs [update] first;
    [snapshot.getLength()] is the length of the snapshot's text. *)
Definition getVirtualFileNames (fileName : string) (fileKinds : option (list FileKind))
    (s : Core.State) : list string * Core.State :=
  let s1 := Core.update languageModules host s in
  match VirtualFiles.getSource (Core.virtualFiles s1) fileName with
  | Some source =>
      let kinds := default [TypeScriptHostFile] fileKinds in
      (vf_fileName <$>
         filter (λ e, String.length (snapshot_text (vf_snapshot e)) ≠ 0%nat
                      ∧ vf_kind e ∈ kinds)
                (forEachEmbeddedFile (src_root source)),
       s1)
  | None => ([], s1)
  end.

End WithModules.

End Requests.

(** ** What the operations of a Language Context keep *)
Module Invariants.

Import Core.

(** No Version Token of [s] is dropped or lowered in [s']. *)
Definition tokens_kept (s s' : State) : Prop :=
  ∀ fileName version,
    virtualFileVersions s !! fileName = Some version →
    ∃ version', virtualFileVersions s' !! fileName = Some version'
                ∧ (value version ≤ value version')%N.

Section WithModules.

Variable languageModules : list LanguageModule.

(** One access to the context made by [createLanguageContext], for some
    state of the host: the proxy runs [update], then the member read runs.
    [getProjectVersion], [getScriptFileNames], [readDirectory],
    [getScriptKind] and the members of the store only read the state;
    [getScriptVersion], [getScriptSnapshot] and [fileExists] may write it. *)
Definition access (s s' : State) : Prop :=
  ∃ host : LanguageServiceHost,
    s' = update languageModules host s
    ∨ (∃ fileName,
         s' = (getScriptVersion host fileName (update languageModules host s)).2)
    ∨ (∃ fileName,
         s' = (getScriptSnapshot host fileName (update languageModules host s)).2)
    ∨ (∃ fileName probe,
         fileExists languageModules host = Some probe
         ∧ s' = (probe fileName (update languageModules host s)).2).

End WithModules.

End Invariants.

(** ** A small project, used to run the definitions

    One composite document [/src/App.vue], whose script block becomes the
    generated unit [/src/App.vue.ts] and whose markup becomes the auxiliary
    unit [/src/App.vue.html], and one plain file [/src/main.ts]. *)
Module Examples.

Definition capable : Mapping := mkMapping (0, 9) (8, 17) (mkMappingData true 0).
Definition incapable : Mapping := mkMapping (20, 29) (40, 49) (mkMappingData false 0).

(** Generated offsets 0..9 map to source offsets 8..17 through a range that
    forwards diagnostics, generated offsets 20..29 to 40..49 through one that
    does not. *)
Definition scriptMap : SourceMap :=
  mkSourceMap (λ offset _,
    if ((0 <=? offset) && (offset <=? 9))%Z then [(offset + 8, capable)]
    else if ((20 <=? offset) && (offset <=? 29))%Z then [(offset + 20, incapable)]
    else []).

Definition generated (snapshot : IScriptSnapshot) (tag : N) : IScriptSnapshot :=
  mkSnapshot (2 * snapshot_id snapshot + tag) (snapshot_text snapshot).

Definition vueModule : LanguageModule := λ fileName snapshot languageId,
  if endsWith fileName ".vue" then
    Some (mkVirtualFile fileName snapshot TextFile false []
            [ mkVirtualFile (fileName +:+ ".ts") (generated snapshot 1)
                            TypeScriptHostFile true [(None, scriptMap)] [];
              mkVirtualFile (fileName +:+ ".html") (generated snapshot 2)
                            TextFile false [] [] ])
  else None.

Definition languageModules : list LanguageModule := [vueModule].

Definition appSnapshot : IScriptSnapshot := mkSnapshot 1 "<script>let x = 1</script>".
Definition mainSnapshot : IScriptSnapshot := mkSnapshot 2 "import App from './App.vue'".

Definition libSnapshot : IScriptSnapshot := mkSnapshot 3 "<script>export default {}</script>".

Definition projectFiles : list string := ["/src/App.vue"; "/src/main.ts"].

Definition host (projectVersion : option string) : LanguageServiceHost :=
  Host.mkHost projectVersion projectFiles (λ _, "1")
    (λ fileName,
       if String.eqb fileName "/src/App.vue" then Some appSnapshot
       else if String.eqb fileName "/src/main.ts" then Some mainSnapshot
       else if String.eqb fileName "/lib/Lib.vue" then Some libSnapshot
       else None)
    (λ _, None)
    (Some (λ fileName, bool_decide (fileName ∈ projectFiles)))
    "/src" false.

Definition core (projectVersion : option string) : LanguageContext Core.State :=
  Core.createLanguageContext languageModules (host projectVersion).

(** The state after the first access to the context. *)
Definition loaded : Core.State := Core.update languageModules (host (Some "1")) Core.initial.

(** The generated unit of the script block and its owning document, as the
    store holds them after the first cycle. *)
Definition appUnit : VirtualFile :=
  mkVirtualFile "/src/App.vue.ts" (generated appSnapshot 1) TypeScriptHostFile true
                [(None, scriptMap)] [].

Definition appSource : Source :=
  mkSource "/src/App.vue" None appSnapshot
    (mkVirtualFile "/src/App.vue" appSnapshot TextFile false []
       [ appUnit;
         mkVirtualFile "/src/App.vue.html" (generated appSnapshot 2) TextFile false [] [] ]).

Definition appTs : Program.SourceFile :=
  Program.mkSourceFile "/src/App.vue.ts" "let x = 1" Program.Latest.

(** A diagnostic on generated offsets 4..5, inside the capable range. *)
Definition mappedDiagnostic : Program.Diagnostic :=
  Program.mkDiagnostic (Some appTs) (Some 4) (Some 1) "x is never read" 6133 None.

(** A diagnostic on generated offsets 22..25, inside the incapable range. *)
Definition unmappedDiagnostic : Program.Diagnostic :=
  Program.mkDiagnostic (Some appTs) (Some 22) (Some 3) "implicit any" 7006 None.

(** The states after a second and a third cycle, the host having moved its
    project version and nothing else. *)
Definition reloaded : Core.State := Core.update languageModules (host (Some "2")) loaded.
Definition reloaded_again : Core.State :=
  Core.update languageModules (host (Some "3")) reloaded.

(** What the engine sees: the file names of the derived host view, each with
    its version string. *)
Definition engineView (h : LanguageServiceHost) (s : Core.State) : list (string * string) :=
  (λ fileName, (fileName, (Core.getScriptVersion h fileName s).1))
    <$> Core.getScriptFileNames h s.

(** A configuration that references itself and a leaf configuration. *)
Definition selfConfig : string := "/a/tsconfig.json".
Definition leafConfig : string := "/c/tsconfig.json".

Definition selfParsed : Workspace.ParsedCommandLine :=
  Workspace.mkParsedCommandLine (Some [selfConfig; leafConfig]).

Definition selfConfigs : gmap string Workspace.ParsedCommandLine :=
  <[selfConfig := selfParsed]>
    (<[leafConfig := Workspace.mkParsedCommandLine None]> ∅).

(** Two configurations that reference each other. *)
Definition mutualConfigs : gmap string Workspace.ParsedCommandLine :=
  <["/a/tsconfig.json" := Workspace.mkParsedCommandLine (Some ["/b/tsconfig.json"])]>
    (<["/b/tsconfig.json" := Workspace.mkParsedCommandLine (Some ["/a/tsconfig.json"])]> ∅).

(** Simple stand-ins for the path library, for paths without [.], [..] and
    doubled separators. *)
Definition join (a b : string) : string := a +:+ "/" +:+ b.
Definition dirname (p : string) : string := substring p 0 (Some (lastIndexOf "/"%char p)).
Definition basename (p : string) : string := substring p (lastIndexOf "/"%char p + 1) None.
Definition isFileInDir (file dir : string) : bool := startsWith file (dir +:+ "/").

End Examples.

(** ** More of the small project: a workspace on disk, a search, and files
    whose paths differ in case *)
Module MoreExamples.

Import Examples.

(** A file system with a configuration beside the file and one at the root. *)
Definition sys : option (string → bool) :=
  Some (λ path, String.eqb path "/a/tsconfig.json" || String.eqb path "/jsconfig.json").

Definition nothing_searched : Resolver.Discovery := Resolver.mkDiscovery [] [].

(** What the walk from [/a/b] finds. *)
Definition walked : Resolver.Discovery :=
  Resolver.mkDiscovery ["/a/tsconfig.json"; "/jsconfig.json"] ["/a/b"; "/a"; ""].

(** Two chains that share their root, and a callback that counts its calls
    and accepts the root only. *)
Definition sharedChains : list (list string) :=
  [ ["/tsconfig.json"; "/a/tsconfig.json"]; ["/tsconfig.json"; "/b/tsconfig.json"] ].

Definition isRoot (tsconfig : string) (calls : nat) : bool * nat :=
  (String.eqb tsconfig "/tsconfig.json", S calls).

(** A host of a case-sensitive file system, with two files whose paths
    differ only in case. *)
Definition upperSnapshot : IScriptSnapshot := mkSnapshot 4 "export const upper = true".

Definition caseHost : LanguageServiceHost :=
  Host.mkHost (Some "1") ["/src/main.ts"; "/src/Main.ts"] (λ _, "1")
    (λ fileName,
       if String.eqb fileName "/src/main.ts" then Some mainSnapshot
       else if String.eqb fileName "/src/Main.ts" then Some upperSnapshot
       else None)
    (λ _, None)
    (Some (λ _, true))
    "/src" false.

(** A diagnostic of the plain file, and one without a file. *)
Definition mainTs : Program.SourceFile :=
  Program.mkSourceFile "/src/main.ts" "import App from './App.vue'" Program.Latest.

Definition mainDiagnostic : Program.Diagnostic :=
  Program.mkDiagnostic (Some mainTs) (Some 7) (Some 3) "App is never read" 6133 None.

Definition globalDiagnostic : Program.Diagnostic :=
  Program.mkDiagnostic None None None "Cannot find global type 'Array'" 2318 None.

(** A program that reports the two diagnostics of the generated unit. *)
Definition program (sourceFile : option Program.SourceFile) : list Program.Diagnostic :=
  match sourceFile with
  | Some _ => [mappedDiagnostic; unmappedDiagnostic]
  | None => []
  end.

(** Two modules that proxy [getScriptKind], the second also [readFile], over
    a host that has both and [fileExists]. *)
Definition plainHost : HostProxy.Members (V := string) :=
  λ key,
    if String.eqb key "getScriptKind" then Some "host"
    else if String.eqb key "readFile" then Some "host"
    else if String.eqb key "fileExists" then Some "host"
    else None.

Definition firstModule : HostProxy.Module string :=
  HostProxy.mkModule
    (Some (λ _ key, if String.eqb key "getScriptKind" then Some "first" else None)).

Definition secondModule : HostProxy.Module string :=
  HostProxy.mkModule
    (Some (λ _ key,
             if String.eqb key "getScriptKind" then Some "second"
             else if String.eqb key "readFile" then Some "second"
             else None)).

End MoreExamples.

(** * Properties *)

(** ** Strings and sets of names *)
Module StringFacts.

Lemma length_append (s1 s2 : string) :
  String.length (s1 +:+ s2) = (String.length s1 + String.length s2)%nat.
Proof. induction s1 as [|a s1 IH]; simpl; [done|by f_equal]. Qed.

Lemma lastIndexOf_from_append (c : ascii) (s1 s2 : string) (i acc : Z) :
  lastIndexOf_from c (s1 +:+ s2) i acc =
    lastIndexOf_from c s2 (i + Z.of_nat (String.length s1)) (lastIndexOf_from c s1 i acc).
Proof.
  revert i acc. induction s1 as [|a s1 IH]; intros i acc; simpl.
  - by rewrite Z.add_0_r.
  - rewrite IH. f_equal. lia.
Qed.

Lemma substring_append_r (s1 s2 : string) :
  String.substring (String.length s1) (String.length s2) (s1 +:+ s2) = s2.
Proof.
  induction s1 as [|a s1 IH]; simpl; [|done].
  induction s2 as [|b s2 IH2]; simpl; [done|]. by f_equal.
Qed.

Lemma substring_append_l (s1 s2 : string) :
  String.substring 0 (String.length s1) (s1 +:+ s2) = s1.
Proof.
  induction s1 as [|a s1 IH]; simpl; [by destruct s2|by f_equal].
Qed.

Lemma lastIndexOf_extension (stem ext : string) :
  ext ∈ hostExtensions →
  lastIndexOf "."%char (stem +:+ ext) = Z.of_nat (String.length stem).
Proof.
  intros Hext. unfold lastIndexOf. rewrite lastIndexOf_from_append.
  unfold hostExtensions in Hext.
  rewrite !elem_of_cons, elem_of_nil in Hext.
  destruct Hext as [->|[->|[->|[->|[]]]]]; cbn; lia.
Qed.

(** A path [stem +:+ ext] splits at its last dot into [ext] and [stem]. *)
Lemma extension_split (stem ext : string) :
  ext ∈ hostExtensions →
  substring (stem +:+ ext) (lastIndexOf "."%char (stem +:+ ext)) None = ext
  ∧ substring (stem +:+ ext) 0 (Some (lastIndexOf "."%char (stem +:+ ext))) = stem.
Proof.
  intros Hext. rewrite (lastIndexOf_extension _ _ Hext). unfold substring.
  cbv zeta. rewrite length_append, Nat2Z.inj_add.
  assert (0 ≤ Z.of_nat (String.length stem)) by lia.
  assert (0 ≤ Z.of_nat (String.length ext)) by lia.
  split.
  - replace (Z.min _ (Z.of_nat (String.length stem) + Z.of_nat (String.length ext)))
      with (Z.of_nat (String.length stem)) by lia.
    rewrite (Z.max_r 0), Z.min_l, Z.max_r by lia.
    replace (_ + _ - _) with (Z.of_nat (String.length ext)) by lia.
    rewrite !Nat2Z.id. apply substring_append_r.
  - replace (Z.min (Z.of_nat (String.length stem)) _)
      with (Z.of_nat (String.length stem)) by lia.
    replace (Z.max 0 (Z.min 0 _)) with 0 by lia.
    rewrite (Z.max_r 0 (Z.of_nat _)), Z.min_l, Z.max_r by lia.
    rewrite Z.sub_0_r, Nat2Z.id. apply substring_append_l.
Qed.

Lemma extension_eqb (ext : string) :
  ext ∈ hostExtensions →
  String.eqb ext ".js" || String.eqb ext ".ts"
  || String.eqb ext ".jsx" || String.eqb ext ".tsx" = true.
Proof.
  unfold hostExtensions. rewrite !elem_of_cons, elem_of_nil.
  intros [->|[->|[->|[->|[]]]]]; done.
Qed.

Lemma elem_of_fold_set_add (l acc : list string) (x : string) :
  x ∈ fold_left set_add l acc ↔ x ∈ acc ∨ x ∈ l.
Proof.
  revert acc. induction l as [|y l IH]; intros acc; cbn [fold_left].
  - rewrite elem_of_nil. tauto.
  - rewrite IH. unfold set_add. rewrite elem_of_cons.
    case_bool_decide as Hy; [|rewrite elem_of_app, list_elem_of_singleton; tauto].
    split; [tauto|]. intros [?|[->|?]]; tauto.
Qed.

Lemma elem_of_new_Set (l : list string) (x : string) : x ∈ new_Set l ↔ x ∈ l.
Proof. unfold new_Set. rewrite elem_of_fold_set_add, elem_of_nil. tauto. Qed.

Lemma set_has_new_Set (l : list string) (x : string) :
  set_has (new_Set l) x = bool_decide (x ∈ l).
Proof. unfold set_has. apply bool_decide_ext, elem_of_new_Set. Qed.

End StringFacts.

(** ** The Virtual Document Store *)
Module VirtualFilesFacts.

Import VirtualFiles.

Lemma forEachEmbeddedFile_root (file : VirtualFile) : file ∈ forEachEmbeddedFile file.
Proof. destruct file. cbn. by left. Qed.

(** The reverse lookup answers a unit of the requested name. *)
Lemma getVirtualFile_fileName (vf : t) (fileName : string) unit owner :
  getVirtualFile vf fileName = Some (unit, owner) → vf_fileName unit = fileName.
Proof.
  induction vf as [|s vf IH]; cbn; [done|].
  destruct (find _ _) as [e|] eqn:Hfind; [|done].
  intros [= <- <-]. apply find_some in Hfind as [_ Heq]. by apply String.eqb_eq in Heq.
Qed.

Lemma getVirtualFile_owner (vf : t) (fileName : string) unit owner :
  getVirtualFile vf fileName = Some (unit, owner) →
  owner ∈ vf ∧ unit ∈ forEachEmbeddedFile (src_root owner).
Proof.
  induction vf as [|s vf IH]; cbn; [done|].
  destruct (find _ _) as [e|] eqn:Hfind.
  - intros [= <- <-]. apply find_some in Hfind as [Hin _].
    split; [by left|by apply list_elem_of_In].
  - intros [? ?]%IH. split; [by right|done].
Qed.

(** Every unit of every tracked document is found by name. *)
Lemma hasVirtualFile_embedded (vf : t) (source : Source) (embedded : VirtualFile) :
  source ∈ vf → embedded ∈ forEachEmbeddedFile (src_root source) →
  hasVirtualFile vf (vf_fileName embedded) = true.
Proof.
  unfold hasVirtualFile. intros Hs He. apply bool_decide_eq_true.
  induction vf as [|s vf IH]; [by apply elem_of_nil in Hs|]. cbn.
  destruct (find _ (forEachEmbeddedFile (src_root s))) as [e|] eqn:Hfind; [done|].
  apply elem_of_cons in Hs as [->|Hs]; [|by apply IH].
  apply list_elem_of_In in He. apply (find_none _ _ Hfind) in He.
  by rewrite String.eqb_refl in He.
Qed.

Lemma elem_of_set (vf : t) (s : Source) : s ∈ set vf s.
Proof.
  induction vf as [|s' vf IH]; cbn; [by left|].
  destruct (String.eqb _ _); [by left|by right].
Qed.

Lemma hasSource_true (vf : t) (s : Source) :
  s ∈ vf → hasSource vf (src_fileName s) = true.
Proof.
  intros Hin. unfold hasSource. apply existsb_exists. exists s.
  split; [by apply list_elem_of_In|apply String.eqb_refl].
Qed.

(** A document a module accepts is tracked after [updateSource], and its
    units are found by name. *)
Lemma updateSource_registers languageModules (vf : t) fileName snapshot languageId root :
  (updateSource languageModules vf fileName snapshot languageId).1 = Some root →
  hasSource (updateSource languageModules vf fileName snapshot languageId).2 fileName = true
  ∧ ∀ embedded, embedded ∈ forEachEmbeddedFile root →
      hasVirtualFile (updateSource languageModules vf fileName snapshot languageId).2
                     (vf_fileName embedded) = true.
Proof.
  unfold updateSource.
  destruct (createFile languageModules fileName snapshot languageId) as [root'|]; [|done].
  cbn. intros [= ->]. split.
  - apply (hasSource_true _ (mkSource fileName languageId snapshot root)), elem_of_set.
  - intros embedded He.
    apply (hasVirtualFile_embedded _ (mkSource fileName languageId snapshot root));
      [apply elem_of_set|done].
Qed.

End VirtualFilesFacts.

(** ** The Language Context *)
Module CoreFacts.

Import Core.

Section WithModules.

Variable languageModules : list LanguageModule.

Lemma getScriptVersion_scriptSnapshots host fileName s :
  scriptSnapshots (getScriptVersion host fileName s).2 = scriptSnapshots s.
Proof.
  unfold getScriptVersion.
  destruct (VirtualFiles.getVirtualFile _ _) as [[virtualFile source]|]; [|done].
  destruct (virtualFileVersions s !! _) as [version|]; [|done].
  by destruct (_ || _).
Qed.

Lemma getScriptVersion_virtualFiles host fileName s :
  virtualFiles (getScriptVersion host fileName s).2 = virtualFiles s.
Proof.
  unfold getScriptVersion.
  destruct (VirtualFiles.getVirtualFile _ _) as [[virtualFile source]|]; [|done].
  destruct (virtualFileVersions s !! _) as [version|]; [|done].
  by destruct (_ || _).
Qed.

(** What a call of [getScriptVersion] on a generated unit answers and leaves
    in [virtualFileVersions]. *)
Lemma getScriptVersion_record host fileName s unit owner :
  VirtualFiles.getVirtualFile (virtualFiles s) fileName = Some (unit, owner) →
  ∃ version,
    (getScriptVersion host fileName s).1 = pretty (value version)
    ∧ virtualFileVersions (getScriptVersion host fileName s).2 !! fileName = Some version
    ∧ virtualFileSnapshot version = vf_snapshot unit
    ∧ (Host.isTsc host = true → sourceFileSnapshot version = src_snapshot owner)
    ∧ match virtualFileVersions s !! fileName with
      | None => value version = 0%N
      | Some old =>
          value version =
            if bool_decide (virtualFileSnapshot old ≠ vf_snapshot unit)
               || (Host.isTsc host && bool_decide (sourceFileSnapshot old ≠ src_snapshot owner))
            then (value old + 1)%N else value old
      end.
Proof.
  intros Hv. pose proof (VirtualFilesFacts.getVirtualFile_fileName _ _ _ _ Hv) as Hname.
  unfold getScriptVersion. rewrite Hv, Hname.
  destruct (virtualFileVersions s !! fileName) as [old|] eqn:Hold.
  - destruct (bool_decide (virtualFileSnapshot old ≠ vf_snapshot unit)) eqn:Hunit;
      cbn [orb].
    + exists (mkVersion (value old + 1) (vf_snapshot unit) (src_snapshot owner)).
      cbn. rewrite lookup_insert_eq. done.
    + apply bool_decide_eq_false in Hunit. apply dec_stable in Hunit.
      destruct (Host.isTsc host) eqn:Htsc; cbn [andb].
      * destruct (bool_decide (sourceFileSnapshot old ≠ src_snapshot owner)) eqn:Howner.
        -- exists (mkVersion (value old + 1) (vf_snapshot unit) (src_snapshot owner)).
           cbn. rewrite lookup_insert_eq. done.
        -- apply bool_decide_eq_false in Howner. apply dec_stable in Howner.
           exists old. done.
      * exists old. done.
  - exists (mkVersion 0 (vf_snapshot unit) (src_snapshot owner)).
    cbn. rewrite lookup_insert_eq. done.
Qed.

(** C3: for a path that resolves to a generated unit and its owning document,
    [getScriptVersion] answers the unit's Version Token, printed as a string.
    At the next call for the path (in any later state that left the unit's
    record as the previous call wrote it) the token is the same or one more,
    and it is one more exactly when the unit's snapshot differs from the one
    seen by the previous call or, when the host is [isTsc], the owning
    document's snapshot does; with both snapshots unchanged the two calls
    answer the same string. *)
Theorem getScriptVersion_token (host host' : LanguageServiceHost) (fileName : string)
    (s s' : State) (unit unit' : VirtualFile) (owner owner' : Source) :
  Host.isTsc host' = Host.isTsc host →
  VirtualFiles.getVirtualFile (virtualFiles s) fileName = Some (unit, owner) →
  VirtualFiles.getVirtualFile (virtualFiles s') fileName = Some (unit', owner') →
  virtualFileVersions s' !! fileName
    = virtualFileVersions (getScriptVersion host fileName s).2 !! fileName →
  ∃ token token' : N,
    (getScriptVersion host fileName s).1 = pretty token
    ∧ (getScriptVersion host' fileName s').1 = pretty token'
    ∧ value <$> virtualFileVersions (getScriptVersion host fileName s).2 !! fileName
        = Some token
    ∧ value <$> virtualFileVersions (getScriptVersion host' fileName s').2 !! fileName
        = Some token'
    ∧ (token' = token ∨ token' = (token + 1)%N)
    ∧ (token' = (token + 1)%N ↔
         vf_snapshot unit' ≠ vf_snapshot unit
         ∨ (Host.isTsc host = true ∧ src_snapshot owner' ≠ src_snapshot owner))
    ∧ (vf_snapshot unit' = vf_snapshot unit → src_snapshot owner' = src_snapshot owner →
       (getScriptVersion host' fileName s').1 = (getScriptVersion host fileName s).1).
Proof.
  intros Htsc Hv Hv' Hrecord.
  destruct (getScriptVersion_record host fileName s unit owner Hv)
    as (version & Hans & Hrec & Hunit & Howner & _).
  destruct (getScriptVersion_record host' fileName s' unit' owner' Hv')
    as (version' & Hans' & Hrec' & _ & _ & Hstep).
  rewrite Hrecord, Hrec in Hstep. rewrite Htsc, Hunit in Hstep.
  exists (value version), (value version').
  rewrite Hans, Hans', Hrec, Hrec'. cbn [fmap option_fmap option_map].
  assert (value version' = (value version + 1)%N ↔
            vf_snapshot unit' ≠ vf_snapshot unit
            ∨ (Host.isTsc host = true ∧ src_snapshot owner' ≠ src_snapshot owner)) as Hiff.
  { destruct (decide (vf_snapshot unit = vf_snapshot unit')) as [Heq|Hne].
    - rewrite bool_decide_eq_false_2 in Hstep by (intros H; by apply H). cbn [orb] in Hstep.
      destruct (Host.isTsc host) eqn:Hmode; cbn [andb] in Hstep.
      + rewrite Howner in Hstep by done.
        destruct (decide (src_snapshot owner = src_snapshot owner')) as [Heq'|Hne'].
        * rewrite bool_decide_eq_false_2 in Hstep by (intros H; by apply H).
          split; [lia|]. intros [H|[_ H]]; congruence.
        * rewrite bool_decide_eq_true_2 in Hstep by done.
          split; [|done]. intros _. right. split; [done|congruence].
      + split; [lia|]. intros [H|[? _]]; congruence.
    - rewrite bool_decide_eq_true_2 in Hstep by done. cbn [orb] in Hstep.
      split; [|done]. intros _. left. congruence. }
  repeat split; try done; try apply Hiff.
  - destruct (bool_decide _ || _) in Hstep; [by right|by left].
  - intros Hsame Hsame'. f_equal.
    destruct (bool_decide _ || _) eqn:Hb in Hstep; [|done].
    apply Hiff in Hstep as [H|[_ H]]; congruence.
Qed.

(** What a call of [getScriptSnapshot] that answers a snapshot leaves in the
    cache. *)
Lemma getScriptSnapshot_recorded host fileName s snapshot :
  (getScriptSnapshot host fileName s).1 = Some snapshot →
  scriptSnapshots (getScriptSnapshot host fileName s).2 !! toLowerCase fileName
    = Some ((getScriptVersion host fileName s).1, snapshot).
Proof.
  unfold getScriptSnapshot.
  pose proof (getScriptVersion_scriptSnapshots host fileName s) as Hcache.
  destruct (getScriptVersion host fileName s) as [version s1]. cbn [fst snd] in *.
  assert (∀ snap, (read_snapshot host fileName version s1).1 = Some snap →
            scriptSnapshots (read_snapshot host fileName version s1).2 !! toLowerCase fileName
              = Some (version, snap)) as Hread.
  { unfold read_snapshot. intros snap.
    destruct (VirtualFiles.getVirtualFile _ _) as [[virtualFile ?]|].
    - cbn. intros [= <-]. by rewrite lookup_insert_eq.
    - destruct (Host.getScriptSnapshot host fileName) as [tsScript|]; [|done].
      cbn. intros [= <-]. by rewrite lookup_insert_eq. }
  destruct (scriptSnapshots s1 !! toLowerCase fileName) as [[cachedVersion cached]|] eqn:Hc;
    [|by apply Hread].
  destruct (String.eqb_spec cachedVersion version) as [->|Hne]; [|by apply Hread].
  cbn. by intros [= <-].
Qed.

(** C7: when a call of [getScriptSnapshot] answered a snapshot, the next call
    for the path (in any later state that left the path's cache entry as the
    first call wrote it) that finds the path's version unchanged answers that
    same snapshot, whatever the host and the store now hold, and leaves the
    cache as it is. *)
Theorem getScriptSnapshot_cached (host host' : LanguageServiceHost) (fileName : string)
    (s s' : State) (snapshot : IScriptSnapshot) :
  (getScriptSnapshot host fileName s).1 = Some snapshot →
  scriptSnapshots s' !! toLowerCase fileName
    = scriptSnapshots (getScriptSnapshot host fileName s).2 !! toLowerCase fileName →
  (getScriptVersion host' fileName s').1 = (getScriptVersion host fileName s).1 →
  (getScriptSnapshot host' fileName s').1 = Some snapshot
  ∧ scriptSnapshots (getScriptSnapshot host' fileName s').2 = scriptSnapshots s'.
Proof.
  intros Hfirst Hcache Hversion.
  rewrite (getScriptSnapshot_recorded _ _ _ _ Hfirst) in Hcache.
  unfold getScriptSnapshot.
  pose proof (getScriptVersion_scriptSnapshots host' fileName s') as Hsame.
  destruct (getScriptVersion host' fileName s') as [version' s1']. cbn [fst snd] in *.
  rewrite Hsame, Hcache, Hversion, String.eqb_refl. done.
Qed.

(** C6: probing [stem +:+ ext], for one of the four host-language extensions,
    when [stem] is not a tracked document and the host has a snapshot for it:
    the derived host view's [fileExists] first calls [updateSource] on the
    stem, and answers true exactly when the probed path is then a known
    generated unit or the host's own [fileExists] is true.  When a language
    module accepts the stem, the stem is tracked afterwards and every unit of
    its tree is found by name. *)
Theorem fileExists_registers_stem (host : LanguageServiceHost) (raw : string → bool)
    (stem ext : string) (snapshot : IScriptSnapshot) (s : State) :
  ext ∈ hostExtensions →
  Host.fileExists host = Some raw →
  VirtualFiles.hasSource (virtualFiles (update languageModules host s)) stem = false →
  Host.getScriptSnapshot host stem = Some snapshot →
  let s0 := update languageModules host s in
  let registered :=
    VirtualFiles.updateSource languageModules (virtualFiles s0) stem snapshot
                              (Host.getScriptLanguageId host stem) in
  languageServiceHost_fileExists (createLanguageContext languageModules host)
                                 (stem +:+ ext) s
    = (Some (VirtualFiles.hasVirtualFile registered.2 (stem +:+ ext) || raw (stem +:+ ext)),
       set_virtualFiles s0 registered.2)
  ∧ (∀ root, registered.1 = Some root →
       VirtualFiles.hasSource registered.2 stem = true
       ∧ ∀ embedded, embedded ∈ forEachEmbeddedFile root →
           VirtualFiles.hasVirtualFile registered.2 (vf_fileName embedded) = true).
Proof.
  intros Hext Hraw Hnew Hsnap s0 registered. split.
  - cbn [createLanguageContext languageServiceHost_fileExists].
    unfold fileExists. rewrite Hraw. unfold fileExists_body. fold s0.
    destruct (StringFacts.extension_split stem ext Hext) as [-> ->].
    rewrite (StringFacts.extension_eqb ext Hext).
    fold s0 in Hnew. rewrite Hnew, Hsnap, Hraw. cbn [negb]. fold registered.
    cbn [virtualFiles set_virtualFiles].
    by destruct (VirtualFiles.hasVirtualFile registered.2 (stem +:+ ext)).
  - intros root Hroot. by apply VirtualFilesFacts.updateSource_registers.
Qed.

End WithModules.

End CoreFacts.

(** ** The update cycle and the Project Version *)
Module UpdateFacts.

Import Core.

Section WithModules.

Variable languageModules : list LanguageModule.
Variable host : LanguageServiceHost.

Local Abbreviation flag c := (shouldUpdateTsProject (c_locals c)).
Local Abbreviation num c := (virtualFilesUpdatedNum (c_locals c)).
Local Abbreviation remain c := (remainRootFiles (c_locals c)).

Lemma filter_id {A} (P : A → Prop) `{∀ x, Decision (P x)} (l : list A) :
  (∀ x, P x) → filter P l = l.
Proof.
  intros HP. induction l as [|x l IH]; [done|].
  rewrite filter_cons_True by done. by f_equal.
Qed.

(** *** The loop over the tracked documents *)

Lemma refresh_source_fold (l : list string) (c : Cycle) :
  flag (fold_left (refresh_source languageModules host) l c)
    = flag c || existsb (λ f, bool_decide (Host.getScriptSnapshot host f = None)) l
  ∧ remain (fold_left (refresh_source languageModules host) l c)
    = filter (λ x, x ∉ l) (remain c)
  ∧ c_sourceTsFileVersions (fold_left (refresh_source languageModules host) l c)
    = c_sourceTsFileVersions c.
Proof.
  revert c. induction l as [|f l IH]; intros c; cbn [fold_left existsb].
  - rewrite orb_false_r. split; [done|]. split; [|done].
    symmetry. apply filter_id. intros x. rewrite elem_of_nil. tauto.
  - destruct (IH (refresh_source languageModules host c f)) as (-> & -> & ->).
    assert (filter (λ x, x ∉ l) (set_delete f (remain c)) = filter (λ x, x ∉ f :: l) (remain c))
      as Hremain.
    { unfold set_delete. rewrite list_filter_filter. apply list_filter_iff.
      intros x. rewrite elem_of_cons. tauto. }
    unfold refresh_source.
    destruct (Host.getScriptSnapshot host f) as [snapshot|] eqn:Hsnap.
    + rewrite (bool_decide_eq_false_2 (Some snapshot = None)) by done. cbn [orb].
      case_bool_decide; cbn; rewrite Hremain; done.
    + rewrite (bool_decide_eq_true_2 (None = None)) by done.
      cbn. rewrite Hremain, orb_true_r. done.
Qed.

Lemma refresh_source_fold_num (l : list string) (c : Cycle) :
  num (fold_left (refresh_source languageModules host) l c) = 0%N ↔
  num c = 0%N ∧ ∀ f, f ∈ l → unchanged host (c_sourceFileVersions c) f.
Proof.
  revert c. induction l as [|f l IH]; intros c; cbn [fold_left].
  - split; [|tauto]. intros H. split; [done|]. by intros f ?%elem_of_nil.
  - rewrite IH. unfold refresh_source, unchanged.
    destruct (Host.getScriptSnapshot host f) as [snapshot|] eqn:Hsnap.
    + case_bool_decide as Hversion; cbn.
      * split; [lia|]. intros [_ Hall]. destruct (Hall f) as [_ ?]; [by left|done].
      * split.
        -- intros [? Hall]. split; [done|]. intros f' [->|?]%elem_of_cons; [|by apply Hall].
           by rewrite Hsnap.
        -- intros [? Hall]. split; [done|]. intros f' ?. apply Hall. by right.
    + cbn. split; [lia|]. intros [_ Hall]. destruct (Hall f) as [[? Hsome] _]; [by left|].
      congruence.
Qed.

(** *** The loop that adds the host's root files as documents *)

Lemma add_source_fold (l : list string) (c : Cycle) :
  flag (fold_left (add_source languageModules host) l c) = flag c
  ∧ num (fold_left (add_source languageModules host) l c) = num c
  ∧ c_sourceTsFileVersions (fold_left (add_source languageModules host) l c)
    = c_sourceTsFileVersions c
  ∧ remain (fold_left (add_source languageModules host) l c)
    = filter (λ x, ¬ (x ∈ l ∧ accepted languageModules host x = true)) (remain c).
Proof.
  revert c. induction l as [|f l IH]; intros c; cbn [fold_left].
  - repeat split. symmetry. apply filter_id. intros x. rewrite elem_of_nil. tauto.
  - destruct (IH (add_source languageModules host c f)) as (-> & -> & -> & ->).
    unfold add_source, accepted, VirtualFiles.updateSource.
    destruct (Host.getScriptSnapshot host f) as [snapshot|] eqn:Hsnap.
    + destruct (createFile languageModules f snapshot _) as [root|] eqn:Hcreate; cbn.
      * repeat split. unfold set_delete. rewrite list_filter_filter.
        apply list_filter_iff. intros x. rewrite elem_of_cons.
        split.
        -- intros [Hx Hne] [[->|Hin] Hacc]; [done|]. by apply Hx.
        -- intros Hx. split.
           ++ intros [? ?]. apply Hx. split; [by right|done].
           ++ intros ->. apply Hx. split; [by left|].
              rewrite Hsnap. cbn. rewrite Hcreate. by apply bool_decide_eq_true_2.
      * repeat split. apply list_filter_iff. intros x. rewrite elem_of_cons.
        split.
        -- intros Hx [[->|Hin] Hacc]; [|by apply Hx].
           rewrite Hsnap in Hacc. cbn in Hacc. rewrite Hcreate in Hacc.
           apply bool_decide_eq_true in Hacc. by destruct Hacc.
        -- intros Hx [? ?]. apply Hx. split; [by right|done].
    + repeat split. apply list_filter_iff. intros x. rewrite elem_of_cons.
      split.
      * intros Hx [[->|Hin] Hacc]; [|by apply Hx]. by rewrite Hsnap in Hacc.
      * intros Hx [? ?]. apply Hx. split; [by right|done].
Qed.

(** *** The loops over the plain files *)

Lemma refresh_ts_file_fold (entries : list (string * string)) (c : Cycle) :
  flag (fold_left (refresh_ts_file host) entries c)
    = flag c || existsb (λ e, bool_decide (e.2 ≠ Host.getScriptVersion host e.1)) entries
  ∧ remain (fold_left (refresh_ts_file host) entries c) = remain c
  ∧ c_virtualFiles (fold_left (refresh_ts_file host) entries c) = c_virtualFiles c.
Proof.
  revert c. induction entries as [|[k v] entries IH]; intros c; cbn [fold_left existsb].
  - by rewrite orb_false_r.
  - destruct (IH (refresh_ts_file host c (k, v))) as (-> & -> & ->).
    unfold refresh_ts_file. cbn [fst snd].
    case_bool_decide; cbn; [by rewrite orb_true_r|done].
Qed.

Lemma refresh_ts_file_fold_lookup (entries : list (string * string)) (c : Cycle)
    (f : string) :
  f ∈ remain c →
  (∀ v, (f, v) ∈ entries → is_Some (c_sourceTsFileVersions c !! f)) →
  is_Some (c_sourceTsFileVersions (fold_left (refresh_ts_file host) entries c) !! f)
  ↔ is_Some (c_sourceTsFileVersions c !! f).
Proof.
  revert c. induction entries as [|[k v] entries IH]; intros c Hf Hentries;
    cbn [fold_left]; [done|].
  assert (remain (refresh_ts_file host c (k, v)) = remain c) as Hremain.
  { unfold refresh_ts_file. by case_bool_decide. }
  assert (is_Some (c_sourceTsFileVersions (refresh_ts_file host c (k, v)) !! f)
          ↔ is_Some (c_sourceTsFileVersions c !! f)) as Hstep.
  { unfold refresh_ts_file. case_bool_decide as Hv; [|done]. cbn.
    destruct (decide (k = f)) as [->|Hne].
    - unfold set_has. rewrite bool_decide_eq_true_2 by done. cbn.
      rewrite lookup_insert_eq. split; [|done]. intros _. apply (Hentries v). by left.
    - destruct (negb _ && _); [by rewrite lookup_delete_ne|by rewrite lookup_insert_ne]. }
  rewrite IH, Hstep; [done|by rewrite Hremain|].
  intros v' Hv'. apply Hstep, (Hentries v'). by right.
Qed.

Lemma add_ts_file_fold (l : list string) (c : Cycle) :
  (flag (fold_left (add_ts_file host) l c) = true ↔
     flag c = true ∨ ∃ f, f ∈ l ∧ c_sourceTsFileVersions c !! f = None)
  ∧ c_virtualFiles (fold_left (add_ts_file host) l c) = c_virtualFiles c.
Proof.
  revert c. induction l as [|f l IH]; intros c; cbn [fold_left].
  - split; [|done]. split; [tauto|]. intros [?|(f & ?%elem_of_nil & _)]; done.
  - destruct (IH (add_ts_file host c f)) as [-> ->].
    unfold add_ts_file. case_bool_decide as Hnew; cbn.
    + split; [|done]. split; [|tauto]. intros _. right. exists f. split; [by left|done].
    + split; [|done]. split.
      * intros [?|(f' & ? & ?)]; [by left|]. right. exists f'. split; [by right|done].
      * intros [?|(f' & [->|?]%elem_of_cons & ?)]; [by left|done|].
        right. by exists f'.
Qed.

(** *** The loop over the generated units *)

Lemma check_embedded_fold (versions : gmap string Version) (sources : list Source)
    (b : bool) :
  fold_left (check_embedded versions) sources b
    = b || existsb (λ source, existsb (snapshot_outdated versions)
                                      (forEachEmbeddedFile (src_root source))) sources.
Proof.
  assert (∀ l acc, fold_left (λ acc e, if snapshot_outdated versions e then true else acc) l acc
                   = acc || existsb (snapshot_outdated versions) l) as Hinner.
  { induction l as [|e l IH]; intros acc; cbn [fold_left existsb].
    - by rewrite orb_false_r.
    - rewrite IH. destruct (snapshot_outdated versions e), acc; done. }
  revert b. induction sources as [|source sources IH]; intros b; cbn [fold_left existsb].
  - by rewrite orb_false_r.
  - rewrite IH. unfold check_embedded. destruct b; cbn [negb orb]; [done|].
    rewrite Hinner. done.
Qed.

(** *** The whole cycle *)

Lemma snapshot_outdated_true (versions : gmap string Version) (embedded : VirtualFile) :
  snapshot_outdated versions embedded = true ↔
  vf_kind embedded = TypeScriptHostFile
  ∧ ∃ version, versions !! vf_fileName embedded = Some version
               ∧ virtualFileSnapshot version ≠ vf_snapshot embedded.
Proof.
  unfold snapshot_outdated. rewrite andb_true_iff, bool_decide_eq_true.
  destruct (versions !! vf_fileName embedded) as [version|].
  - rewrite bool_decide_eq_true. split; [intros [? ?]; eauto|].
    intros [? (v & [= <-] & ?)]. done.
  - split; [intros [_ ?]; done|]. intros [_ (v & ? & _)]. done.
Qed.

Lemma update_cycle_flag (s : State) :
  (update_cycle languageModules host s).2 = true ↔
    document_deleted host s ∨ no_document_changed host s ∨ plain_file_changed host s
    ∨ plain_file_added languageModules host s
    ∨ unit_outdated s (c_virtualFiles (update_cycle languageModules host s).1).
Proof.
  unfold update_cycle. cbn [fst snd].
  remember (mkCycle (mkLocals false 0 (new_Set (Host.getScriptFileNames host)))
                    (virtualFiles s) (sourceFileVersions s) (sourceTsFileVersions s)) as c0.
  remember (src_fileName <$> VirtualFiles.allSources (virtualFiles s)) as names.
  remember (fold_left (refresh_source languageModules host) names c0) as c1.
  remember (no_source_change c1) as c2.
  remember (fold_left (add_source languageModules host) (remain c2) c2) as c3.
  remember (fold_left (refresh_ts_file host) (map_to_list (c_sourceTsFileVersions c3)) c3)
    as c4.
  remember (fold_left (add_ts_file host) (remain c4) c4) as c5.
  destruct (refresh_source_fold names c0) as (Hflag1 & Hremain1 & Hts1).
  pose proof (refresh_source_fold_num names c0) as Hnum1.
  rewrite <- Heqc1 in Hflag1, Hremain1, Hts1, Hnum1.
  assert (flag c2 = flag c1 || (num c1 =? 0)%N ∧ remain c2 = remain c1
          ∧ c_sourceTsFileVersions c2 = c_sourceTsFileVersions c1) as (Hflag2 & Hremain2 & Hts2).
  { subst c2. unfold no_source_change. destruct (num c1 =? 0)%N; cbn.
    - by rewrite orb_true_r.
    - by rewrite orb_false_r. }
  destruct (add_source_fold (remain c2) c2) as (Hflag3 & _ & Hts3 & Hremain3).
  rewrite <- Heqc3 in Hflag3, Hts3, Hremain3.
  destruct (refresh_ts_file_fold (map_to_list (c_sourceTsFileVersions c3)) c3)
    as (Hflag4 & Hremain4 & _).
  rewrite <- Heqc4 in Hflag4, Hremain4.
  destruct (add_ts_file_fold (remain c4) c4) as (Hflag5 & _).
  rewrite <- Heqc5 in Hflag5.
  assert (c_sourceTsFileVersions c3 = sourceTsFileVersions s) as Hts.
  { rewrite Hts3, Hts2, Hts1. by subst c0. }
  (* the documents *)
  assert (flag c2 = true ↔ document_deleted host s ∨ no_document_changed host s) as H2.
  { rewrite Hflag2, Hflag1, !orb_true_iff, existsb_exists, N.eqb_eq, Hnum1.
    subst c0 names. cbn. unfold VirtualFiles.allSources.
    split.
    - intros [[[=]|(f & Hin & Hnone)]|[_ Hall]].
      + left. apply list_elem_of_In, list_elem_of_fmap in Hin as (source & -> & ?).
        apply bool_decide_eq_true in Hnone. by exists source.
      + right. intros source Hsource. apply Hall. by apply list_elem_of_fmap_2.
    - intros [(source & Hsource & Hnone)|Hall].
      + left. right. exists (src_fileName source). split.
        * by apply list_elem_of_In, list_elem_of_fmap_2.
        * by apply bool_decide_eq_true.
      + right. split; [done|]. intros f (source & -> & ?)%list_elem_of_fmap. by apply Hall. }
  (* the tracked plain files *)
  assert (flag c4 = true ↔ flag c2 = true ∨ plain_file_changed host s) as H4.
  { rewrite Hflag4, Hflag3, orb_true_iff, existsb_exists, Hts.
    apply or_iff_compat_l. split.
    - intros ([f v] & Hin & Hne). apply list_elem_of_In, elem_of_map_to_list in Hin.
      apply bool_decide_eq_true in Hne. by exists f, v.
    - intros (f & v & Hin & Hne). exists (f, v). split.
      + by apply list_elem_of_In, elem_of_map_to_list.
      + by apply bool_decide_eq_true. }
  (* the remaining root files *)
  assert (∀ f, f ∈ remain c4 ↔
               f ∈ Host.getScriptFileNames host
               ∧ (f ∉ src_fileName <$> virtualFiles s)
               ∧ accepted languageModules host f = false) as Hremain.
  { intros f. rewrite Hremain4, Hremain3, Hremain2, Hremain1.
    rewrite !list_elem_of_filter. subst c0 names. cbn.
    rewrite StringFacts.elem_of_new_Set. unfold VirtualFiles.allSources.
    destruct (accepted languageModules host f).
    - split; [|by intros (_ & _ & [=])]. intros [Hnot Hin]. destruct Hnot. tauto.
    - split; [tauto|]. intros (? & ? & _). split; [|done]. by intros [_ [=]]. }
  assert (flag c5 = true ↔ flag c4 = true ∨ plain_file_added languageModules host s) as H5.
  { rewrite Hflag5. apply or_iff_compat_l.
    assert (∀ f, f ∈ remain c4 →
              (c_sourceTsFileVersions c4 !! f = None ↔ sourceTsFileVersions s !! f = None))
      as Hlookup.
    { intros f Hf. rewrite <- Hts, !eq_None_not_Some. apply not_iff_compat.
      subst c4. apply refresh_ts_file_fold_lookup.
      - by rewrite <- Hremain4.
      - intros v Hv. apply elem_of_map_to_list in Hv. by rewrite Hv. }
    split.
    - intros (f & Hf & Hnone). exists f. apply Hlookup in Hnone; [|done].
      apply Hremain in Hf. tauto.
    - intros (f & H1 & H2' & H3 & Hnone). exists f.
      assert (f ∈ remain c4) as Hf by (apply Hremain; tauto).
      split; [done|]. by apply Hlookup. }
  (* the generated units *)
  rewrite check_embedded_fold, orb_true_iff, H5, H4, H2.
  assert (existsb (λ source, existsb (snapshot_outdated (virtualFileVersions s))
                                     (forEachEmbeddedFile (src_root source)))
                  (VirtualFiles.allSources (c_virtualFiles c5)) = true
          ↔ unit_outdated s (c_virtualFiles c5)) as ->.
  { rewrite existsb_exists. unfold unit_outdated, VirtualFiles.allSources. split.
    - intros (source & Hsource & Hex). apply existsb_exists in Hex as (e & He & Hout).
      apply snapshot_outdated_true in Hout as (Hkind & version & Hv & Hne).
      exists source, e, version. rewrite !list_elem_of_In. done.
    - intros (source & e & version & Hsource & He & Hkind & Hv & Hne).
      exists source. split; [by apply list_elem_of_In|].
      apply existsb_exists. exists e. split; [by apply list_elem_of_In|].
      apply snapshot_outdated_true. eauto. }
  tauto.
Qed.

Lemma skipped_dec (s : State) : skipped host s ∨ ¬ skipped host s.
Proof.
  unfold skipped. destruct (Host.getProjectVersion host) as [v|].
  - destruct (decide (lastProjectVersion s = Some v)) as [?|Hne]; [left; eauto|].
    right. intros (v' & [= <-] & ?). done.
  - right. by intros (v' & [=] & _).
Qed.

(** A cycle that runs moves the counter by the flag it computes. *)
Lemma update_tsProjectVersion (s : State) :
  ¬ skipped host s →
  tsProjectVersion (update languageModules host s) =
    if (update_cycle languageModules host s).2 then (tsProjectVersion s + 1)%N
    else tsProjectVersion s.
Proof.
  unfold update, skipped. intros Hrun.
  destruct (Host.getProjectVersion host) as [v|] eqn:Hv; cbn [orb negb].
  - rewrite (bool_decide_eq_false_2 (Some v = None)) by done. cbn [orb].
    case_bool_decide as Hlast; cbn [negb].
    + by destruct (update_cycle languageModules host s) as [c []].
    + destruct Hrun. eauto.
  - rewrite (bool_decide_eq_true_2 (None = None)) by done. cbn.
    by destruct (update_cycle languageModules host s) as [c []].
Qed.

Lemma update_skipped (s : State) : skipped host s → update languageModules host s = s.
Proof.
  intros (v & Hv & Hlast). unfold update. rewrite Hv, Hlast.
  rewrite (bool_decide_eq_false_2 (Some v = None)) by done.
  rewrite (bool_decide_eq_false_2 (Some v ≠ Some v)) by (intros H; by apply H).
  cbn. rewrite <- Hlast. by destruct s.
Qed.

Lemma update_virtualFiles (s : State) :
  ¬ skipped host s →
  virtualFiles (update languageModules host s)
    = c_virtualFiles (update_cycle languageModules host s).1.
Proof.
  unfold update, skipped. intros Hrun.
  destruct (Host.getProjectVersion host) as [v|] eqn:Hv; cbn [orb negb].
  - rewrite (bool_decide_eq_false_2 (Some v = None)) by done. cbn [orb].
    case_bool_decide as Hlast; cbn [negb].
    + by destruct (update_cycle languageModules host s) as [c flag].
    + destruct Hrun. eauto.
  - rewrite (bool_decide_eq_true_2 (None = None)) by done. cbn.
    by destruct (update_cycle languageModules host s) as [c flag].
Qed.

(** C1, as amended: the counter increments at most once in an update cycle;
    the cycle is skipped, and the whole state left as it is, when the host
    reports the project version of the last cycle; a cycle that runs
    increments the counter exactly when a tracked document lost its snapshot,
    or no tracked document was deleted or refreshed (the file set then counts
    as changed, whatever the files are), or a tracked plain file has another
    version, or a root file of the host that is no document is not tracked
    yet, or an engine-visible unit has a Version Token recorded for another
    snapshot than its current one. *)
Theorem update_increments_project_version (s : State) :
  (tsProjectVersion (update languageModules host s) = tsProjectVersion s
   ∨ tsProjectVersion (update languageModules host s) = (tsProjectVersion s + 1)%N)
  ∧ (skipped host s → update languageModules host s = s)
  ∧ (¬ skipped host s →
     (tsProjectVersion (update languageModules host s) = (tsProjectVersion s + 1)%N ↔
        document_deleted host s ∨ no_document_changed host s ∨ plain_file_changed host s
        ∨ plain_file_added languageModules host s
        ∨ unit_outdated s (virtualFiles (update languageModules host s)))).
Proof.
  split; [|split].
  - destruct (skipped_dec s) as [Hskip|Hrun].
    + left. by rewrite update_skipped.
    + rewrite update_tsProjectVersion by done.
      destruct (update_cycle languageModules host s).2; [by right|by left].
  - apply update_skipped.
  - intros Hrun. rewrite update_virtualFiles, <- update_cycle_flag by done.
    rewrite update_tsProjectVersion by done.
    destruct (update_cycle languageModules host s).2; [done|]. split; [lia|done].
Qed.

End WithModules.

End UpdateFacts.

(** ** The program overlay *)
Module ProgramFacts.

Import Program.

Section WithCore.

Context {St : Type}.
Variable core : LanguageContext St.

Local Abbreviation transformRelated := (list Diagnostic → St → list Diagnostic * St).

(** The recursive equation of [transformDiagnostics]. *)
Lemma transformDiagnostic_eq (d : Diagnostic) (s : St) :
  transformDiagnostic core d s = transform_one core (transformDiagnostics core) d s.
Proof. destruct d; reflexivity. Qed.

Lemma transformDiagnostics_cons (d : Diagnostic) (ds : list Diagnostic) (s : St) :
  transformDiagnostics core (d :: ds) s =
    let '(r1, s1) := transform_one core (transformDiagnostics core) d s in
    let '(r2, s2) := transformDiagnostics core ds s1 in
    (r1 ++ r2, s2).
Proof. cbn [transformDiagnostics]. rewrite transformDiagnostic_eq. done. Qed.

Lemma transformDiagnostics_singleton (d : Diagnostic) (s : St) :
  transformDiagnostics core [d] s = transform_one core (transformDiagnostics core) d s.
Proof.
  rewrite transformDiagnostics_cons. cbn.
  destruct (transform_one _ _ d s) as [r1 s1]. by rewrite app_nil_r.
Qed.

(** The diagnostics of a list are translated one after the other. *)
Lemma transformDiagnostics_app (ds1 ds2 : list Diagnostic) (s : St) :
  transformDiagnostics core (ds1 ++ ds2) s =
    let '(r1, s1) := transformDiagnostics core ds1 s in
    let '(r2, s2) := transformDiagnostics core ds2 s1 in
    (r1 ++ r2, s2).
Proof.
  revert s. induction ds1 as [|d ds1 IH]; intros s.
  - cbn. by destruct (transformDiagnostics core ds2 s).
  - cbn [app transformDiagnostics].
    destruct (transformDiagnostic core d s) as [r1 s1]. rewrite IH.
    destruct (transformDiagnostics core ds1 s1) as [r2 s2].
    destruct (transformDiagnostics core ds2 s2) as [r3 s3].
    by rewrite app_assoc.
Qed.

(** What [onMapping] pushes. *)
Lemma onMapping_location (F : transformRelated) d fileName start_ end_ docText s :
  start (onMapping core F d fileName start_ end_ docText s).1 = Some start_
  ∧ length (onMapping core F d fileName start_ end_ docText s).1 = Some (end_ - start_).
Proof.
  unfold onMapping.
  destruct (match file d with Some f => _ | None => _ end) as [f0|];
    [|destruct docText as [text|];
      [|destruct (languageServiceHost_getScriptSnapshot core fileName s) as [? s']]].
  all: destruct (relatedInformation d) as [related|];
    [destruct (F related _) as [related' s2]|]; done.
Qed.

Lemma onMapping_file (F : transformRelated) d fileName start_ end_ text s :
  ∃ f', file (onMapping core F d fileName start_ end_ (Some text) s).1 = Some f'
        ∧ sf_fileName f' = fileName.
Proof.
  unfold onMapping. destruct (file d) as [f|].
  - destruct (String.eqb_spec fileName (sf_fileName f)) as [->|Hne].
    + exists f. destruct (relatedInformation d) as [related|];
        [destruct (F related _) as [related' s2]|]; done.
    + eexists. destruct (relatedInformation d) as [related|];
        [destruct (F related _) as [related' s2]|]; done.
  - eexists. destruct (relatedInformation d) as [related|];
      [destruct (F related _) as [related' s2]|]; done.
Qed.

Lemma first_diagnostic_Some candidates c :
  first_diagnostic candidates = Some c →
  c ∈ candidates ∧ diagnostic (data c.2) = true.
Proof.
  unfold first_diagnostic. intros H. split.
  - apply list_elem_of_In. by apply find_some in H as [? _].
  - by apply find_some in H as [_ ?].
Qed.

Lemma first_diagnostic_None candidates :
  first_diagnostic candidates = None ↔
  ∀ c, c ∈ candidates → diagnostic (data c.2) = false.
Proof.
  unfold first_diagnostic. split.
  - intros H c Hc. apply list_elem_of_In in Hc.
    apply (find_none _ _ H) in Hc. done.
  - intros H. destruct (find _ candidates) as [c|] eqn:Hfind; [|done].
    apply find_some in Hfind as [Hin Hd]. apply list_elem_of_In in Hin.
    rewrite (H c Hin) in Hd. done.
Qed.

Lemma map_diagnostic_mapped (F : transformRelated) d start_ length_ source maps all acc :
  (∀ m, m ∈ maps → m ∈ all) →
  Forall (mapped all source start_ length_) acc.1 →
  Forall (mapped all source start_ length_)
         (fold_left (map_diagnostic core F d start_ length_ source) maps acc).1.
Proof.
  revert acc. induction maps as [|[sourceFileName map] maps IH]; intros [result s] Hsub Hacc;
    [done|].
  cbn [fold_left]. apply IH; [intros m Hm; apply Hsub; by right|].
  unfold map_diagnostic.
  destruct (String.eqb_spec sourceFileName (src_fileName source)) as [->|Hne];
    cbn [negb]; [|done].
  destruct (first_diagnostic (toSourceOffsets map start_ false)) as [start'|] eqn:Hs;
    [|done].
  destruct (first_diagnostic (toSourceOffsets map (start_ + length_) true)) as [end'|] eqn:He;
    [|done].
  apply first_diagnostic_Some in Hs as [Hs1 Hs2].
  apply first_diagnostic_Some in He as [He1 He2].
  pose proof (onMapping_location F d (src_fileName source) start'.1 end'.1
                (Some (snapshot_text (src_snapshot source))) s) as [Hl1 Hl2].
  pose proof (onMapping_file F d (src_fileName source) start'.1 end'.1
                (snapshot_text (src_snapshot source)) s) as Hf.
  destruct (onMapping _ _ _ _ _ _ _ _) as [d' s'] eqn:Hon. cbn [fst] in *.
  apply Forall_app; split; [done|]. apply Forall_singleton.
  exists map, start', end'. repeat split; try done.
  apply Hsub. by left.
Qed.

Lemma map_diagnostic_unmapped (F : transformRelated) d start_ length_ source maps result s :
  (∀ map, (src_fileName source, map) ∈ maps →
     first_diagnostic (toSourceOffsets map start_ false) = None
     ∨ first_diagnostic (toSourceOffsets map (start_ + length_) true) = None) →
  (fold_left (map_diagnostic core F d start_ length_ source) maps (result, s)) = (result, s).
Proof.
  induction maps as [|[sourceFileName map] maps IH]; intros Hnone; [done|].
  cbn [fold_left]. unfold map_diagnostic at 2.
  destruct (String.eqb_spec sourceFileName (src_fileName source)) as [->|Hne]; cbn [negb].
  - destruct (Hnone map) as [->| ->]; [by left| |].
    + apply IH. intros m Hm. apply Hnone. by right.
    + destruct (first_diagnostic (toSourceOffsets map start_ false));
        apply IH; intros m Hm; apply Hnone; by right.
  - apply IH. intros m Hm. apply Hnone. by right.
Qed.

(** The three cases of one turn of the loop of [transformDiagnostics]. *)
Lemma transform_one_located (F : transformRelated) d s d' :
  d' ∈ (transform_one core F d s).1 →
  (d' = d ∧ file d = None) ∨ (is_Some (start d') ∧ is_Some (length d')).
Proof.
  unfold transform_one.
  destruct (file d) as [f|] eqn:Hf; [|intros ->%list_elem_of_singleton; by left].
  destruct (start d) as [start_|]; [|by intros ?%elem_of_nil].
  destruct (length d) as [length_|]; [|by intros ?%elem_of_nil].
  destruct (virtualFiles_getVirtualFile core (sf_fileName f) s) as [[[virtualFile source]|] s1].
  - destruct (languageServiceHost_fileExists core (src_fileName source) s1) as [exists_ s2].
    destruct (virtualFiles_getMaps core virtualFile s2) as [maps s3] eqn:Hmaps.
    assert (d' ∈ (fold_left (map_diagnostic core F d start_ length_ source) maps ([], s3)).1 →
            is_Some (start d') ∧ is_Some (length d')) as Hfold.
    { intros Hin.
      pose proof (map_diagnostic_mapped F d start_ length_ source maps maps ([], s3)
                    (λ _ H, H) (Forall_nil_2 _)) as Hall.
      rewrite Forall_forall in Hall.
      destruct (Hall d' Hin) as (? & ? & ? & _ & _ & _ & _ & _ & -> & -> & _). done. }
    destruct exists_ as [[|]|]; cbn; intros Hin; try (right; by apply Hfold).
    by apply elem_of_nil in Hin.
  - destruct (languageServiceHost_fileExists core (sf_fileName f) s1) as [exists_ s2].
    pose proof (onMapping_location F d (sf_fileName f) start_ (start_ + length_)
                  (Some (sf_text f)) s2) as [Hl1 Hl2].
    destruct (onMapping _ _ _ _ _ _ _ _) as [d0 s3]. cbn [fst] in *.
    destruct exists_ as [[|]|]; cbn; intros Hin;
      try (apply list_elem_of_singleton in Hin as ->; right; rewrite Hl1, Hl2; done).
    by apply elem_of_nil in Hin.
Qed.

Lemma transformDiagnostics_elem (ds : list Diagnostic) (s : St) d' :
  d' ∈ (transformDiagnostics core ds s).1 →
  (d' ∈ ds ∧ file d' = None) ∨ (is_Some (start d') ∧ is_Some (length d')).
Proof.
  revert s. induction ds as [|d ds IH]; intros s; [by intros ?%elem_of_nil|].
  rewrite transformDiagnostics_cons.
  destruct (transform_one _ _ d s) as [r1 s1] eqn:H1.
  destruct (transformDiagnostics core ds s1) as [r2 s2] eqn:H2. cbn [fst].
  intros [Hin|Hin]%elem_of_app.
  - pose proof (transform_one_located (transformDiagnostics core) d s d') as Hloc.
    rewrite H1 in Hloc. destruct (Hloc Hin) as [[-> ?]|?]; [left|by right].
    split; [by left|done].
  - specialize (IH s1 ). rewrite H2 in IH. destruct (IH Hin) as [[? ?]|?]; [left|by right].
    split; [by right|done].
Qed.

Lemma transform_one_no_file (F : transformRelated) d s :
  file d = None → transform_one core F d s = ([d], s).
Proof. unfold transform_one. by intros ->. Qed.

Lemma transform_one_no_location (F : transformRelated) d s :
  is_Some (file d) → start d = None ∨ length d = None →
  transform_one core F d s = ([], s).
Proof.
  unfold transform_one. intros [f ->] [-> | ->]; [done|]. by destruct (start d).
Qed.

(** C10: no diagnostic of the output of [transformDiagnostics] carries a file
    and lacks a start or a length, so a diagnostic with a file and without a
    start or a length is dropped whatever the input (translating it alone
    gives the empty list and leaves the context untouched); a diagnostic with
    no file at all is passed through unchanged. *)
Theorem transformDiagnostics_drops_unlocated (ds : list Diagnostic) (s : St) :
  (∀ d', d' ∈ (transformDiagnostics core ds s).1 →
         is_Some (file d') → is_Some (start d') ∧ is_Some (length d'))
  ∧ (∀ d, is_Some (file d) → start d = None ∨ length d = None →
          transformDiagnostics core [d] s = ([], s))
  ∧ (∀ d, d ∈ ds → file d = None → d ∈ (transformDiagnostics core ds s).1).
Proof.
  split; [|split].
  - intros d' Hin [f Hf].
    destruct (transformDiagnostics_elem ds s d' Hin) as [[_ Hnone]|?]; [congruence|done].
  - intros d Hf Hloc. rewrite transformDiagnostics_singleton.
    by apply transform_one_no_location.
  - revert s. induction ds as [|d0 ds IH]; intros s d Hin Hf; [by apply elem_of_nil in Hin|].
    rewrite transformDiagnostics_cons.
    destruct (transform_one _ _ d0 s) as [r1 s1] eqn:H1.
    destruct (transformDiagnostics core ds s1) as [r2 s2] eqn:H2. cbn [fst].
    apply elem_of_app. apply elem_of_cons in Hin as [->|Hin].
    + left. rewrite transform_one_no_file in H1 by done. inversion H1. by left.
    + right. specialize (IH s1 d Hin Hf). by rewrite H2 in IH.
Qed.

(** C2: a diagnostic whose file resolves to a generated unit is translated, in
    the state where its turn comes, through the mapping views of the unit that
    target the owning document.  Every diagnostic the translation emits for
    it sits at source offsets taken from a range with the diagnostic
    capability that matches its start and one that matches its end
    (end-inclusive lookup), in a file named as the owning document; when, for
    every such view, no capable range matches the start or none matches the
    end, nothing is emitted for it. *)
Theorem transformDiagnostics_requires_capable_mapping
    (d : Diagnostic) (f : SourceFile) (start_ length_ : Z) (s s1 : St)
    (virtualFile : VirtualFile) (source : Source) :
  file d = Some f → start d = Some start_ → length d = Some length_ →
  virtualFiles_getVirtualFile core (sf_fileName f) s = (Some (virtualFile, source), s1) →
  let exists_ := (languageServiceHost_fileExists core (src_fileName source) s1).1 in
  let s2 := (languageServiceHost_fileExists core (src_fileName source) s1).2 in
  let maps := (virtualFiles_getMaps core virtualFile s2).1 in
  (∀ d', d' ∈ (transformDiagnostics core [d] s).1 →
         exists_ ≠ Some false ∧ mapped maps source start_ length_ d')
  ∧ ((∀ map, (src_fileName source, map) ∈ maps →
        (∀ c, c ∈ toSourceOffsets map start_ false → diagnostic (data c.2) = false)
        ∨ (∀ c, c ∈ toSourceOffsets map (start_ + length_) true →
                diagnostic (data c.2) = false)) →
     (transformDiagnostics core [d] s).1 = []).
Proof.
  intros Hf Hs Hl Hv exists_ s2 maps. subst exists_ s2 maps.
  rewrite transformDiagnostics_singleton. unfold transform_one.
  rewrite Hf, Hs, Hl, Hv.
  destruct (languageServiceHost_fileExists core (src_fileName source) s1) as [exists_ s2].
  cbn [fst snd].
  destruct (virtualFiles_getMaps core virtualFile s2) as [maps s3]. cbn [fst].
  split.
  - intros d' Hin.
    assert (d' ∈ (fold_left (map_diagnostic core (transformDiagnostics core) d start_ length_ source)
                    maps ([], s3)).1 → mapped maps source start_ length_ d') as Hfold.
    { intros Hin'.
      pose proof (map_diagnostic_mapped (transformDiagnostics core) d start_ length_ source
                    maps maps ([], s3) (λ _ H, H) (Forall_nil_2 _)) as Hall.
      rewrite Forall_forall in Hall. by apply Hall. }
    destruct exists_ as [[|]|]; cbn in Hin; try (split; [done|by apply Hfold]).
    by apply elem_of_nil in Hin.
  - intros Hnone.
    assert (fold_left (map_diagnostic core (transformDiagnostics core) d start_ length_ source)
              maps ([], s3) = ([], s3)) as ->.
    { apply map_diagnostic_unmapped. intros map Hmap.
      destruct (Hnone map Hmap) as [H|H]; [left|right]; by apply first_diagnostic_None. }
    by destruct exists_ as [[|]|].
Qed.

(** [getRootFileNames] probes the root names in order; the name at any
    position is kept exactly when its own probe answers true. *)
Lemma filter_fileExists_app (names1 names2 : list string) (s : St) :
  filter_fileExists core (names1 ++ names2) s =
    let '(kept1, s1) := filter_fileExists core names1 s in
    let '(kept2, s2) := filter_fileExists core names2 s1 in
    (kept1 ++ kept2, s2).
Proof.
  revert s. induction names1 as [|n names1 IH]; intros s.
  - cbn. by destruct (filter_fileExists core names2 s).
  - cbn [app filter_fileExists].
    destruct (languageServiceHost_fileExists core n s) as [e s1]. rewrite IH.
    destruct (filter_fileExists core names1 s1) as [k1 s2].
    destruct (filter_fileExists core names2 s2) as [k2 s3].
    by destruct e as [[|]|].
Qed.

Lemma filter_fileExists_sublist (names : list string) (s : St) :
  (filter_fileExists core names s).1 `sublist_of` names.
Proof.
  revert s. induction names as [|n names IH]; intros s; [done|].
  cbn [filter_fileExists].
  destruct (languageServiceHost_fileExists core n s) as [e s1].
  specialize (IH s1). destruct (filter_fileExists core names s1) as [k s2].
  destruct e as [[|]|]; cbn in *; by constructor.
Qed.

(** When probing changes nothing and answers by [exists_], [getRootFileNames]
    is the plain filter. *)
Lemma getRootFileNames_pure (exists_ : string → option bool) (names : list string) (s : St) :
  (∀ fileName s', languageServiceHost_fileExists core fileName s' = (exists_ fileName, s')) →
  getRootFileNames core names s
    = (filter (λ fileName, exists_ fileName = Some true) names, s).
Proof.
  intros Hpure. unfold getRootFileNames.
  induction names as [|n names IH]; [done|].
  cbn [filter_fileExists]. rewrite Hpure, IH. rewrite filter_cons.
  destruct (exists_ n) as [[|]|]; by case_decide.
Qed.

(** C8: [getRootFileNames] answers a sublist of the program's root file
    names; the root name at any position is in the answer exactly when the
    host view's [fileExists], called on it in its turn, answers true: the
    answer is what was kept of the names before it, then the name itself if
    its probe is true and nothing if it is false or undefined, then what is
    kept of the names after it. *)
Theorem getRootFileNames_filters_existing (before after : list string)
    (fileName : string) (s : St) :
  let '(kept_before, s1) := filter_fileExists core before s in
  let '(exists_, s2) := languageServiceHost_fileExists core fileName s1 in
  let '(kept_after, s3) := filter_fileExists core after s2 in
  getRootFileNames core (before ++ fileName :: after) s =
    (kept_before ++ (if bool_decide (exists_ = Some true) then [fileName] else [])
       ++ kept_after, s3)
  ∧ (getRootFileNames core (before ++ fileName :: after) s).1
      `sublist_of` (before ++ fileName :: after).
Proof.
  pose proof (filter_fileExists_sublist (before ++ fileName :: after) s) as Hsub.
  unfold getRootFileNames in *.
  rewrite filter_fileExists_app in *. cbn [filter_fileExists] in *.
  destruct (filter_fileExists core before s) as [k1 s1].
  destruct (languageServiceHost_fileExists core fileName s1) as [e s2].
  destruct (filter_fileExists core after s2) as [k2 s3].
  split; [|done]. by destruct e as [[|]|].
Qed.

End WithCore.

End ProgramFacts.

(** ** The comparator of configurations *)
Module WorkspaceFacts.

Import Workspace.

Section Comparator.

Variable dirname : string → string.
Variable basename : string → string.
Variable isFileInDir : string → string → bool.

Lemma weight_diff_neg (x y : bool) : weight y - weight x < 0 ↔ x = true ∧ y = false.
Proof. destruct x, y; cbn; split; try lia; intros [? ?]; congruence. Qed.

Lemma weight_eqb_neg (x y t : string) :
  weight (String.eqb y t) - weight (String.eqb x t) < 0 ↔ x = t ∧ y ≠ t.
Proof.
  rewrite weight_diff_neg, String.eqb_eq, String.eqb_neq. done.
Qed.

(** C5: [sortTsConfigs file a b] is negative, so [a] is ordered strictly before
    [b], exactly when [a]'s directory contains the file and [b]'s does not;
    or, on a tie there, [a] has more path segments than [b]; or, on a further
    tie, [a]'s base name is [tsconfig.json] and [b]'s is not. *)
Theorem sortTsConfigs_before (file a b : string) :
  sortTsConfigs dirname basename isFileInDir file a b < 0 ↔
    (isFileInDir file (dirname a) = true ∧ isFileInDir file (dirname b) = false)
    ∨ (isFileInDir file (dirname a) = isFileInDir file (dirname b)
       ∧ split_length b < split_length a)
    ∨ (isFileInDir file (dirname a) = isFileInDir file (dirname b)
       ∧ split_length a = split_length b
       ∧ basename a = "tsconfig.json" ∧ basename b ≠ "tsconfig.json").
Proof.
  unfold sortTsConfigs.
  destruct (isFileInDir file (dirname a)) eqn:HA,
           (isFileInDir file (dirname b)) eqn:HB; cbn [Bool.eqb negb].
  2: { cbn. split; [intros _; left; done | lia]. }
  2: { cbn. split; [lia | intros [[? ?]|[[? ?]|[? ?]]]; congruence]. }
  all: destruct (Z.eqb_spec (split_length a) (split_length b)) as [Heq|Hne].
  all: rewrite ?weight_eqb_neg.
  all: split; [ intros H | intros [[? ?]|[[? ?]|(? & ? & ? & ?)]] ];
    try congruence; try lia; try tauto.
  all: try (right; right; tauto); try (right; left; split; [done | lia]).
Qed.

End Comparator.

(** ** The reference chains *)

Lemma indexOf_None (l : list string) (x : string) : indexOf l x = None ↔ x ∉ l.
Proof.
  induction l as [|y l IH]; cbn.
  - split; [intros _; apply not_elem_of_nil|done].
  - rewrite not_elem_of_cons, <- IH.
    destruct (String.eqb_spec y x) as [->|Hne].
    + split; [done|]. by intros [? _].
    + destruct (indexOf l x); cbn; split; try done; try (by intros [_ ?]).
Qed.

Section Chains.

Variable join : string → string → string.
Variable sys_fileExists : option (string → bool).
Variable configs : gmap string ParsedCommandLine.

Local Abbreviation chains := (getReferencesChains join sys_fileExists configs).
Local Abbreviation follow := (follow_reference join sys_fileExists configs).
Local Abbreviation resolve := (resolve_reference join sys_fileExists).
Local Abbreviation measure := (chain_measure configs).
Local Abbreviation distinct_configs := (Workspace.distinct_configs configs).

Lemma follow_reference_None recurse tsConfig before references :
  fold_left (follow recurse tsConfig before) references None = None.
Proof. induction references as [|r references IH]; [done|]. cbn. exact IH. Qed.

(** One step down the reference graph lowers the measure. *)
Lemma chain_measure_step (before : list string) (tsConfig tsConfigPath : string) :
  tsConfigPath ∉ before → is_Some (configs !! tsConfigPath) →
  (measure (before ++ [tsConfig]) tsConfigPath < measure before tsConfig)%nat.
Proof.
  intros Hnew Hconfig. unfold chain_measure.
  rewrite list_to_set_app_L, list_to_set_singleton.
  destruct (decide (tsConfigPath = tsConfig)) as [->|Hne].
  - rewrite (bool_decide_eq_true_2 (tsConfig ∈ before ++ [tsConfig]))
      by (apply elem_of_app; right; by left).
    rewrite (bool_decide_eq_false_2 (tsConfig ∈ before)) by done.
    replace (list_to_set before ∪ {[tsConfig]} ∪ {[tsConfig]} : gset string)
      with (list_to_set before ∪ {[tsConfig]} : gset string) by set_solver.
    lia.
  - assert (tsConfigPath ∈ (dom configs ∖ (list_to_set before ∪ {[tsConfig]}) : gset string))
      as Hin.
    { apply elem_of_difference. split; [by apply elem_of_dom|].
      rewrite elem_of_union, elem_of_list_to_set, elem_of_singleton. tauto. }
    replace (dom configs ∖ (list_to_set before ∪ {[tsConfig]} ∪ {[tsConfigPath]}) : gset string)
      with ((dom configs ∖ (list_to_set before ∪ {[tsConfig]})) ∖ {[tsConfigPath]} : gset string)
      by set_solver.
    rewrite size_difference by (by apply singleton_subseteq_l).
    rewrite size_singleton.
    assert (size (dom configs ∖ (list_to_set before ∪ {[tsConfig]}) : gset string) ≠ 0%nat)
      as Hpos.
    { intros Hzero. apply size_empty_inv in Hzero. set_solver. }
    do 2 case_bool_decide; lia.
Qed.

(** With fuel above the measure the traversal returns. *)
Lemma getReferencesChains_enough_fuel (fuel : nat) parsedCommandLine tsConfig before :
  (measure before tsConfig < fuel)%nat →
  is_Some (chains fuel parsedCommandLine tsConfig before).
Proof.
  revert parsedCommandLine tsConfig before.
  induction fuel as [|fuel IH]; intros pcl tsConfig before Hfuel; [lia|].
  cbn [getReferencesChains].
  destruct (projectReferences pcl) as [[|r references]|]; [done| |done].
  generalize (r :: references). clear r references. intros references.
  assert (∀ acc, is_Some acc →
            is_Some (fold_left (follow (chains fuel) tsConfig before) references acc))
    as Hfold; [|by apply Hfold].
  induction references as [|r references IHr]; intros acc Hacc; [done|].
  cbn [fold_left]. apply IHr. destruct Hacc as [newChains ->].
  unfold follow_reference.
  destruct (indexOf before (resolve r)) as [i|] eqn:Hindex; [done|].
  apply indexOf_None in Hindex.
  unfold getParsedCommandLine.
  destruct (configs !! resolve r) as [rpcl|] eqn:Hconfig; [|done].
  destruct (IH rpcl (resolve r) (before ++ [tsConfig])) as [found ->]; [|done].
  pose proof (chain_measure_step before tsConfig (resolve r) Hindex) as Hstep.
  rewrite Hconfig in Hstep. specialize (Hstep (mk_is_Some _ _ eq_refl)). lia.
Qed.

Lemma follow_reference_mono (recurse recurse' : _ → _ → _ → option (list (list string)))
    tsConfig before references acc result :
  (∀ pcl t b r, recurse pcl t b = Some r → recurse' pcl t b = Some r) →
  fold_left (follow recurse tsConfig before) references acc = Some result →
  fold_left (follow recurse' tsConfig before) references acc = Some result.
Proof.
  intros Hmono. revert acc.
  induction references as [|r references IH]; intros acc; [done|].
  cbn [fold_left]. intros Hfold.
  destruct (follow recurse tsConfig before acc r) as [next|] eqn:Hstep;
    [|by rewrite follow_reference_None in Hfold].
  assert (follow recurse' tsConfig before acc r = Some next) as ->; [|by apply IH].
  unfold follow_reference in *. destruct acc as [newChains|]; [|done].
  destruct (indexOf before (resolve r)); [done|].
  destruct (getParsedCommandLine configs (resolve r)) as [rpcl|]; [|done].
  destruct (recurse rpcl (resolve r) (before ++ [tsConfig])) as [found|] eqn:Hrec; [|done].
  by rewrite (Hmono _ _ _ _ Hrec).
Qed.

(** More fuel does not change what the traversal returns. *)
Lemma getReferencesChains_more_fuel (fuel fuel' : nat) parsedCommandLine tsConfig before
    result :
  (fuel ≤ fuel')%nat →
  chains fuel parsedCommandLine tsConfig before = Some result →
  chains fuel' parsedCommandLine tsConfig before = Some result.
Proof.
  revert fuel' parsedCommandLine tsConfig before result.
  induction fuel as [|fuel IH]; intros fuel' pcl tsConfig before result Hle; [done|].
  destruct fuel' as [|fuel']; [lia|]. cbn [getReferencesChains].
  destruct (projectReferences pcl) as [[|r references]|]; [done| |done].
  apply follow_reference_mono. intros pcl' t b r' Hrec. apply (IH fuel'); [lia|done].
Qed.

Lemma chain_measure_bound (tsConfig : string) :
  (measure [] tsConfig ≤ 2 * size configs + 1)%nat.
Proof.
  unfold chain_measure. rewrite <- (size_dom (D := gset string)).
  assert (size (dom configs ∖ (list_to_set [] ∪ {[tsConfig]}) : gset string)
          ≤ size (dom configs : gset string))%nat
    by (apply subseteq_size; set_solver).
  case_bool_decide; lia.
Qed.

Lemma getReferencesChains_returns parsedCommandLine tsConfig :
  ∃ result, ∀ fuel, (2 * size configs + 2 ≤ fuel)%nat →
    chains fuel parsedCommandLine tsConfig [] = Some result.
Proof.
  destruct (getReferencesChains_enough_fuel (2 * size configs + 2) parsedCommandLine
              tsConfig []) as [result Hresult].
  { pose proof (chain_measure_bound tsConfig). lia. }
  exists result. intros fuel Hfuel.
  by apply (getReferencesChains_more_fuel (2 * size configs + 2)).
Qed.

(** X1: the traversal of a finite table of configurations terminates, cycles
    or not: from a fuel of twice the size of the table plus two on, it
    returns, and always the same chains. *)
Theorem getReferencesChains_terminates parsedCommandLine tsConfig :
  ∃ result, ∀ fuel, (2 * size configs + 2 ≤ fuel)%nat →
    getReferencesChains join sys_fileExists configs fuel parsedCommandLine tsConfig []
      = Some result.
Proof. apply getReferencesChains_returns. Qed.

Lemma distinct_configs_length (chain : list string) :
  distinct_configs chain → (List.length chain ≤ size configs)%nat.
Proof.
  intros [Hnodup Hin].
  rewrite <- (size_dom (D := gset string)),
          <- (size_list_to_set (C := gset string) chain) by done.
  apply subseteq_size. intros x Hx. apply elem_of_list_to_set in Hx.
  by apply elem_of_dom, Hin.
Qed.

Lemma follow_reference_distinct recurse tsConfig before references acc result :
  no_self_reference join sys_fileExists configs →
  distinct_configs (before ++ [tsConfig]) →
  (∀ r, r ∈ references → resolve r ≠ tsConfig) →
  (∀ pcl t found, configs !! t = Some pcl → distinct_configs ((before ++ [tsConfig]) ++ [t]) →
     recurse pcl t (before ++ [tsConfig]) = Some found → Forall distinct_configs found) →
  (∀ newChains, acc = Some newChains → Forall distinct_configs newChains) →
  fold_left (follow recurse tsConfig before) references acc = Some result →
  Forall distinct_configs result.
Proof.
  intros Hself [Hnodup Hin] Hrefs Hrec. revert acc.
  induction references as [|r references IH]; intros acc Hacc; cbn [fold_left].
  - intros ->. by apply Hacc.
  - intros Hfold. apply (IH (λ r' Hr', Hrefs r' (list_elem_of_further _ _ _ Hr')) _)
      in Hfold; [done|].
    intros next Hnext. unfold follow_reference in Hnext.
    destruct acc as [newChains|]; [|done]. specialize (Hacc newChains eq_refl).
    destruct (indexOf before (resolve r)) as [i|] eqn:Hindex.
    + injection Hnext as <-. apply Forall_app. split; [done|]. apply Forall_singleton.
      apply NoDup_app in Hnodup as (Hbefore & _ & _). split.
      * exact (sublist_NoDup _ _ Hbefore (sublist_take before _)).
      * intros x Hx. apply Hin, elem_of_app. left. by apply (subseteq_take _ _ _ Hx).
    + apply indexOf_None in Hindex. unfold getParsedCommandLine in Hnext.
      destruct (configs !! resolve r) as [rpcl|] eqn:Hconfig; [|by injection Hnext as <-].
      destruct (recurse rpcl (resolve r) (before ++ [tsConfig])) as [found|] eqn:Hfound;
        [|done].
      injection Hnext as <-. apply Forall_app. split; [done|].
      apply (Hrec rpcl (resolve r) found Hconfig); [|done]. split.
      * apply NoDup_app. split; [done|]. split; [|apply NoDup_singleton].
        intros x Hx Heq. apply list_elem_of_singleton in Heq as ->.
        apply elem_of_app in Hx as [Hx|Hx]; [done|].
        apply list_elem_of_singleton in Hx. apply (Hrefs r); [by left|done].
      * intros x Hx. apply elem_of_app in Hx as [Hx|Hx]; [by apply Hin|].
        apply list_elem_of_singleton in Hx as ->. by rewrite Hconfig.
Qed.

(** When no configuration references itself, the chains are made of distinct
    configurations of the table. *)
Lemma getReferencesChains_distinct (fuel : nat) parsedCommandLine tsConfig before result :
  no_self_reference join sys_fileExists configs →
  configs !! tsConfig = Some parsedCommandLine →
  distinct_configs (before ++ [tsConfig]) →
  chains fuel parsedCommandLine tsConfig before = Some result →
  Forall distinct_configs result.
Proof.
  intros Hself. revert parsedCommandLine tsConfig before result.
  induction fuel as [|fuel IH]; intros pcl tsConfig before result Hconfig Hdistinct; [done|].
  cbn [getReferencesChains].
  destruct (projectReferences pcl) as [[|r references]|] eqn:Hrefs;
    [by intros [= <-]; apply Forall_singleton| |by intros [= <-]; apply Forall_singleton].
  apply follow_reference_distinct; try done.
  - intros r' Hr'. by apply (Hself tsConfig pcl (r :: references)).
  - intros rpcl t found Ht Hd Hfound. by apply (IH rpcl t (before ++ [tsConfig])).
  - by intros newChains [= <-].
Qed.

(** X2: on a table where no configuration references itself, the traversal
    from a configuration of the table returns, and every chain it returns has
    no repeated configuration and is no longer than the table. *)
Theorem getReferencesChains_cycle_safe parsedCommandLine tsConfig :
  no_self_reference join sys_fileExists configs →
  configs !! tsConfig = Some parsedCommandLine →
  ∃ result,
    (∀ fuel, (2 * size configs + 2 ≤ fuel)%nat →
       getReferencesChains join sys_fileExists configs fuel parsedCommandLine tsConfig []
         = Some result)
    ∧ ∀ chain, chain ∈ result →
        NoDup chain ∧ (List.length chain ≤ size configs)%nat.
Proof.
  intros Hself Hconfig.
  destruct (getReferencesChains_returns parsedCommandLine tsConfig) as [result Hresult].
  exists result. split; [done|]. intros chain Hchain.
  assert (Forall distinct_configs result) as Hall.
  { apply (getReferencesChains_distinct (2 * size configs + 2) parsedCommandLine tsConfig []);
      [done|done| |by apply Hresult].
    split; [apply NoDup_singleton|]. intros x Hx.
    apply list_elem_of_singleton in Hx as ->. by rewrite Hconfig. }
  rewrite Forall_forall in Hall. specialize (Hall chain Hchain).
  split; [apply Hall|by apply distinct_configs_length].
Qed.

End Chains.

End WorkspaceFacts.

(** ** Writing the generated files *)
Module CustomFeaturesFacts.

Import CustomFeatures.

Section WithCore.

Context {St : Type}.
Variable host : LanguageServiceHost.
Variable core : LanguageContext St.

Lemma write_virtual_file_writable (names all : list string) acc :
  (∀ n, n ∈ names → n ∈ all) →
  Forall (writable host core all) acc.1 →
  Forall (writable host core all)
    (fold_left (write_virtual_file host core (new_Set (Host.getScriptFileNames host)))
               names acc).1.
Proof.
  revert acc. induction names as [|n names IH]; intros [written s] Hsub Hacc; [done|].
  cbn [fold_left]. apply IH; [intros m Hm; apply Hsub; by right|].
  unfold write_virtual_file.
  destruct (startsWith n (Host.getCurrentDirectory host)) eqn:Hcwd; cbn [andb]; [|done].
  rewrite StringFacts.set_has_new_Set.
  case_bool_decide as Hsource; cbn [negb]; [done|].
  destruct (languageServiceHost_getScriptSnapshot core n s) as [[snap|] s1] eqn:Hsnap;
    [|done].
  cbn [fst] in *. apply Forall_app. split; [done|]. apply Forall_singleton.
  repeat split; cbn [fst snd]; try done.
  - apply Hsub. by left.
  - exists s, snap. by rewrite Hsnap.
Qed.

(** C9: every file the handler writes has a path outside the host's
    [getScriptFileNames]; it is one of the names of the derived host view,
    under the current directory, and the text written is that of the snapshot
    the derived host view gave for it.  So a name the host reports as a source
    document is skipped, and a name without a snapshot is not written. *)
Theorem writeVirtualFiles_skips_sources (s : St) (path text : string) :
  (path, text) ∈ (writeVirtualFiles host core s).1 →
  (path ∉ Host.getScriptFileNames host)
  ∧ startsWith path (Host.getCurrentDirectory host) = true
  ∧ path ∈ (languageServiceHost_getScriptFileNames core s).1
  ∧ ∃ s' snapshot,
      (languageServiceHost_getScriptSnapshot core path s').1 = Some snapshot
      ∧ text = snapshot_text snapshot.
Proof.
  unfold writeVirtualFiles.
  destruct (languageServiceHost_getScriptFileNames core s) as [names s1]. cbn [fst].
  intros Hin.
  pose proof (write_virtual_file_writable names names ([], s1) (λ _ H, H) (Forall_nil_2 _))
    as Hall.
  rewrite Forall_forall in Hall. exact (Hall _ Hin).
Qed.

End WithCore.

End CustomFeaturesFacts.

(** ** The properties at work on the small project *)
Module Witnesses.

Import Examples.

(** C1, the claim as stated fails: between the second and the third cycle the
    host moves its project version and nothing else; the engine sees the same
    files with the same versions, the store and the version tables are the
    same, and yet the Project Version goes from 1 to 2. *)
Lemma update_increments_without_change :
  engineView (host (Some "3")) reloaded_again = engineView (host (Some "2")) reloaded
  ∧ Core.virtualFiles reloaded_again = Core.virtualFiles reloaded
  ∧ Core.sourceTsFileVersions reloaded_again = Core.sourceTsFileVersions reloaded
  ∧ Core.sourceFileVersions reloaded_again = Core.sourceFileVersions reloaded
  ∧ Core.tsProjectVersion reloaded = 1%N
  ∧ Core.tsProjectVersion reloaded_again = 2%N.
Proof. vm_compute. repeat split. Qed.

(** C4, the failing input: a configuration that references itself and a leaf.
    The second chain repeats the configuration and is longer than the two
    distinct configurations. *)
Lemma getReferencesChains_self_reference :
  Workspace.getReferencesChains join None selfConfigs 3 selfParsed selfConfig []
  = Some [ [selfConfig];
           [selfConfig; selfConfig; leafConfig];
           [selfConfig; leafConfig] ].
Proof. vm_compute. reflexivity. Qed.

(** The mutual reference of the spec: one chain, of one configuration. *)
Lemma getReferencesChains_mutual :
  Workspace.getReferencesChains join None mutualConfigs 3
    (Workspace.mkParsedCommandLine (Some ["/b/tsconfig.json"])) "/a/tsconfig.json" []
  = Some [ ["/a/tsconfig.json"] ].
Proof. vm_compute. reflexivity. Qed.

Lemma mutualConfigs_no_self_reference :
  Workspace.no_self_reference join None mutualConfigs.
Proof.
  intros tsConfig pcl references r Hconfig Hrefs Hr. unfold mutualConfigs in Hconfig.
  apply lookup_insert_Some in Hconfig as [[<- <-]|[_ Hconfig]].
  - injection Hrefs as <-. apply list_elem_of_singleton in Hr as ->. by vm_compute.
  - apply lookup_insert_Some in Hconfig as [[<- <-]|[_ Hconfig]]; [|done].
    injection Hrefs as <-. apply list_elem_of_singleton in Hr as ->. by vm_compute.
Qed.

(** The cycle-safe traversal at work on the mutual reference. *)
Lemma getReferencesChains_cycle_safe_witness :
  ∃ result,
    (∀ fuel, (2 * size mutualConfigs + 2 ≤ fuel)%nat →
       Workspace.getReferencesChains join None mutualConfigs fuel
         (Workspace.mkParsedCommandLine (Some ["/b/tsconfig.json"])) "/a/tsconfig.json" []
       = Some result)
    ∧ ∀ chain, chain ∈ result →
        NoDup chain ∧ (List.length chain ≤ size mutualConfigs)%nat.
Proof.
  exact (WorkspaceFacts.getReferencesChains_cycle_safe join None mutualConfigs
           (Workspace.mkParsedCommandLine (Some ["/b/tsconfig.json"])) "/a/tsconfig.json"
           mutualConfigs_no_self_reference eq_refl).
Defined.

(** The comparator at work: the deeper configuration first, then the
    canonical name, and a configuration above the file before one beside it. *)
Example sortTsConfigs_examples :
  Workspace.sortTsConfigs dirname basename isFileInDir
    "/app/src/a.ts" "/app/src/tsconfig.json" "/app/tsconfig.json" = -1
  ∧ Workspace.sortTsConfigs dirname basename isFileInDir
      "/app/src/a.ts" "/app/jsconfig.json" "/app/tsconfig.json" = 1
  ∧ Workspace.sortTsConfigs dirname basename isFileInDir
      "/app/src/a.ts" "/app/tsconfig.json" "/lib/deep/tsconfig.json" = -1.
Proof. vm_compute. repeat split. Qed.

Lemma getVirtualFile_appUnit :
  virtualFiles_getVirtualFile (core (Some "1")) "/src/App.vue.ts" loaded
  = (Some (appUnit, appSource), loaded).
Proof. vm_compute. reflexivity. Qed.

(** C2 at work: the diagnostic inside the capable range is emitted at source
    offsets 12..13. *)
Lemma transformDiagnostics_requires_capable_mapping_witness :
  Program.file mappedDiagnostic = Some appTs
  ∧ Program.start mappedDiagnostic = Some 4
  ∧ Program.length mappedDiagnostic = Some 1
  ∧ ∀ d', d' ∈ (Program.transformDiagnostics (core (Some "1")) [mappedDiagnostic] loaded).1 →
      Program.mapped
        (virtualFiles_getMaps (core (Some "1")) appUnit
           (languageServiceHost_fileExists (core (Some "1")) "/src/App.vue" loaded).2).1
        appSource 4 1 d'.
Proof.
  repeat split.
  intros d' Hd'.
  exact (proj2 (proj1 (ProgramFacts.transformDiagnostics_requires_capable_mapping
                  (core (Some "1")) mappedDiagnostic appTs 4 1 loaded loaded appUnit appSource
                  eq_refl eq_refl eq_refl getVirtualFile_appUnit) d' Hd')).
Defined.


(** C3 at work: two calls in a row on the generated unit. *)
Lemma getScriptVersion_token_witness :
  ∃ token token' : N,
    (Core.getScriptVersion (host (Some "1")) "/src/App.vue.ts" loaded).1 = pretty token
    ∧ (Core.getScriptVersion (host (Some "1")) "/src/App.vue.ts"
         (Core.getScriptVersion (host (Some "1")) "/src/App.vue.ts" loaded).2).1
      = pretty token'
    ∧ token' = token.
Proof.
  destruct (CoreFacts.getScriptVersion_token (host (Some "1")) (host (Some "1"))
              "/src/App.vue.ts" loaded
              (Core.getScriptVersion (host (Some "1")) "/src/App.vue.ts" loaded).2
              appUnit appUnit appSource appSource eq_refl)
    as (token & token' & H1 & H2 & _ & _ & _ & _ & Hsame).
  - vm_compute. reflexivity.
  - vm_compute. reflexivity.
  - reflexivity.
  - exists token, token'. split; [exact H1|]. split; [exact H2|].
    apply (inj pretty). rewrite <- H1, <- H2. apply Hsame; reflexivity.
Defined.

(** C7 at work: two calls in a row on the plain file. *)
Lemma getScriptSnapshot_cached_witness :
  (Core.getScriptSnapshot (host (Some "1")) "/src/main.ts" loaded).1 = Some mainSnapshot
  ∧ (Core.getScriptSnapshot (host (Some "1")) "/src/main.ts"
       (Core.getScriptSnapshot (host (Some "1")) "/src/main.ts" loaded).2).1
    = Some mainSnapshot.
Proof.
  assert ((Core.getScriptSnapshot (host (Some "1")) "/src/main.ts" loaded).1
          = Some mainSnapshot) as Hfirst by (vm_compute; reflexivity).
  split; [exact Hfirst|].
  refine (proj1 (CoreFacts.getScriptSnapshot_cached (host (Some "1")) (host (Some "1"))
                   "/src/main.ts" loaded _ mainSnapshot Hfirst eq_refl _)).
  vm_compute. reflexivity.
Defined.

(** C6 at work: probing the script of a document outside the project. *)
Lemma fileExists_registers_stem_witness :
  VirtualFiles.hasSource (Core.virtualFiles loaded) "/lib/Lib.vue" = false
  ∧ (languageServiceHost_fileExists (core (Some "1")) "/lib/Lib.vue.ts" loaded).1 = Some true
  ∧ VirtualFiles.hasSource
      (Core.virtualFiles
         (languageServiceHost_fileExists (core (Some "1")) "/lib/Lib.vue.ts" loaded).2)
      "/lib/Lib.vue" = true.
Proof.
  assert (".ts" ∈ hostExtensions) as Hext by (right; left).
  assert (VirtualFiles.hasSource
            (Core.virtualFiles (Core.update languageModules (host (Some "1")) loaded))
            "/lib/Lib.vue" = false) as Hnew by (vm_compute; reflexivity).
  destruct (CoreFacts.fileExists_registers_stem languageModules (host (Some "1"))
              (λ fileName, bool_decide (fileName ∈ projectFiles))
              "/lib/Lib.vue" ".ts" libSnapshot loaded Hext eq_refl Hnew eq_refl)
    as [Hanswer Hregistered].
  split; [vm_compute; reflexivity|].
  change ("/lib/Lib.vue" +:+ ".ts") with "/lib/Lib.vue.ts" in Hanswer.
  unfold core. rewrite Hanswer. cbn [fst snd Core.virtualFiles Core.set_virtualFiles].
  split.
  - vm_compute. reflexivity.
  - eapply Hregistered. vm_compute. reflexivity.
Defined.

(** C9 at work: the handler writes the generated unit and nothing else. *)
Lemma writeVirtualFiles_skips_sources_witness :
  (CustomFeatures.writeVirtualFiles (host (Some "1")) (core (Some "1")) Core.initial).1
    = [("/src/App.vue.ts", "<script>let x = 1</script>")]
  ∧ "/src/App.vue.ts" ∉ Host.getScriptFileNames (host (Some "1")).
Proof.
  assert ((CustomFeatures.writeVirtualFiles (host (Some "1")) (core (Some "1"))
             Core.initial).1
          = [("/src/App.vue.ts", "<script>let x = 1</script>")]) as Hwritten
    by (vm_compute; reflexivity).
  split; [exact Hwritten|].
  refine (proj1 (CustomFeaturesFacts.writeVirtualFiles_skips_sources
                   (host (Some "1")) (core (Some "1")) Core.initial
                   "/src/App.vue.ts" "<script>let x = 1</script>" _)).
  rewrite Hwritten. left.
Defined.

End Witnesses.

(** ** More on the workspace resolver *)
Module ResolverFacts.

Import Workspace Resolver.

Section Comparator.

Variable dirname : string → string.
Variable basename : string → string.
Variable isFileInDir : string → string → bool.

Local Abbreviation compare := (sortTsConfigs dirname basename isFileInDir).

Lemma sortTsConfigs_swap (file a b : string) :
  compare file b a = - compare file a b.
Proof.
  unfold sortTsConfigs.
  destruct (isFileInDir file (dirname a)), (isFileInDir file (dirname b));
    cbn [Bool.eqb negb]; try (cbn; lia).
  all: rewrite (Z.eqb_sym (split_length b) (split_length a)).
  all: destruct (split_length a =? split_length b); [|lia].
  all: destruct (String.eqb (basename a) "tsconfig.json"),
                (String.eqb (basename b) "tsconfig.json"); cbn; lia.
Qed.

Lemma sortTsConfigs_le_trans (file a b c : string) :
  compare file a b ≤ 0 → compare file b c ≤ 0 → compare file a c ≤ 0.
Proof.
  unfold sortTsConfigs.
  destruct (isFileInDir file (dirname a)), (isFileInDir file (dirname b)),
           (isFileInDir file (dirname c)); cbn [Bool.eqb negb]; try (cbn; lia).
  all: destruct (Z.eqb_spec (split_length a) (split_length b)),
                (Z.eqb_spec (split_length b) (split_length c)),
                (Z.eqb_spec (split_length a) (split_length c)); try lia.
  all: destruct (String.eqb (basename a) "tsconfig.json"),
                (String.eqb (basename b) "tsconfig.json"),
                (String.eqb (basename c) "tsconfig.json"); cbn; lia.
Qed.

Lemma sortTsConfigs_lt_trans (file a b c : string) :
  compare file a b < 0 → compare file b c < 0 → compare file a c < 0.
Proof.
  unfold sortTsConfigs.
  destruct (isFileInDir file (dirname a)), (isFileInDir file (dirname b)),
           (isFileInDir file (dirname c)); cbn [Bool.eqb negb]; try (cbn; lia).
  all: destruct (Z.eqb_spec (split_length a) (split_length b)),
                (Z.eqb_spec (split_length b) (split_length c)),
                (Z.eqb_spec (split_length a) (split_length c)); try lia.
  all: destruct (String.eqb (basename a) "tsconfig.json"),
                (String.eqb (basename b) "tsconfig.json"),
                (String.eqb (basename c) "tsconfig.json"); cbn; lia.
Qed.

(** X3: [sortTsConfigs] is a consistent comparator, whatever the path
    functions are: swapping the two configurations negates the result (so a
    configuration compares equal to itself), and both "before" and "not
    after" are transitive.  Sorting with it is therefore well defined. *)
Theorem sortTsConfigs_consistent (file a b c : string) :
  sortTsConfigs dirname basename isFileInDir file b a
    = - sortTsConfigs dirname basename isFileInDir file a b
  ∧ sortTsConfigs dirname basename isFileInDir file a a = 0
  ∧ (sortTsConfigs dirname basename isFileInDir file a b < 0 →
     sortTsConfigs dirname basename isFileInDir file b c < 0 →
     sortTsConfigs dirname basename isFileInDir file a c < 0)
  ∧ (sortTsConfigs dirname basename isFileInDir file a b ≤ 0 →
     sortTsConfigs dirname basename isFileInDir file b c ≤ 0 →
     sortTsConfigs dirname basename isFileInDir file a c ≤ 0).
Proof.
  split; [apply sortTsConfigs_swap|]. split.
  - pose proof (sortTsConfigs_swap file a a). lia.
  - split; [apply sortTsConfigs_lt_trans|apply sortTsConfigs_le_trans].
Qed.

End Comparator.

Section Chains.

Variable join : string → string → string.
Variable sys_fileExists : option (string → bool).
Variable configs : gmap string ParsedCommandLine.

Local Abbreviation chains := (getReferencesChains join sys_fileExists configs).
Local Abbreviation follow := (follow_reference join sys_fileExists configs).
Local Abbreviation resolve := (resolve_reference join sys_fileExists).

Lemma indexOf_Some_lookup (l : list string) (x : string) (i : nat) :
  indexOf l x = Some i → l !! i = Some x.
Proof.
  revert i. induction l as [|y l IH]; intros i; cbn; [done|].
  destruct (String.eqb_spec y x) as [->|Hne]; [by intros [= <-]|].
  destruct (indexOf l x) as [j|]; cbn; [|done]. intros [= <-]. by apply IH.
Qed.

(** A property of the path walked passes to every chain returned: [visiting]
    holds of the configuration visited, with its parsed command line and the
    configurations before it, and [kept] of the chains. *)
Lemma getReferencesChains_invariant
    (visiting : ParsedCommandLine → list string → string → Prop)
    (kept : list string → Prop) :
  (∀ pcl before t, visiting pcl before t → kept (before ++ [t])) →
  (∀ pcl before t i x, visiting pcl before t → indexOf before x = Some i →
     kept (take (Nat.max i 1) before)) →
  (∀ pcl before t refs r pcl',
     visiting pcl before t → projectReferences pcl = Some refs → r ∈ refs →
     resolve r ∉ before → configs !! resolve r = Some pcl' →
     visiting pcl' (before ++ [t]) (resolve r)) →
  ∀ fuel pcl t before result,
    visiting pcl before t → chains fuel pcl t before = Some result →
    Forall kept result.
Proof.
  intros Hleaf Hcut Hstep.
  induction fuel as [|fuel IH]; intros pcl t before result Hvisit; [done|].
  cbn [getReferencesChains].
  destruct (projectReferences pcl) as [[|r0 refs0]|] eqn:Hrefs;
    [intros [= <-]; apply Forall_singleton; by eapply Hleaf| |
     intros [= <-]; apply Forall_singleton; by eapply Hleaf].
  assert (∀ refs acc,
            (∀ r, r ∈ refs → r ∈ r0 :: refs0) →
            (∀ newChains, acc = Some newChains → Forall kept newChains) →
            fold_left (follow (chains fuel) t before) refs acc = Some result →
            Forall kept result) as Hfold.
  { induction refs as [|r refs IHr]; intros acc Hin Hacc; cbn [fold_left].
    - intros ->. by apply Hacc.
    - apply IHr; [intros r' Hr'; apply Hin; by right|].
      intros next Hnext. unfold follow_reference in Hnext.
      destruct acc as [newChains|]; [|done]. specialize (Hacc newChains eq_refl).
      destruct (indexOf before (resolve r)) as [i|] eqn:Hindex.
      + injection Hnext as <-. apply Forall_app. split; [done|]. apply Forall_singleton.
        by eapply Hcut.
      + apply WorkspaceFacts.indexOf_None in Hindex. unfold getParsedCommandLine in Hnext.
        destruct (configs !! resolve r) as [pcl'|] eqn:Hconfig; [|by injection Hnext as <-].
        destruct (chains fuel pcl' (resolve r) (before ++ [t])) as [found|] eqn:Hfound;
          [|done].
        injection Hnext as <-. apply Forall_app. split; [done|].
        apply (IH pcl' (resolve r) (before ++ [t])); [|done].
        apply (Hstep pcl before t (r0 :: refs0) r pcl'); try done. apply Hin. by left. }
  apply Hfold; [done|]. by intros newChains [= <-].
Qed.

Lemma getReferencesChains_head (fuel : nat) pcl tsConfig result :
  chains fuel pcl tsConfig [] = Some result →
  Forall (λ chain, ∃ rest, chain = tsConfig :: rest) result.
Proof.
  apply (getReferencesChains_invariant
           (λ _ before t, ∃ rest, before ++ [t] = tsConfig :: rest)
           (λ chain, ∃ rest, chain = tsConfig :: rest)).
  - intros _ before t Hrooted. exact Hrooted.
  - intros _ before t i x [rest Hrooted] Hindex.
    destruct before as [|b before]; [done|]. injection Hrooted as -> _.
    destruct (Nat.max i 1) as [|n] eqn:Hmax; [lia|]. cbn. eauto.
  - intros _ before t _ r _ [rest Hrooted] _ _ _ _. rewrite Hrooted. cbn. eauto.
  - by exists [].
Qed.

(** X4: every chain [getReferencesChains] returns for a configuration starts
    with that configuration; in particular no chain is empty. *)
Theorem getReferencesChains_rooted (fuel : nat) parsedCommandLine tsConfig result chain :
  getReferencesChains join sys_fileExists configs fuel parsedCommandLine tsConfig []
    = Some result →
  chain ∈ result →
  ∃ rest, chain = tsConfig :: rest.
Proof.
  intros Hresult Hchain. apply getReferencesChains_head in Hresult.
  rewrite Forall_forall in Hresult. by apply Hresult.
Qed.

Local Abbreviation path := (reference_path join sys_fileExists configs).

Lemma reference_path_take (chain : list string) (n : nat) :
  path chain → path (take n chain).
Proof.
  intros Hpath i a b Ha Hb.
  apply lookup_take_Some in Ha as [Ha _]. apply lookup_take_Some in Hb as [Hb _].
  by apply (Hpath i).
Qed.

Lemma reference_path_snoc (chain : list string) (t t' : string) :
  path (chain ++ [t]) → references join sys_fileExists configs t t' →
  path ((chain ++ [t]) ++ [t']).
Proof.
  intros Hpath Hedge i a b Ha Hb.
  destruct (decide (S i < List.length (chain ++ [t]))%nat) as [Hlt|Hge].
  - rewrite lookup_app_l in Ha by lia. rewrite lookup_app_l in Hb by lia.
    by apply (Hpath i).
  - apply lookup_lt_Some in Hb as Hlen. rewrite !length_app in *. cbn in *.
    assert (i = List.length chain) as -> by lia.
    rewrite <- app_assoc in Ha, Hb.
    rewrite lookup_app_r in Ha by lia. rewrite Nat.sub_diag in Ha.
    rewrite lookup_app_r in Hb by lia.
    replace (S (List.length chain) - List.length chain)%nat with 1%nat in Hb by lia.
    cbn in Ha, Hb. by injection Ha as <-; injection Hb as <-.
Qed.

Lemma getReferencesChains_paths (fuel : nat) pcl tsConfig result :
  configs !! tsConfig = Some pcl →
  chains fuel pcl tsConfig [] = Some result →
  Forall path result.
Proof.
  intros Hconfig.
  apply (getReferencesChains_invariant
           (λ pcl' before t, path (before ++ [t]) ∧ configs !! t = Some pcl') path).
  - by intros pcl' before t [Hpath _].
  - intros pcl' before t i x [Hpath _] _.
    apply reference_path_take. intros j a b Ha Hb. apply (Hpath j).
    + apply lookup_app_l_Some, Ha.
    + apply lookup_app_l_Some, Hb.
  - intros pcl' before t refs r pcl'' [Hpath Ht] Hrefs Hr _ Hconfig'.
    split; [|done]. apply reference_path_snoc; [done|].
    by exists pcl', refs, r.
  - split; [|done]. intros i a b Ha Hb. by destruct i.
Qed.

(** X5: every chain returned for a configuration of the table is a path of
    the reference graph: each configuration of the chain lists a project
    reference that stands for the next one. *)
Theorem getReferencesChains_follow_references (fuel : nat) parsedCommandLine tsConfig
    result chain :
  configs !! tsConfig = Some parsedCommandLine →
  getReferencesChains join sys_fileExists configs fuel parsedCommandLine tsConfig []
    = Some result →
  chain ∈ result →
  reference_path join sys_fileExists configs chain.
Proof.
  intros Hconfig Hresult Hchain.
  pose proof (getReferencesChains_paths fuel parsedCommandLine tsConfig result Hconfig
                Hresult) as Hall.
  rewrite Forall_forall in Hall. by apply Hall.
Qed.

End Chains.

End ResolverFacts.

(** ** The directory walk and the search among the chains *)
Module SearchFacts.

Import Resolver.

Lemma elem_of_set_add (acc : list string) (x y : string) :
  x ∈ set_add acc y ↔ x ∈ acc ∨ x = y.
Proof.
  unfold set_add. case_bool_decide as Hin.
  - split; [by left|]. by intros [?| ->].
  - rewrite elem_of_app, list_elem_of_singleton. done.
Qed.

Lemma NoDup_set_add (acc : list string) (y : string) :
  NoDup acc → NoDup (set_add acc y).
Proof.
  intros Hnd. unfold set_add. case_bool_decide as Hin; [done|].
  apply NoDup_app. split; [done|]. split; [|apply NoDup_singleton].
  intros x Hx ->%list_elem_of_singleton. done.
Qed.

Lemma set_add_prefix (acc : list string) (y : string) : acc `prefix_of` set_add acc y.
Proof.
  unfold set_add. case_bool_decide; [done|]. by apply prefix_app_r.
Qed.

Lemma elem_of_rev (l : list string) (x : string) : x ∈ rev l ↔ x ∈ l.
Proof.
  induction l as [|y l IH]; [done|]. cbn [rev].
  rewrite elem_of_app, list_elem_of_singleton, elem_of_cons, IH. tauto.
Qed.

Section Walk.

Variable dirname : string → string.
Variable join : string → string → string.
Variable sys_fileExists : option (string → bool).

Local Abbreviation walk := (search_dirs dirname join sys_fileExists).
Local Abbreviation probe := (probe_config join sys_fileExists).

Local Abbreviation exists_in_sys := (sys_has sys_fileExists).

Lemma elem_of_probe_config (dir : string) (names roots : list string) (path : string) :
  path ∈ fold_left (probe dir) names roots ↔
  path ∈ roots
  ∨ ∃ tsConfigName, tsConfigName ∈ names ∧ path = join dir tsConfigName
                    ∧ exists_in_sys path = true.
Proof.
  revert roots. induction names as [|name names IH]; intros roots; cbn [fold_left].
  - split; [by left|]. intros [?|(? & []%elem_of_nil & _)]. done.
  - rewrite IH. unfold probe_config.
    destruct (exists_in_sys (join dir name)) eqn:Hexists.
    + rewrite elem_of_set_add. split.
      * intros [[?| ->]|(n & Hn & -> & He)]; [by left| |].
        -- right. exists name. split; [by left|done].
        -- right. exists n. split; [by right|done].
      * intros [?|(n & [->|Hn]%elem_of_cons & -> & He)]; [by left; left|by left; right|].
        right. by exists n.
    + split.
      * intros [?|(n & Hn & -> & He)]; [by left|]. right. exists n. split; [by right|done].
      * intros [?|(n & [->|Hn]%elem_of_cons & -> & He)]; [by left|congruence|].
        right. by exists n.
Qed.

Lemma NoDup_probe_config (dir : string) (names roots : list string) :
  NoDup roots → NoDup (fold_left (probe dir) names roots).
Proof.
  revert roots. induction names as [|name names IH]; intros roots Hnd; [done|].
  cbn [fold_left]. apply IH. unfold probe_config.
  destruct (exists_in_sys (join dir name)); [|done].
  by apply NoDup_set_add.
Qed.

Lemma search_dirs_enough_fuel (n : nat) (dir : string) (d : Discovery) :
  dirname (Nat.iter n dirname dir) = Nat.iter n dirname dir →
  ∃ d', walk (n + 2) dir d = Some d'.
Proof.
  revert dir d. induction n as [|n IH]; intros dir d Hroot.
  - cbn in Hroot. cbn [Nat.add search_dirs].
    destruct (set_has (searchedDirs d) dir); [by eexists|].
    rewrite Hroot. cbn [searchedDirs]. unfold set_has.
    rewrite bool_decide_eq_true_2; [by eexists|].
    apply elem_of_set_add. by right.
  - cbn [Nat.add search_dirs].
    destruct (set_has (searchedDirs d) dir); [by eexists|].
    apply IH. rewrite <- Nat.iter_succ_r. exact Hroot.
Qed.

Lemma search_dirs_more_fuel (fuel fuel' : nat) (dir : string) (d d' : Discovery) :
  (fuel ≤ fuel')%nat → walk fuel dir d = Some d' → walk fuel' dir d = Some d'.
Proof.
  revert fuel' dir d. induction fuel as [|fuel IH]; intros fuel' dir d Hle; [done|].
  destruct fuel' as [|fuel']; [lia|]. cbn [search_dirs].
  destruct (set_has (searchedDirs d) dir); [done|]. apply IH. lia.
Qed.

(** The directories a walk has gone through: searched before, or reached
    from [dir] by [dirname]. *)
Lemma search_dirs_spec (fuel : nat) (dir : string) (d d' : Discovery) :
  walk fuel dir d = Some d' →
  dir ∈ searchedDirs d'
  ∧ searchedDirs d `prefix_of` searchedDirs d'
  ∧ (∀ x, x ∈ searchedDirs d' → x ∈ searchedDirs d ∨ ∃ k, x = Nat.iter k dirname dir)
  ∧ (∀ path, path ∈ rootTsConfigs d' ↔
       path ∈ rootTsConfigs d
       ∨ ∃ dir' tsConfigName,
           dir' ∈ searchedDirs d' ∧ (dir' ∉ searchedDirs d)
           ∧ tsConfigName ∈ rootTsConfigNames ∧ path = join dir' tsConfigName
           ∧ exists_in_sys path = true).
Proof.
  revert dir d. induction fuel as [|fuel IH]; intros dir d; [done|].
  cbn [search_dirs]. unfold set_has. case_bool_decide as Hin.
  - intros [= <-]. split; [done|]. split; [done|]. split; [by left|].
    intros path. split; [by left|]. intros [?|(dir' & _ & ? & ? & _)]; done.
  - intros Hwalk. apply IH in Hwalk as (Hdir & Hprefix & Hfrom & Hroots).
    cbn [searchedDirs rootTsConfigs] in *.
    assert (dir ∈ searchedDirs d') as Hdir'.
    { eapply elem_of_prefix; [|exact Hprefix]. apply elem_of_set_add. by right. }
    split; [done|]. split; [by etrans; [apply set_add_prefix|]|]. split.
    + intros x Hx. apply Hfrom in Hx as [[?| ->]%elem_of_set_add|[k ->]].
      * by left.
      * right. by exists 0%nat.
      * right. exists (S k). by rewrite Nat.iter_succ_r.
    + intros path. rewrite Hroots, elem_of_probe_config. split.
      * intros [[?|(name & Hname & -> & Hexists)]|(dir' & name & Hd' & Hnew & Hname & -> & He)].
        -- by left.
        -- right. by exists dir, name.
        -- right. exists dir', name. split; [done|]. split; [|done].
           intros Hold. apply Hnew, elem_of_set_add. by left.
      * intros [?|(dir' & name & Hd' & Hnew & Hname & -> & He)]; [by left; left|].
        destruct (decide (dir' = dir)) as [->|Hne].
        -- left. right. by exists name.
        -- right. exists dir', name. split; [done|]. split; [|done].
           intros [?| ->]%elem_of_set_add; done.
Qed.

Lemma search_dirs_NoDup (fuel : nat) (dir : string) (d d' : Discovery) :
  walk fuel dir d = Some d' →
  NoDup (searchedDirs d) → NoDup (rootTsConfigs d) →
  NoDup (searchedDirs d') ∧ NoDup (rootTsConfigs d').
Proof.
  revert dir d. induction fuel as [|fuel IH]; intros dir d; [done|].
  cbn [search_dirs]. destruct (set_has (searchedDirs d) dir).
  - by intros [= <-].
  - intros Hwalk Hs Hr. apply IH in Hwalk; [done| |]; cbn [searchedDirs rootTsConfigs].
    + by apply NoDup_set_add.
    + by apply NoDup_probe_config.
Qed.

(** X6: the walk of [findMatchConfigs] towards the root ends whenever
    [dirname] reaches a directory that is its own parent (as [/] is); [n + 2]
    steps are enough when [n] applications of [dirname] reach it, whatever
    was searched before, and more fuel gives the same answer. *)
Theorem search_dirs_terminates (n fuel : nat) (dir : string) (d : Discovery) :
  dirname (Nat.iter n dirname dir) = Nat.iter n dirname dir →
  (n + 2 ≤ fuel)%nat →
  ∃ d', search_dirs dirname join sys_fileExists fuel dir d = Some d'
        ∧ search_dirs dirname join sys_fileExists (n + 2) dir d = Some d'.
Proof.
  intros Hroot Hfuel. destruct (search_dirs_enough_fuel n dir d Hroot) as [d' Hd'].
  exists d'. split; [|done]. by apply (search_dirs_more_fuel (n + 2)).
Qed.

(** X7: what the walk of [findMatchConfigs] collects.  The starting
    directory ends up searched; the directories searched before stay, in
    their order, and a new one is reached from the start by [dirname]; a
    path is among the root configurations afterwards exactly when it was
    there before or names [tsconfig.json] or [jsconfig.json] in a newly
    searched directory and the file system has it; neither set holds a
    value twice. *)
Theorem search_dirs_collects (fuel : nat) (dir : string) (d d' : Discovery) :
  search_dirs dirname join sys_fileExists fuel dir d = Some d' →
  NoDup (searchedDirs d) → NoDup (rootTsConfigs d) →
  dir ∈ searchedDirs d'
  ∧ searchedDirs d `prefix_of` searchedDirs d'
  ∧ (∀ x, x ∈ searchedDirs d' → x ∈ searchedDirs d ∨ ∃ k, x = Nat.iter k dirname dir)
  ∧ (∀ path, path ∈ rootTsConfigs d' ↔
       path ∈ rootTsConfigs d
       ∨ ∃ dir' tsConfigName,
           dir' ∈ searchedDirs d' ∧ (dir' ∉ searchedDirs d)
           ∧ tsConfigName ∈ rootTsConfigNames ∧ path = join dir' tsConfigName
           ∧ sys_has sys_fileExists path = true)
  ∧ NoDup (searchedDirs d') ∧ NoDup (rootTsConfigs d').
Proof.
  intros Hwalk Hs Hr.
  destruct (search_dirs_spec fuel dir d d' Hwalk) as (Hdir & Hprefix & Hfrom & Hroots).
  split; [done|]. split; [done|]. split; [done|].
  split; [done|]. by apply (search_dirs_NoDup fuel dir d).
Qed.

(** X8: the walk is remembered: once a walk from a directory has ended, a
    second walk from that directory stops at once, whatever fuel it has, and
    changes neither the searched directories nor the root configurations. *)
Theorem search_dirs_remembered (fuel fuel' : nat) (dir : string) (d d' : Discovery) :
  search_dirs dirname join sys_fileExists fuel dir d = Some d' →
  search_dirs dirname join sys_fileExists (S fuel') dir d' = Some d'.
Proof.
  intros Hwalk. destruct (search_dirs_spec fuel dir d d' Hwalk) as (Hin & _).
  cbn [search_dirs]. unfold set_has. by rewrite bool_decide_eq_true_2.
Qed.

End Walk.

Section Search.

Context {St : Type}.

Lemma check_chain_calls (match_ : string → St → bool * St)
    (reversed checked log : list string) (s : St) :
  ∃ calls,
    check_chain (logged match_) reversed checked (log, s)
      = ((check_chain match_ reversed checked s).1.1,
         checked ++ calls, (log ++ calls, (check_chain match_ reversed checked s).2))
    ∧ (check_chain match_ reversed checked s).1.2 = checked ++ calls
    ∧ (NoDup checked → NoDup (checked ++ calls))
    ∧ (∀ x, x ∈ calls → x ∈ reversed)
    ∧ match (check_chain match_ reversed checked s).1.1 with
      | Some tsconfig => ∃ before, calls = before ++ [tsconfig]
      | None => ∀ x, x ∈ reversed → x ∈ checked ++ calls
      end.
Proof.
  revert checked log s. induction reversed as [|t rest IH]; intros checked log s.
  - exists []. cbn. rewrite !app_nil_r. repeat split; try done. intros x []%elem_of_nil.
  - cbn [check_chain]. unfold set_has, set_add. case_bool_decide as Hin.
    + destruct (IH checked log s) as (calls & Hrun & Hchecked & Hnd & Hsub & Hres).
      exists calls. split; [done|]. split; [done|]. split; [done|].
      split; [intros x Hx; right; by apply Hsub|].
      destruct (check_chain match_ rest checked s).1.1; [done|].
      intros x [->|Hx]%elem_of_cons; [|by apply Hres]. apply elem_of_app. by left.
    + unfold logged at 1. cbn [fst snd].
      destruct (match_ t s) as [matched s'] eqn:Hmatch. destruct matched.
      * exists [t]. cbn. split; [done|]. split; [done|]. split.
        -- intros Hnd. apply NoDup_app. split; [done|]. split; [|apply NoDup_singleton].
           intros x Hx ->%list_elem_of_singleton. done.
        -- split; [|by exists []]. intros x ->%list_elem_of_singleton. by left.
      * destruct (IH (checked ++ [t]) (log ++ [t]) s')
          as (calls & Hrun & Hchecked & Hnd & Hsub & Hres).
        exists (t :: calls). rewrite Hrun, Hchecked.
        replace (checked ++ t :: calls) with ((checked ++ [t]) ++ calls)
          by (by rewrite <- app_assoc).
        replace (log ++ t :: calls) with ((log ++ [t]) ++ calls)
          by (by rewrite <- app_assoc).
        split; [done|]. split; [done|]. split.
        -- intros Hnd0. apply Hnd.
           apply NoDup_app. split; [done|]. split; [|apply NoDup_singleton].
           intros x Hx ->%list_elem_of_singleton. done.
        -- split; [intros x [->|Hx]%elem_of_cons; [by left|right; by apply Hsub]|].
           destruct (check_chain match_ rest (checked ++ [t]) s').1.1.
           ++ destruct Hres as [before ->]. by exists (t :: before).
           ++ intros x [->|Hx]%elem_of_cons; [|by apply Hres].
              apply elem_of_app. left. apply elem_of_app. right. by left.
Qed.

Lemma check_chains_calls (match_ : string → St → bool * St)
    (chains : list (list string)) (checked log : list string) (s : St) :
  ∃ calls,
    check_chains (logged match_) chains checked (log, s)
      = ((check_chains match_ chains checked s).1.1,
         checked ++ calls, (log ++ calls, (check_chains match_ chains checked s).2))
    ∧ (check_chains match_ chains checked s).1.2 = checked ++ calls
    ∧ (NoDup checked → NoDup (checked ++ calls))
    ∧ (∀ x, x ∈ calls → ∃ chain, chain ∈ chains ∧ x ∈ chain)
    ∧ match (check_chains match_ chains checked s).1.1 with
      | Some tsconfig => ∃ before, calls = before ++ [tsconfig]
      | None => ∀ chain x, chain ∈ chains → x ∈ chain → x ∈ checked ++ calls
      end.
Proof.
  revert checked log s. induction chains as [|chain rest IH]; intros checked log s.
  - exists []. cbn. rewrite !app_nil_r. repeat split; try done.
    + intros x []%elem_of_nil.
    + intros chain x []%elem_of_nil.
  - cbn [check_chains].
    destruct (check_chain_calls match_ (rev chain) checked log s)
      as (calls & Hrun & Hchecked & Hnd & Hsub & Hres).
    rewrite Hrun.
    destruct (check_chain match_ (rev chain) checked s) as [[found checked1] s1] eqn:Hone.
    cbn [fst snd] in *. subst checked1. destruct found as [t|].
    + exists calls. cbn [fst snd]. split; [done|]. split; [done|]. split; [done|].
      split; [|done]. intros x Hx. exists chain. split; [by left|].
      apply Hsub in Hx. by apply elem_of_rev.
    + destruct (IH (checked ++ calls) (log ++ calls) s1)
        as (calls' & Hrun' & Hchecked' & Hnd' & Hsub' & Hres').
      exists (calls ++ calls'). rewrite Hrun', Hchecked'.
      rewrite !(assoc_L (++) _ calls calls').
      split; [done|]. split; [done|]. split.
      * intros Hnd0. apply Hnd', Hnd, Hnd0.
      * split.
        -- intros x [Hx|Hx]%elem_of_app.
           ++ exists chain. split; [by left|]. apply Hsub in Hx. by apply elem_of_rev.
           ++ apply Hsub' in Hx as (c & Hc & Hx). exists c. split; [by right|done].
        -- destruct (check_chains match_ rest (checked ++ calls) s1).1.1.
           ++ destruct Hres' as [before ->]. exists (calls ++ before).
              by rewrite <- app_assoc.
           ++ intros c x [->|Hc]%elem_of_cons Hx.
              ** apply elem_of_app. left. apply Hres. by apply elem_of_rev.
              ** by apply (Hres' c).
Qed.

(** X9: in the search of [findTsconfig] among the chains of a root, the
    callback [match] is asked about a configuration at most once, and only
    about configurations not checked before: the configurations it is asked
    about are exactly those the search appends to [checked], in that order
    and without repetition, each from one of the chains.  A configuration
    returned is the last one asked about; when none is returned, every
    configuration of every chain has been checked. *)
Theorem check_chains_asks_once (match_ : string → St → bool * St)
    (chains : list (list string)) (checked : list string) (s : St) :
  NoDup checked →
  ∃ calls,
    check_chains (logged match_) chains checked ([], s)
      = ((check_chains match_ chains checked s).1.1,
         checked ++ calls, (calls, (check_chains match_ chains checked s).2))
    ∧ (check_chains match_ chains checked s).1.2 = checked ++ calls
    ∧ NoDup (checked ++ calls)
    ∧ (∀ x, x ∈ calls → ∃ chain, chain ∈ chains ∧ x ∈ chain)
    ∧ match (check_chains match_ chains checked s).1.1 with
      | Some tsconfig => ∃ before, calls = before ++ [tsconfig]
      | None => ∀ chain x, chain ∈ chains → x ∈ chain → x ∈ checked ++ calls
      end.
Proof.
  intros Hnd.
  destruct (check_chains_calls match_ chains checked [] s)
    as (calls & Hrun & Hchecked & Hnd' & Hsub & Hres).
  exists calls. split; [done|]. split; [done|]. split; [by apply Hnd'|]. done.
Qed.

Lemma check_chain_find (p : string → bool) (reversed checked : list string) (s : St) :
  (∀ x, x ∈ checked → p x = false) →
  let result := check_chain (λ tsconfig s, (p tsconfig, s)) reversed checked s in
  result.1.1 = find p reversed ∧ result.2 = s
  ∧ (result.1.1 = None → ∀ x, x ∈ result.1.2 → p x = false).
Proof.
  revert checked. induction reversed as [|t rest IH]; intros checked Hchecked; [done|].
  cbn [check_chain find]. unfold set_has. case_bool_decide as Hin.
  - rewrite (Hchecked t Hin). by apply IH.
  - destruct (p t) eqn:Hp; [done|]. apply IH.
    intros x [?| ->]%elem_of_set_add; [by apply Hchecked|done].
Qed.

Lemma find_app (p : string → bool) (l1 l2 : list string) :
  find p (l1 ++ l2) = match find p l1 with Some x => Some x | None => find p l2 end.
Proof. induction l1 as [|x l1 IH]; [done|]. cbn. by destruct (p x). Qed.

Lemma check_chains_find (p : string → bool) (chains : list (list string))
    (checked : list string) (s : St) :
  (∀ x, x ∈ checked → p x = false) →
  let result := check_chains (λ tsconfig s, (p tsconfig, s)) chains checked s in
  result.1.1 = find p (flat_map (@rev string) chains) ∧ result.2 = s.
Proof.
  revert checked. induction chains as [|chain rest IH]; intros checked Hchecked; [done|].
  cbn [check_chains flat_map]. rewrite find_app.
  destruct (check_chain_find p (rev chain) checked s Hchecked) as (Hfound & Hstate & Hfailed).
  destruct (check_chain (λ tsconfig s, (p tsconfig, s)) (rev chain) checked s)
    as [[found checked'] s'].
  cbn [fst snd] in *. subst s'. rewrite <- Hfound. destruct found as [t|]; [done|].
  apply IH. by apply Hfailed.
Qed.

(** X10: when the answer of [match] does not depend on the state, the
    search of [findTsconfig] among the chains of a root, started with
    nothing checked, returns the first configuration that matches in the
    order "chain after chain, each chain from its last configuration to its
    first" (the chains taken in reverse under
    [reverseConfigFilePriority]), and nothing when none matches. *)
Theorem search_chains_first_match (p : string → bool) (reverseConfigFilePriority : bool)
    (chains : list (list string)) (s : St) :
  (search_chains (λ tsconfig s, (p tsconfig, s)) reverseConfigFilePriority chains [] s).1.1
    = find p (search_order reverseConfigFilePriority chains).
Proof.
  unfold search_chains, search_order.
  apply (check_chains_find p _ [] s). intros x []%elem_of_nil.
Qed.

End Search.

End SearchFacts.

(** ** More on the Language Context *)
Module ContextFacts.

Import Core Invariants.

Lemma set_virtualFiles_same (s : State) : set_virtualFiles s (virtualFiles s) = s.
Proof. by destruct s. Qed.

Lemma hasSource_set (vf : VirtualFiles.t) (source : Source) (fileName : string) :
  VirtualFiles.hasSource (VirtualFiles.set vf source) fileName
    = VirtualFiles.hasSource vf fileName || String.eqb (src_fileName source) fileName.
Proof.
  unfold VirtualFiles.hasSource. induction vf as [|s' rest IH]; cbn.
  - by rewrite orb_false_r.
  - destruct (String.eqb_spec (src_fileName s') (src_fileName source)) as [Heq|Hne]; cbn.
    + rewrite Heq. destruct (String.eqb (src_fileName source) fileName); cbn; [done|].
      by rewrite orb_false_r.
    + rewrite IH. by rewrite orb_assoc.
Qed.

Lemma elem_of_set_inv (vf : VirtualFiles.t) (source x : Source) :
  x ∈ VirtualFiles.set vf source → x = source ∨ x ∈ vf.
Proof.
  induction vf as [|s' rest IH]; cbn.
  - intros ->%list_elem_of_singleton. by left.
  - destruct (String.eqb (src_fileName s') (src_fileName source)).
    + intros [->|?]%elem_of_cons; [by left|]. right. by right.
    + intros [->|Hx]%elem_of_cons; [right; by left|].
      destruct (IH Hx) as [?|?]; [by left|]. right. by right.
Qed.

Lemma elem_of_updateSource languageModules (vf : VirtualFiles.t) fileName snapshot
    languageId (x : Source) :
  x ∈ (VirtualFiles.updateSource languageModules vf fileName snapshot languageId).2 →
  x ∈ vf ∨ src_fileName x = fileName.
Proof.
  unfold VirtualFiles.updateSource.
  destruct (createFile languageModules fileName snapshot languageId) as [root|];
    cbn [snd]; [|by left].
  intros [->|?]%elem_of_set_inv; [by right|by left].
Qed.

Lemma hasSource_updateSource languageModules (vf : VirtualFiles.t) fileName snapshot
    languageId (x : string) :
  VirtualFiles.hasSource vf x = true →
  VirtualFiles.hasSource
    (VirtualFiles.updateSource languageModules vf fileName snapshot languageId).2 x = true.
Proof.
  unfold VirtualFiles.updateSource.
  destruct (createFile languageModules fileName snapshot languageId) as [root|];
    cbn [snd]; [|done].
  intros Hx. by rewrite hasSource_set, Hx.
Qed.

Lemma hasSource_elem (vf : VirtualFiles.t) (fileName : string) :
  VirtualFiles.hasSource vf fileName = true ↔ fileName ∈ src_fileName <$> vf.
Proof.
  unfold VirtualFiles.hasSource. rewrite existsb_exists, list_elem_of_fmap. split.
  - intros (x & Hx & Heq%String.eqb_eq). exists x. split; [done|].
    by apply list_elem_of_In.
  - intros (x & -> & Hx). exists x. split; [by apply list_elem_of_In|].
    apply String.eqb_refl.
Qed.

Lemma tokens_kept_refl (s : State) : tokens_kept s s.
Proof. intros fileName version Hversion. exists version. split; [done|lia]. Qed.

Lemma tokens_kept_trans (s1 s2 s3 : State) :
  tokens_kept s1 s2 → tokens_kept s2 s3 → tokens_kept s1 s3.
Proof.
  intros H12 H23 fileName version Hversion.
  destruct (H12 _ _ Hversion) as (version2 & Hversion2 & Hle2).
  destruct (H23 _ _ Hversion2) as (version3 & Hversion3 & Hle3).
  exists version3. split; [done|lia].
Qed.

Lemma tokens_kept_same (s s' : State) :
  virtualFileVersions s' = virtualFileVersions s → tokens_kept s s'.
Proof.
  intros Hsame fileName version Hversion. exists version. rewrite Hsame. split; [done|lia].
Qed.

Section WithValues.

Context {V : Type}.

Lemma proxied_host_cons (languageModule : HostProxy.Module V)
    (languageModules : list (HostProxy.Module V)) (host : HostProxy.Members) :
  HostProxy.proxied_host (languageModule :: languageModules) host
    = HostProxy.proxy_step (HostProxy.proxied_host languageModules host) languageModule.
Proof.
  unfold HostProxy.proxied_host. cbn [rev]. by rewrite fold_left_app.
Qed.

Lemma proxied_host_untouched (languageModules : list (HostProxy.Module V))
    (host : HostProxy.Members) (key : string) :
  (∀ languageModule make inner,
     languageModule ∈ languageModules →
     HostProxy.proxyLanguageServiceHost languageModule = Some make →
     make inner key = None) →
  HostProxy.proxied_host languageModules host key = host key.
Proof.
  induction languageModules as [|m ms IH]; intros Hnone; [done|].
  rewrite proxied_host_cons. unfold HostProxy.proxy_step.
  destruct (HostProxy.proxyLanguageServiceHost m) as [make|] eqn:Hmake.
  - unfold HostProxy.wrap. rewrite (Hnone m make _ (list_elem_of_here _ _) Hmake).
    apply IH. intros m' make' inner Hm'. apply Hnone. by right.
  - apply IH. intros m' make' inner Hm'. apply Hnone. by right.
Qed.

(** X24: the order in which the language modules proxy the host.  The loop
    of [createLanguageContext] wraps the host module by module from the last
    registered to the first, so the first registered module is outermost: a
    member it proxies is answered by it, and it is handed the host as the
    modules registered after it have wrapped it; what it does not proxy is
    answered by that inner host.  A member no module proxies is the host's
    own. *)
Theorem proxied_host_priority (languageModule : HostProxy.Module V)
    (languageModules : list (HostProxy.Module V)) (host : HostProxy.Members)
    (key : string) :
  HostProxy.proxied_host (languageModule :: languageModules) host key
    = match HostProxy.proxyLanguageServiceHost languageModule with
      | Some make =>
          match make (HostProxy.proxied_host languageModules host) key with
          | Some member => Some member
          | None => HostProxy.proxied_host languageModules host key
          end
      | None => HostProxy.proxied_host languageModules host key
      end
  ∧ ((∀ languageModule' make inner,
        languageModule' ∈ languageModule :: languageModules →
        HostProxy.proxyLanguageServiceHost languageModule' = Some make →
        make inner key = None) →
     HostProxy.proxied_host (languageModule :: languageModules) host key = host key).
Proof.
  split; [|apply proxied_host_untouched].
  rewrite proxied_host_cons. unfold HostProxy.proxy_step.
  by destruct (HostProxy.proxyLanguageServiceHost languageModule).
Qed.

End WithValues.

Section WithModules.

Variable languageModules : list LanguageModule.

Local Abbreviation update := (Core.update languageModules).

(** What a cycle leaves alone, and what it records. *)
Lemma update_fields (host : LanguageServiceHost) (s : State) :
  lastProjectVersion (update host s) = Host.getProjectVersion host
  ∧ scriptSnapshots (update host s) = scriptSnapshots s
  ∧ virtualFileVersions (update host s) = virtualFileVersions s
  ∧ (tsProjectVersion s ≤ tsProjectVersion (update host s) ≤ tsProjectVersion s + 1)%N.
Proof.
  unfold Core.update.
  destruct (negb _);
    cbn [lastProjectVersion scriptSnapshots virtualFileVersions tsProjectVersion];
    [repeat split; try done; lia|].
  destruct (update_cycle languageModules host s) as [c []];
    cbn [lastProjectVersion scriptSnapshots virtualFileVersions tsProjectVersion];
    repeat split; try done; lia.
Qed.

Lemma update_settled (host : LanguageServiceHost) (v : string) (s : State) :
  Host.getProjectVersion host = Some v →
  update host (update host s) = update host s.
Proof.
  intros Hv. apply UpdateFacts.update_skipped. exists v. split; [done|].
  destruct (update_fields host s) as (-> & _). done.
Qed.

(** X11: [update] settles: for a host that reports a project version, a
    second run right after a first one (the host unchanged) leaves every
    variable of the context as it is, the Project Version included; so
    reading several members in a row costs one cycle. *)
Theorem update_twice (host : LanguageServiceHost) (v : string) (s : State) :
  Host.getProjectVersion host = Some v →
  Core.update languageModules host (Core.update languageModules host s)
    = Core.update languageModules host s
  ∧ getProjectVersion (Core.update languageModules host (Core.update languageModules host s))
    = getProjectVersion (Core.update languageModules host s).
Proof.
  intros Hv. by rewrite (update_settled host v s Hv).
Qed.

Lemma getScriptVersion_fields (host : LanguageServiceHost) (fileName : string) (s : State) :
  tsProjectVersion (getScriptVersion host fileName s).2 = tsProjectVersion s
  ∧ tokens_kept s (getScriptVersion host fileName s).2.
Proof.
  unfold getScriptVersion.
  destruct (VirtualFiles.getVirtualFile _ _) as [[virtualFile source]|];
    [|split; [done|apply tokens_kept_refl]].
  destruct (virtualFileVersions s !! vf_fileName virtualFile) as [version|] eqn:Hold.
  - destruct (_ || _); [|split; [done|apply tokens_kept_refl]].
    split; [done|]. intros f old Hf. cbn.
    destruct (decide (f = vf_fileName virtualFile)) as [->|Hne].
    + rewrite lookup_insert_eq. eexists. split; [done|]. cbn.
      rewrite Hold in Hf. injection Hf as <-. lia.
    + rewrite lookup_insert_ne by done. exists old. split; [done|lia].
  - split; [done|]. intros f old Hf. cbn.
    destruct (decide (f = vf_fileName virtualFile)) as [->|Hne]; [congruence|].
    rewrite lookup_insert_ne by done. exists old. split; [done|lia].
Qed.

Lemma read_snapshot_fields (host : LanguageServiceHost) (fileName version : string)
    (s : State) :
  tsProjectVersion (read_snapshot host fileName version s).2 = tsProjectVersion s
  ∧ virtualFileVersions (read_snapshot host fileName version s).2 = virtualFileVersions s
  ∧ virtualFiles (read_snapshot host fileName version s).2 = virtualFiles s
  ∧ ∀ key, is_Some (scriptSnapshots s !! key) →
           is_Some (scriptSnapshots (read_snapshot host fileName version s).2 !! key).
Proof.
  assert (∀ entry key, is_Some (scriptSnapshots s !! key) →
            is_Some (<[toLowerCase fileName := entry]> (scriptSnapshots s) !! key)) as Hkept.
  { intros entry key Hkey. destruct (decide (key = toLowerCase fileName)) as [->|Hne].
    - rewrite lookup_insert_eq. eauto.
    - by rewrite lookup_insert_ne. }
  unfold read_snapshot.
  destruct (VirtualFiles.getVirtualFile _ _) as [[virtualFile ?]|]; cbn.
  - repeat split; try done. intros key. apply Hkept.
  - destruct (Host.getScriptSnapshot host fileName); cbn; repeat split; try done.
    intros key. apply Hkept.
Qed.

Lemma getScriptSnapshot_fields (host : LanguageServiceHost) (fileName : string) (s : State) :
  tsProjectVersion (getScriptSnapshot host fileName s).2 = tsProjectVersion s
  ∧ tokens_kept s (getScriptSnapshot host fileName s).2
  ∧ virtualFiles (getScriptSnapshot host fileName s).2 = virtualFiles s
  ∧ ∀ key, is_Some (scriptSnapshots s !! key) →
           is_Some (scriptSnapshots (getScriptSnapshot host fileName s).2 !! key).
Proof.
  unfold getScriptSnapshot.
  destruct (getScriptVersion_fields host fileName s) as (Hcounter & Htokens).
  pose proof (CoreFacts.getScriptVersion_scriptSnapshots host fileName s) as Hcache.
  pose proof (CoreFacts.getScriptVersion_virtualFiles host fileName s) as Hstore.
  destruct (getScriptVersion host fileName s) as [version s1]. cbn [fst snd] in *.
  destruct (read_snapshot_fields host fileName version s1) as (Hc & Hv & Hs & Hk).
  assert (tsProjectVersion (read_snapshot host fileName version s1).2 = tsProjectVersion s
          ∧ tokens_kept s (read_snapshot host fileName version s1).2
          ∧ virtualFiles (read_snapshot host fileName version s1).2 = virtualFiles s
          ∧ ∀ key, is_Some (scriptSnapshots s !! key) →
                   is_Some (scriptSnapshots (read_snapshot host fileName version s1).2 !! key))
    as Hread.
  { split; [congruence|]. split; [|split; [congruence|]].
    - eapply tokens_kept_trans; [exact Htokens|]. by apply tokens_kept_same.
    - intros key Hkey. apply Hk. by rewrite Hcache. }
  destruct (scriptSnapshots s1 !! toLowerCase fileName) as [[cachedVersion cached]|];
    [|exact Hread].
  destruct (String.eqb cachedVersion version); [|exact Hread].
  cbn. split; [done|]. split; [done|]. split; [done|]. intros key. by rewrite Hcache.
Qed.

Lemma fileExists_body_fields (host : LanguageServiceHost) (fileName : string) (s : State) :
  tsProjectVersion (fileExists_body languageModules host fileName s).2 = tsProjectVersion s
  ∧ virtualFileVersions (fileExists_body languageModules host fileName s).2
    = virtualFileVersions s
  ∧ scriptSnapshots (fileExists_body languageModules host fileName s).2 = scriptSnapshots s.
Proof.
  unfold fileExists_body. cbv zeta.
  set (s1 := if _ || _ || _ || _ then _ else s).
  assert (tsProjectVersion s1 = tsProjectVersion s
          ∧ virtualFileVersions s1 = virtualFileVersions s
          ∧ scriptSnapshots s1 = scriptSnapshots s) as Hs1.
  { subst s1. destruct (_ || _ || _ || _); [|done].
    destruct (negb _); [|done]. by destruct (Host.getScriptSnapshot host _). }
  by destruct (VirtualFiles.hasVirtualFile (virtualFiles s1) fileName).
Qed.

Lemma access_step (s s' : State) :
  access languageModules s s' →
  (tsProjectVersion s ≤ tsProjectVersion s' ≤ tsProjectVersion s + 1)%N
  ∧ tokens_kept s s'
  ∧ ∀ key, is_Some (scriptSnapshots s !! key) → is_Some (scriptSnapshots s' !! key).
Proof.
  intros [host Haccess].
  destruct (update_fields host s) as (_ & Hcache & Hversions & Hcounter).
  destruct Haccess as [->|[[fileName ->]|[[fileName ->]|(fileName & probe & Hprobe & ->)]]].
  - split; [done|]. split; [by apply tokens_kept_same|]. intros key. by rewrite Hcache.
  - destruct (getScriptVersion_fields host fileName (update host s)) as (-> & Htokens).
    split; [done|]. split.
    + eapply tokens_kept_trans; [by apply tokens_kept_same|exact Htokens].
    + intros key. by rewrite CoreFacts.getScriptVersion_scriptSnapshots, Hcache.
  - destruct (getScriptSnapshot_fields host fileName (update host s))
      as (-> & Htokens & _ & Hkeys).
    split; [done|]. split.
    + eapply tokens_kept_trans; [by apply tokens_kept_same|exact Htokens].
    + intros key Hkey. apply Hkeys. by rewrite Hcache.
  - unfold fileExists in Hprobe. destruct (Host.fileExists host); [|done].
    injection Hprobe as <-.
    destruct (fileExists_body_fields host fileName (update host s)) as (-> & Hv & Hc).
    split; [done|]. split.
    + apply tokens_kept_same. congruence.
    + intros key. by rewrite Hc, Hcache.
Qed.

Lemma access_steps (s s' : State) :
  rtc (access languageModules) s s' →
  (tsProjectVersion s ≤ tsProjectVersion s')%N
  ∧ tokens_kept s s'
  ∧ ∀ key, is_Some (scriptSnapshots s !! key) → is_Some (scriptSnapshots s' !! key).
Proof.
  induction 1 as [s|s1 s2 s3 Hstep _ (IHc & IHt & IHk)].
  - split; [lia|]. split; [apply tokens_kept_refl|done].
  - destruct (access_step _ _ Hstep) as (Hc & Ht & Hk).
    split; [lia|]. split; [by eapply tokens_kept_trans|]. intros key Hkey. by apply IHk, Hk.
Qed.

(** X12: over any sequence of accesses to a Language Context, with whatever
    hosts, the Project Version never goes down (and one access raises it by
    at most one), no Version Token is dropped or lowered, and no entry of the
    snapshot cache is ever removed. *)
Theorem access_monotone (s s' : State) :
  rtc (access languageModules) s s' →
  (tsProjectVersion s ≤ tsProjectVersion s')%N
  ∧ tokens_kept s s'
  ∧ (∀ key, is_Some (scriptSnapshots s !! key) → is_Some (scriptSnapshots s' !! key))
  ∧ (access languageModules s s' → (tsProjectVersion s' ≤ tsProjectVersion s + 1)%N).
Proof.
  intros Hsteps. destruct (access_steps s s' Hsteps) as (Hc & Ht & Hk).
  split; [done|]. split; [done|]. split; [done|].
  intros Hstep. by destruct (access_step s s' Hstep) as ((_ & ?) & _).
Qed.

Lemma getScriptSnapshot_lower_case (host host' : LanguageServiceHost)
    (fileName fileName' : string) (s s' : State) (snapshot : IScriptSnapshot) :
  toLowerCase fileName' = toLowerCase fileName →
  (getScriptSnapshot host fileName s).1 = Some snapshot →
  scriptSnapshots s' !! toLowerCase fileName
    = scriptSnapshots (getScriptSnapshot host fileName s).2 !! toLowerCase fileName →
  (getScriptVersion host' fileName' s').1 = (getScriptVersion host fileName s).1 →
  getScriptSnapshot host' fileName' s' = (Some snapshot, (getScriptVersion host' fileName' s').2).
Proof.
  intros Hcase Hfirst Hcache Hversion.
  rewrite (CoreFacts.getScriptSnapshot_recorded _ _ _ _ Hfirst) in Hcache.
  unfold getScriptSnapshot.
  pose proof (CoreFacts.getScriptVersion_scriptSnapshots host' fileName' s') as Hsame.
  destruct (getScriptVersion host' fileName' s') as [version' s1']. cbn [fst snd] in *.
  rewrite Hsame, Hcase, Hcache, Hversion, String.eqb_refl. done.
Qed.

(** X13: the snapshot cache is keyed by the lower-cased path.  After
    [getScriptSnapshot] answered a snapshot for a path, a call for any path
    that differs from it only in letter case, and whose version string is the
    one the first call saw, answers that same snapshot without reading the
    store or the host: two files whose paths differ only in case share one
    cache entry. *)
Theorem getScriptSnapshot_case_insensitive (host host' : LanguageServiceHost)
    (fileName fileName' : string) (s s' : State) (snapshot : IScriptSnapshot) :
  toLowerCase fileName' = toLowerCase fileName →
  (getScriptSnapshot host fileName s).1 = Some snapshot →
  scriptSnapshots s' !! toLowerCase fileName
    = scriptSnapshots (getScriptSnapshot host fileName s).2 !! toLowerCase fileName →
  (getScriptVersion host' fileName' s').1 = (getScriptVersion host fileName s).1 →
  (getScriptSnapshot host' fileName' s').1 = Some snapshot
  ∧ scriptSnapshots (getScriptSnapshot host' fileName' s').2 = scriptSnapshots s'.
Proof.
  intros Hcase Hfirst Hcache Hversion.
  rewrite (getScriptSnapshot_lower_case host host' fileName fileName' s s' snapshot)
    by done.
  split; [done|]. apply CoreFacts.getScriptVersion_scriptSnapshots.
Qed.

Lemma fileExists_body_again (host : LanguageServiceHost) (fileName : string) (s : State) :
  fileExists_body languageModules host fileName
                  (fileExists_body languageModules host fileName s).2
    = fileExists_body languageModules host fileName s.
Proof.
  unfold fileExists_body. cbv zeta.
  set (ext := substring fileName (lastIndexOf "."%char fileName) None).
  set (stem := substring fileName 0 (Some (lastIndexOf "."%char fileName))).
  destruct (String.eqb ext ".js" || String.eqb ext ".ts" || String.eqb ext ".jsx"
            || String.eqb ext ".tsx") eqn:Hext.
  - destruct (VirtualFiles.hasSource (virtualFiles s) stem) eqn:Hhas; cbn [negb].
    + destruct (VirtualFiles.hasVirtualFile (virtualFiles s) fileName) eqn:Hunit;
        cbn [snd]; rewrite Hhas; cbn [negb]; by rewrite Hunit.
    + destruct (Host.getScriptSnapshot host stem) as [scriptSnapshot|] eqn:Hsnap.
      * destruct (createFile languageModules stem scriptSnapshot
                    (Host.getScriptLanguageId host stem)) as [root|] eqn:Hroot.
        -- set (s1 := set_virtualFiles s _).
           assert (VirtualFiles.hasSource (virtualFiles s1) stem = true) as Hnow.
           { subst s1. cbn [virtualFiles set_virtualFiles].
             unfold VirtualFiles.updateSource. rewrite Hroot. cbn [snd].
             rewrite hasSource_set.
             cbn [src_fileName]. by rewrite String.eqb_refl, orb_true_r. }
           destruct (VirtualFiles.hasVirtualFile (virtualFiles s1) fileName) eqn:Hunit;
             cbn [snd]; rewrite Hnow; cbn [negb]; by rewrite Hunit.
        -- assert (set_virtualFiles s
                     (VirtualFiles.updateSource languageModules (virtualFiles s) stem
                        scriptSnapshot (Host.getScriptLanguageId host stem)).2 = s) as Hsame.
           { unfold VirtualFiles.updateSource. rewrite Hroot. apply set_virtualFiles_same. }
           rewrite Hsame.
           destruct (VirtualFiles.hasVirtualFile (virtualFiles s) fileName) eqn:Hunit;
             cbn [snd]; rewrite Hhas; cbn [negb]; rewrite Hsame; by rewrite Hunit.
      * destruct (VirtualFiles.hasVirtualFile (virtualFiles s) fileName) eqn:Hunit;
          cbn [snd]; rewrite Hhas; cbn [negb]; by rewrite Hunit.
  - destruct (VirtualFiles.hasVirtualFile (virtualFiles s) fileName) eqn:Hunit;
      cbn [snd]; by rewrite Hunit.
Qed.

Lemma fileExists_body_sources (host : LanguageServiceHost) (fileName : string) (s : State)
    (x : string) :
  VirtualFiles.hasSource (virtualFiles s) x = true →
  VirtualFiles.hasSource (virtualFiles (fileExists_body languageModules host fileName s).2) x
    = true.
Proof.
  intros Hx. unfold fileExists_body. cbv zeta.
  set (s1 := if _ || _ || _ || _ then _ else s).
  assert (VirtualFiles.hasSource (virtualFiles s1) x = true) as Hs1.
  { subst s1. destruct (_ || _ || _ || _); [|done]. destruct (negb _); [|done].
    destruct (Host.getScriptSnapshot host _); [|done]. cbn.
    by apply hasSource_updateSource. }
  by destruct (VirtualFiles.hasVirtualFile (virtualFiles s1) fileName).
Qed.

Lemma fileExists_body_answer (host : LanguageServiceHost) (fileName : string) (s : State) :
  (fileExists_body languageModules host fileName s).1
    = VirtualFiles.hasVirtualFile
        (virtualFiles (fileExists_body languageModules host fileName s).2) fileName
      || match Host.fileExists host with Some raw => raw fileName | None => false end.
Proof.
  unfold fileExists_body. cbv zeta.
  set (s1 := if _ || _ || _ || _ then _ else s).
  destruct (VirtualFiles.hasVirtualFile (virtualFiles s1) fileName) eqn:Hunit; cbn [fst snd];
    by rewrite Hunit.
Qed.

(** X14: the derived [fileExists] is idempotent and only ever adds: asking
    again about the same path gives the same answer and leaves the context as
    the first call left it; the answer is true exactly when the path is then
    a generated unit of the store or the host's own [fileExists] says so (a
    file the host has is never hidden); and no tracked document is
    forgotten by the call. *)
Theorem fileExists_idempotent (host : LanguageServiceHost) (fileName : string) (s : State) :
  fileExists_body languageModules host fileName
                  (fileExists_body languageModules host fileName s).2
    = fileExists_body languageModules host fileName s
  ∧ (fileExists_body languageModules host fileName s).1
    = VirtualFiles.hasVirtualFile
        (virtualFiles (fileExists_body languageModules host fileName s).2) fileName
      || match Host.fileExists host with Some raw => raw fileName | None => false end
  ∧ (∀ x, VirtualFiles.hasSource (virtualFiles s) x = true →
          VirtualFiles.hasSource
            (virtualFiles (fileExists_body languageModules host fileName s).2) x = true).
Proof.
  split; [apply fileExists_body_again|]. split; [apply fileExists_body_answer|].
  intros x. apply fileExists_body_sources.
Qed.

End WithModules.

End ContextFacts.

(** ** What the derived host view lists, and what a cycle tracks *)
Module CycleFacts.

Import Core.

Lemma fold_set_add_if {A} (keep : A → bool) (name : A → string) (l : list A)
    (acc : list string) :
  (NoDup acc →
   NoDup (fold_left (λ acc a, if keep a then set_add acc (name a) else acc) l acc))
  ∧ ∀ x, x ∈ fold_left (λ acc a, if keep a then set_add acc (name a) else acc) l acc ↔
         x ∈ acc ∨ ∃ a, a ∈ l ∧ keep a = true ∧ name a = x.
Proof.
  revert acc. induction l as [|a l IH]; intros acc; cbn [fold_left].
  - split; [done|]. intros x. split; [by left|].
    intros [?|(a & []%elem_of_nil & _)]. done.
  - destruct (IH (if keep a then set_add acc (name a) else acc)) as [IHnd IHin].
    split.
    + intros Hnd. apply IHnd. destruct (keep a); [|done]. by apply SearchFacts.NoDup_set_add.
    + intros x. rewrite IHin. destruct (keep a) eqn:Hkeep.
      * rewrite SearchFacts.elem_of_set_add. split.
        -- intros [[?| ->]|(b & Hb & Hk & Hn)]; [by left| |].
           ++ right. exists a. split; [by left|done].
           ++ right. exists b. split; [by right|done].
        -- intros [?|(b & [->|Hb]%elem_of_cons & Hk & Hn)]; [by left; left|by left; right|].
           right. by exists b.
      * split.
        -- intros [?|(b & Hb & Hk & Hn)]; [by left|].
           right. exists b. split; [by right|done].
        -- intros [?|(b & [->|Hb]%elem_of_cons & Hk & Hn)]; [by left|congruence|].
           right. by exists b.
Qed.

(** The first loop of the derived [getScriptFileNames]. *)
Lemma unit_names_fold (sources : list Source) (acc : list string) :
  let result :=
    fold_left (λ acc source,
                 fold_left (λ acc embedded,
                              if bool_decide (vf_kind embedded = TypeScriptHostFile)
                              then set_add acc (vf_fileName embedded) else acc)
                           (forEachEmbeddedFile (src_root source)) acc)
              sources acc in
  (NoDup acc → NoDup result)
  ∧ ∀ x, x ∈ result ↔
         x ∈ acc
         ∨ ∃ source embedded,
             source ∈ sources ∧ embedded ∈ forEachEmbeddedFile (src_root source)
             ∧ vf_kind embedded = TypeScriptHostFile ∧ vf_fileName embedded = x.
Proof.
  revert acc. induction sources as [|source sources IH]; intros acc; cbn [fold_left].
  - split; [done|]. intros x. split; [by left|].
    intros [?|(source & ? & []%elem_of_nil & _)]. done.
  - cbv zeta in IH.
    destruct (fold_set_add_if (λ e, bool_decide (vf_kind e = TypeScriptHostFile)) vf_fileName
                (forEachEmbeddedFile (src_root source)) acc) as [Hnd Hin].
    destruct (IH (fold_left (λ acc embedded,
                               if bool_decide (vf_kind embedded = TypeScriptHostFile)
                               then set_add acc (vf_fileName embedded) else acc)
                            (forEachEmbeddedFile (src_root source)) acc)) as [IHnd IHin].
    split; [intros ?; by apply IHnd, Hnd|].
    intros x. rewrite IHin, Hin. split.
    + intros [[?|(e & He & Hk%bool_decide_eq_true & Hn)]|(src & e & Hsrc & He & Hk & Hn)].
      * by left.
      * right. exists source, e. split; [by left|done].
      * right. exists src, e. split; [by right|done].
    + intros [?|(src & e & [->|Hsrc]%elem_of_cons & He & Hk & Hn)].
      * by left; left.
      * left; right. exists e. split; [done|]. split; [by apply bool_decide_eq_true|done].
      * right. by exists src, e.
Qed.

Lemma getScriptFileNames_spec (host : LanguageServiceHost) (s : State) :
  NoDup (getScriptFileNames host s)
  ∧ ∀ fileName,
      fileName ∈ getScriptFileNames host s ↔
      (∃ source embedded,
         source ∈ virtualFiles s ∧ embedded ∈ forEachEmbeddedFile (src_root source)
         ∧ vf_kind embedded = TypeScriptHostFile ∧ vf_fileName embedded = fileName)
      ∨ (fileName ∈ Host.getScriptFileNames host
         ∧ VirtualFiles.hasSource (virtualFiles s) fileName = false).
Proof.
  unfold getScriptFileNames. cbv zeta.
  destruct (unit_names_fold (VirtualFiles.allSources (virtualFiles s)) []) as [Hnd Hin].
  cbv zeta in Hnd, Hin.
  destruct (fold_set_add_if (λ f, negb (VirtualFiles.hasSource (virtualFiles s) f)) id
              (Host.getScriptFileNames host)
              (fold_left (λ acc source,
                 fold_left (λ acc embedded,
                              if bool_decide (vf_kind embedded = TypeScriptHostFile)
                              then set_add acc (vf_fileName embedded) else acc)
                           (forEachEmbeddedFile (src_root source)) acc)
                 (VirtualFiles.allSources (virtualFiles s)) [])) as [Hnd' Hin'].
  cbn [id] in *. split; [apply Hnd', Hnd, NoDup_nil_2|].
  intros fileName. rewrite Hin', Hin. split.
  - intros [[[]%elem_of_nil|?]|(f & Hf & Hk%negb_true_iff & <-)]; [by left|by right].
  - intros [?|[Hf Hk]]; [left; by right|]. right. exists fileName.
    split; [done|]. split; [by apply negb_true_iff|done].
Qed.

(** X15: what the derived [getScriptFileNames] lists: a path is listed
    exactly when it names an engine-visible (TypeScript host file) unit of a
    tracked document, or is a root file of the host that is no tracked
    document; so a tracked document is listed only through its units.  No
    path is listed twice. *)
Theorem getScriptFileNames_lists (host : LanguageServiceHost) (s : State) :
  NoDup (getScriptFileNames host s)
  ∧ ∀ fileName,
      fileName ∈ getScriptFileNames host s ↔
      (∃ source embedded,
         source ∈ virtualFiles s ∧ embedded ∈ forEachEmbeddedFile (src_root source)
         ∧ vf_kind embedded = TypeScriptHostFile ∧ vf_fileName embedded = fileName)
      ∨ (fileName ∈ Host.getScriptFileNames host
         ∧ VirtualFiles.hasSource (virtualFiles s) fileName = false).
Proof. apply getScriptFileNames_spec. Qed.

Section WithModules.

Variable languageModules : list LanguageModule.
Variable host : LanguageServiceHost.

Local Abbreviation remain c := (remainRootFiles (c_locals c)).
Local Abbreviation has_snapshot f := (is_Some (Host.getScriptSnapshot host f)).
Local Abbreviation current f := (Host.getScriptVersion host f).

(** *** The documents after the first two loops *)

Lemma refresh_source_fold_store (l : list string) (c : Cycle) :
  (∀ source, source ∈ c_virtualFiles c →
     has_snapshot (src_fileName source) ∨ src_fileName source ∈ l) →
  ∀ source, source ∈ c_virtualFiles (fold_left (refresh_source languageModules host) l c) →
    has_snapshot (src_fileName source).
Proof.
  revert c. induction l as [|f l IH]; intros c Hc; cbn [fold_left].
  - intros source Hsource. by destruct (Hc source Hsource) as [?|[]%elem_of_nil].
  - apply IH. intros source. unfold refresh_source. cbv zeta.
    destruct (Host.getScriptSnapshot host f) as [snapshot|] eqn:Hsnap.
    + assert (source ∈ c_virtualFiles c →
              has_snapshot (src_fileName source) ∨ src_fileName source ∈ l) as Hold.
      { intros Hsource. destruct (Hc source Hsource) as [?|[Heq|?]%elem_of_cons];
          [by left| |by right]. left. rewrite Heq, Hsnap. eauto. }
      case_bool_decide; cbn [c_virtualFiles]; [|done].
      intros [?|Heq]%ContextFacts.elem_of_updateSource; [by apply Hold|].
      left. rewrite Heq, Hsnap. eauto.
    + cbn [c_virtualFiles]. unfold VirtualFiles.deleteSource.
      intros [Hne Hsource]%list_elem_of_filter.
      destruct (Hc source Hsource) as [?|[?|?]%elem_of_cons]; [by left|done|by right].
Qed.

Lemma refresh_source_fold_keeps (l : list string) (c : Cycle) (fileName : string) :
  has_snapshot fileName →
  VirtualFiles.hasSource (c_virtualFiles c) fileName = true →
  VirtualFiles.hasSource
    (c_virtualFiles (fold_left (refresh_source languageModules host) l c)) fileName = true.
Proof.
  intros Hsnap. revert c. induction l as [|f l IH]; intros c Hc; cbn [fold_left]; [done|].
  apply IH. unfold refresh_source. cbv zeta.
  destruct (Host.getScriptSnapshot host f) as [snapshot|] eqn:Hf.
  - case_bool_decide; cbn [c_virtualFiles]; [|done].
    by apply ContextFacts.hasSource_updateSource.
  - cbn [c_virtualFiles]. apply ContextFacts.hasSource_elem.
    apply ContextFacts.hasSource_elem in Hc.
    apply list_elem_of_fmap in Hc as (source & -> & Hsource).
    apply list_elem_of_fmap. exists source. split; [done|].
    unfold VirtualFiles.deleteSource. apply list_elem_of_filter. split; [|done].
    intros Heq. rewrite Heq, Hf in Hsnap. by destruct Hsnap.
Qed.

Lemma refresh_source_fold_version_other (l : list string) (c : Cycle) (fileName : string) :
  fileName ∉ l →
  c_sourceFileVersions (fold_left (refresh_source languageModules host) l c) !! fileName
    = c_sourceFileVersions c !! fileName.
Proof.
  revert c. induction l as [|f l IH]; intros c Hnot; cbn [fold_left]; [done|].
  apply not_elem_of_cons in Hnot as [Hne Hnot]. rewrite IH by done.
  unfold refresh_source. cbv zeta.
  destruct (Host.getScriptSnapshot host f); [|done].
  case_bool_decide; cbn [c_sourceFileVersions]; [|done]. by rewrite lookup_insert_ne.
Qed.

Lemma refresh_source_fold_version (l : list string) (c : Cycle) (fileName : string) :
  fileName ∈ l → has_snapshot fileName →
  c_sourceFileVersions (fold_left (refresh_source languageModules host) l c) !! fileName
    = Some (current fileName).
Proof.
  intros Hin [snapshot Hsnap]. revert c Hin.
  induction l as [|f l IH]; intros c Hin; [by apply elem_of_nil in Hin|].
  cbn [fold_left]. destruct (decide (fileName ∈ l)) as [Hl|Hl]; [by apply IH|].
  apply elem_of_cons in Hin as [<-|?]; [|done].
  rewrite refresh_source_fold_version_other by done.
  unfold refresh_source. cbv zeta. rewrite Hsnap.
  case_bool_decide as Hversion; cbn [c_sourceFileVersions]; [by rewrite lookup_insert_eq|].
  done.
Qed.

Lemma add_source_fold_store (l : list string) (c : Cycle) :
  (∀ source, source ∈ c_virtualFiles c → has_snapshot (src_fileName source)) →
  ∀ source, source ∈ c_virtualFiles (fold_left (add_source languageModules host) l c) →
    has_snapshot (src_fileName source).
Proof.
  revert c. induction l as [|f l IH]; intros c Hc; cbn [fold_left]; [done|].
  apply IH. intros source. unfold add_source. cbv zeta.
  destruct (Host.getScriptSnapshot host f) as [snapshot|] eqn:Hsnap; [|by apply Hc].
  pose proof (ContextFacts.elem_of_updateSource languageModules (c_virtualFiles c) f snapshot
                (Host.getScriptLanguageId host f) source) as Hin.
  destruct (VirtualFiles.updateSource _ _ _ _ _) as [[root|] vf]; cbn [c_virtualFiles snd] in *.
  - intros [?|Heq]%Hin; [by apply Hc|]. rewrite Heq, Hsnap. eauto.
  - intros [?|Heq]%Hin; [by apply Hc|]. rewrite Heq, Hsnap. eauto.
Qed.

Lemma add_source_fold_keeps (l : list string) (c : Cycle) (fileName : string) :
  VirtualFiles.hasSource (c_virtualFiles c) fileName = true →
  VirtualFiles.hasSource
    (c_virtualFiles (fold_left (add_source languageModules host) l c)) fileName = true
  ∧ c_sourceFileVersions (fold_left (add_source languageModules host) l c)
    = c_sourceFileVersions c.
Proof.
  revert c. induction l as [|f l IH]; intros c Hc; cbn [fold_left]; [done|].
  assert (VirtualFiles.hasSource (c_virtualFiles (add_source languageModules host c f))
                                 fileName = true
          ∧ c_sourceFileVersions (add_source languageModules host c f)
            = c_sourceFileVersions c) as [Hstep Hversions].
  { unfold add_source. cbv zeta.
    destruct (Host.getScriptSnapshot host f) as [snapshot|]; [|done].
    pose proof (ContextFacts.hasSource_updateSource languageModules (c_virtualFiles c) f
                  snapshot (Host.getScriptLanguageId host f) fileName Hc) as Hkept.
    by destruct (VirtualFiles.updateSource _ _ _ _ _) as [[root|] vf]. }
  destruct (IH _ Hstep) as [-> ->]. done.
Qed.

Lemma add_source_fold_versions (l : list string) (c : Cycle) :
  c_sourceFileVersions (fold_left (add_source languageModules host) l c)
    = c_sourceFileVersions c.
Proof.
  revert c. induction l as [|f l IH]; intros c; cbn [fold_left]; [done|].
  rewrite IH. unfold add_source. cbv zeta.
  destruct (Host.getScriptSnapshot host f) as [snapshot|]; [|done].
  by destruct (VirtualFiles.updateSource _ _ _ _ _) as [[root|] vf].
Qed.

Lemma add_source_fold_registers (l : list string) (c : Cycle) (fileName : string) :
  fileName ∈ l → accepted languageModules host fileName = true →
  VirtualFiles.hasSource
    (c_virtualFiles (fold_left (add_source languageModules host) l c)) fileName = true.
Proof.
  intros Hin Haccepted. revert c Hin.
  induction l as [|f l IH]; intros c Hin; [by apply elem_of_nil in Hin|].
  cbn [fold_left]. apply elem_of_cons in Hin as [<-|Hin]; [|by apply IH].
  apply add_source_fold_keeps. unfold add_source. cbv zeta.
  unfold accepted in Haccepted.
  destruct (Host.getScriptSnapshot host fileName) as [snapshot|]; [|done].
  apply bool_decide_eq_true in Haccepted as [root Hroot].
  unfold VirtualFiles.updateSource. rewrite Hroot. cbn [c_virtualFiles].
  rewrite ContextFacts.hasSource_set. cbn [src_fileName].
  by rewrite String.eqb_refl, orb_true_r.
Qed.

Lemma no_source_change_fields (c : Cycle) :
  c_virtualFiles (no_source_change c) = c_virtualFiles c
  ∧ c_sourceFileVersions (no_source_change c) = c_sourceFileVersions c
  ∧ c_sourceTsFileVersions (no_source_change c) = c_sourceTsFileVersions c
  ∧ remain (no_source_change c) = remain c.
Proof. unfold no_source_change. cbv zeta. by destruct (_ =? _)%N. Qed.

(** *** The plain files after the last two loops *)

Lemma refresh_ts_file_fold_versions (entries : list (string * string)) (c : Cycle) :
  c_sourceFileVersions (fold_left (refresh_ts_file host) entries c) = c_sourceFileVersions c.
Proof.
  revert c. induction entries as [|[g v] entries IH]; intros c; cbn [fold_left]; [done|].
  rewrite IH. unfold refresh_ts_file. cbv zeta. by case_bool_decide.
Qed.

Lemma refresh_ts_file_fold_value (entries : list (string * string)) (c : Cycle)
    (f : string) :
  f ∈ remain c →
  let result := c_sourceTsFileVersions (fold_left (refresh_ts_file host) entries c) in
  (f ∉ entries.*1 → result !! f = c_sourceTsFileVersions c !! f)
  ∧ (f ∈ entries.*1 →
     (∀ v, (f, v) ∈ entries →
           c_sourceTsFileVersions c !! f = Some v
           ∨ c_sourceTsFileVersions c !! f = Some (current f)) →
     result !! f = Some (current f)).
Proof.
  cbv zeta. revert c. induction entries as [|[g v] entries IH]; intros c Hremain.
  - split; [done|]. by intros []%elem_of_nil.
  - cbn [fold_left fmap list_fmap fst].
    assert (remain (refresh_ts_file host c (g, v)) = remain c) as Hsame.
    { unfold refresh_ts_file. cbv zeta. by case_bool_decide. }
    destruct (IH (refresh_ts_file host c (g, v))) as [IHother IHvalue];
      [by rewrite Hsame|].
    destruct (decide (g = f)) as [->|Hne].
    + split; [intros Hnot; by apply not_elem_of_cons in Hnot as [[] _]|].
      intros _ Hentries.
      assert (c_sourceTsFileVersions (refresh_ts_file host c (f, v)) !! f
              = Some (current f)) as Hstep.
      { unfold refresh_ts_file. cbv zeta. case_bool_decide as Hversion.
        - cbn [c_sourceTsFileVersions]. unfold set_has.
          rewrite bool_decide_eq_true_2 by done. cbn [negb andb].
          by rewrite lookup_insert_eq.
        - assert (v = current f) as Heq
            by (destruct (decide (v = current f)); [done|first [done|by destruct Hversion]]).
          destruct (Hentries v) as [Hv|Hv]; [by left|by rewrite Hv, Heq|done]. }
      destruct (decide (f ∈ entries.*1)) as [Hin|Hnot].
      * apply IHvalue; [done|]. intros v' _. by right.
      * by rewrite IHother.
    + assert (c_sourceTsFileVersions (refresh_ts_file host c (g, v)) !! f
              = c_sourceTsFileVersions c !! f) as Hstep.
      { unfold refresh_ts_file. cbv zeta. case_bool_decide; [|done].
        cbn [c_sourceTsFileVersions]. destruct (_ && _).
        - by rewrite lookup_delete_ne.
        - by rewrite lookup_insert_ne. }
      split.
      * intros Hnot. apply not_elem_of_cons in Hnot as [_ Hnot]. by rewrite IHother.
      * intros [?|Hin]%elem_of_cons Hentries; [congruence|].
        apply IHvalue; [done|]. intros v' Hv'. rewrite Hstep. apply Hentries. by right.
Qed.

Lemma add_ts_file_value (c : Cycle) (g f : string) :
  c_sourceTsFileVersions (add_ts_file host c g) !! f
    = match c_sourceTsFileVersions c !! f with
      | Some v => Some v
      | None => if String.eqb g f then Some (current f) else None
      end
  ∧ c_sourceFileVersions (add_ts_file host c g) = c_sourceFileVersions c.
Proof.
  unfold add_ts_file. cbv zeta.
  destruct (decide (c_sourceTsFileVersions c !! g = None)) as [Hnew|Hold].
  - rewrite (bool_decide_eq_true_2 _ Hnew). cbn [c_sourceTsFileVersions c_sourceFileVersions].
    split; [|done]. destruct (String.eqb_spec g f) as [->|Hne].
    + by rewrite lookup_insert_eq, Hnew.
    + rewrite lookup_insert_ne by done. by destruct (c_sourceTsFileVersions c !! f).
  - rewrite (bool_decide_eq_false_2 _ Hold). split; [|done].
    destruct (c_sourceTsFileVersions c !! f) eqn:Hf; [done|].
    destruct (String.eqb_spec g f) as [->|Hne]; [congruence|done].
Qed.

Lemma add_ts_file_fold_value (l : list string) (c : Cycle) (f : string) :
  c_sourceTsFileVersions (fold_left (add_ts_file host) l c) !! f
    = match c_sourceTsFileVersions c !! f with
      | Some v => Some v
      | None => if bool_decide (f ∈ l) then Some (current f) else None
      end
  ∧ c_sourceFileVersions (fold_left (add_ts_file host) l c) = c_sourceFileVersions c.
Proof.
  revert c. induction l as [|g l IH]; intros c; cbn [fold_left].
  - by destruct (c_sourceTsFileVersions c !! f).
  - destruct (IH (add_ts_file host c g)) as [-> ->].
    destruct (add_ts_file_value c g f) as [-> ->]. split; [|done].
    destruct (c_sourceTsFileVersions c !! f); [done|].
    destruct (String.eqb_spec g f) as [->|Hne].
    + by rewrite (bool_decide_eq_true_2 (f ∈ f :: l)) by by left.
    + apply f_equal with (f := λ b : bool, if b then Some (current f) else None).
      apply bool_decide_ext. rewrite elem_of_cons. naive_solver.
Qed.

(** *** The whole cycle *)

(** The cycles between the loops of [update]. *)
Lemma update_cycle_stages (s : State) :
  ∃ c0 c1 c3 c4 c5,
    c0 = mkCycle (mkLocals false 0 (new_Set (Host.getScriptFileNames host)))
                 (virtualFiles s) (sourceFileVersions s) (sourceTsFileVersions s)
    ∧ c1 = fold_left (refresh_source languageModules host)
                     (src_fileName <$> VirtualFiles.allSources (virtualFiles s)) c0
    ∧ c3 = fold_left (add_source languageModules host) (remain c1) (no_source_change c1)
    ∧ c4 = fold_left (refresh_ts_file host) (map_to_list (c_sourceTsFileVersions c3)) c3
    ∧ c5 = fold_left (add_ts_file host) (remain c4) c4
    ∧ (update_cycle languageModules host s).1 = c5.
Proof.
  unfold update_cycle. cbv zeta. cbn [fst]. do 5 eexists.
  do 5 (split; [reflexivity|]).
  by destruct (no_source_change_fields
                 (fold_left (refresh_source languageModules host)
                    (src_fileName <$> VirtualFiles.allSources (virtualFiles s))
                    (mkCycle (mkLocals false 0 (new_Set (Host.getScriptFileNames host)))
                       (virtualFiles s) (sourceFileVersions s) (sourceTsFileVersions s))))
    as (_ & _ & _ & ->).
Qed.

Lemma update_cycle_documents (s : State) (source : Source) :
  source ∈ c_virtualFiles (update_cycle languageModules host s).1 →
  has_snapshot (src_fileName source).
Proof.
  destruct (update_cycle_stages s) as (c0 & c1 & c3 & c4 & c5 & H0 & H1 & H3 & H4 & H5 & ->).
  rewrite H5. destruct (UpdateFacts.add_ts_file_fold host (remain c4) c4) as [_ ->].
  rewrite H4.
  destruct (UpdateFacts.refresh_ts_file_fold host (map_to_list (c_sourceTsFileVersions c3)) c3)
    as (_ & _ & ->).
  rewrite H3. revert source. apply add_source_fold_store. intros src.
  destruct (no_source_change_fields c1) as (-> & _).
  rewrite H1. revert src. apply refresh_source_fold_store. intros src Hsrc. right.
  rewrite H0 in Hsrc. cbn [c_virtualFiles] in Hsrc. apply list_elem_of_fmap. by exists src.
Qed.

Lemma update_cycle_versions (s : State) (fileName : string) :
  VirtualFiles.hasSource (virtualFiles s) fileName = true →
  has_snapshot fileName →
  VirtualFiles.hasSource (c_virtualFiles (update_cycle languageModules host s).1) fileName
    = true
  ∧ c_sourceFileVersions (update_cycle languageModules host s).1 !! fileName
    = Some (current fileName).
Proof.
  intros Hhas Hsnap.
  destruct (update_cycle_stages s) as (c0 & c1 & c3 & c4 & c5 & H0 & H1 & H3 & H4 & H5 & ->).
  rewrite H5. destruct (UpdateFacts.add_ts_file_fold host (remain c4) c4) as [_ ->].
  destruct (add_ts_file_fold_value (remain c4) c4 fileName) as [_ ->].
  rewrite H4.
  destruct (UpdateFacts.refresh_ts_file_fold host (map_to_list (c_sourceTsFileVersions c3)) c3)
    as (_ & _ & ->).
  rewrite refresh_ts_file_fold_versions. rewrite H3.
  destruct (no_source_change_fields c1) as (Hstore & Hversions & _).
  assert (VirtualFiles.hasSource (c_virtualFiles c1) fileName = true) as Hc1.
  { rewrite H1. apply refresh_source_fold_keeps; [done|]. by rewrite H0. }
  split.
  - apply add_source_fold_keeps. by rewrite Hstore.
  - rewrite add_source_fold_versions, Hversions, H1.
    apply refresh_source_fold_version; [|done]. by apply ContextFacts.hasSource_elem.
Qed.

Lemma update_cycle_plain_files (s : State) (fileName : string) :
  fileName ∈ Host.getScriptFileNames host →
  VirtualFiles.hasSource (virtualFiles s) fileName = false →
  VirtualFiles.hasSource (c_virtualFiles (update_cycle languageModules host s).1) fileName
    = true
  ∨ c_sourceTsFileVersions (update_cycle languageModules host s).1 !! fileName
    = Some (current fileName).
Proof.
  intros Hroot Hnew.
  destruct (update_cycle_stages s) as (c0 & c1 & c3 & c4 & c5 & H0 & H1 & H3 & H4 & H5 & ->).
  assert (fileName ∈ remain c1) as Hremain1.
  { rewrite H1.
    destruct (UpdateFacts.refresh_source_fold languageModules host
                (src_fileName <$> VirtualFiles.allSources (virtualFiles s)) c0)
      as (_ & -> & _).
    apply list_elem_of_filter. split.
    - intros Hin%ContextFacts.hasSource_elem. unfold VirtualFiles.allSources in Hin.
      congruence.
    - rewrite H0. cbn. by apply StringFacts.elem_of_new_Set. }
  destruct (accepted languageModules host fileName) eqn:Haccepted.
  - left. rewrite H5. destruct (UpdateFacts.add_ts_file_fold host (remain c4) c4) as [_ ->].
    rewrite H4.
    destruct (UpdateFacts.refresh_ts_file_fold host
                (map_to_list (c_sourceTsFileVersions c3)) c3) as (_ & _ & ->).
    rewrite H3. by apply add_source_fold_registers.
  - right.
    assert (fileName ∈ remain c3) as Hremain3.
    { rewrite H3.
      destruct (UpdateFacts.add_source_fold languageModules host (remain c1)
                  (no_source_change c1)) as (_ & _ & _ & ->).
      apply list_elem_of_filter. split; [intros [_ ?]; congruence|].
      by destruct (no_source_change_fields c1) as (_ & _ & _ & ->). }
    assert (fileName ∈ remain c4) as Hremain4.
    { rewrite H4.
      by destruct (UpdateFacts.refresh_ts_file_fold host
                     (map_to_list (c_sourceTsFileVersions c3)) c3) as (_ & -> & _). }
    rewrite H5. destruct (add_ts_file_fold_value (remain c4) c4 fileName) as [-> _].
    rewrite (bool_decide_eq_true_2 _ Hremain4).
    destruct (refresh_ts_file_fold_value (map_to_list (c_sourceTsFileVersions c3)) c3
                fileName Hremain3) as [Hother Hvalue].
    rewrite <- H4 in Hother, Hvalue.
    destruct (c_sourceTsFileVersions c3 !! fileName) as [v|] eqn:Hold.
    + rewrite Hvalue; [done| |].
      * apply list_elem_of_fmap. exists (fileName, v). split; [done|].
        by apply elem_of_map_to_list.
      * intros v' Hv'%elem_of_map_to_list. left. congruence.
    + rewrite Hother; [done|].
      intros ((f & v) & Heq & Hin%elem_of_map_to_list)%list_elem_of_fmap.
      cbn in Heq. subst f. congruence.
Qed.

Lemma update_ran (s : State) :
  ¬ skipped host s →
  virtualFiles (update languageModules host s)
    = c_virtualFiles (update_cycle languageModules host s).1
  ∧ sourceFileVersions (update languageModules host s)
    = c_sourceFileVersions (update_cycle languageModules host s).1
  ∧ sourceTsFileVersions (update languageModules host s)
    = c_sourceTsFileVersions (update_cycle languageModules host s).1.
Proof.
  unfold update, skipped. intros Hrun.
  destruct (Host.getProjectVersion host) as [v|] eqn:Hv; cbn [orb negb].
  - rewrite (bool_decide_eq_false_2 (Some v = None)) by done. cbn [orb].
    case_bool_decide as Hlast; cbn [negb].
    + by destruct (update_cycle languageModules host s) as [c flag].
    + destruct Hrun. eauto.
  - rewrite (bool_decide_eq_true_2 (None = None)) by done. cbn.
    by destruct (update_cycle languageModules host s) as [c flag].
Qed.

(** X16: after an update cycle that runs, the store is in step with the
    host: every tracked document is one the host has a snapshot for, and a
    document that was tracked before the cycle and still has a snapshot is
    still tracked, with the version the host now reports recorded for it. *)
Theorem update_tracks_documents (s : State) :
  ¬ skipped host s →
  (∀ source, source ∈ virtualFiles (update languageModules host s) →
     is_Some (Host.getScriptSnapshot host (src_fileName source)))
  ∧ (∀ fileName,
       VirtualFiles.hasSource (virtualFiles s) fileName = true →
       is_Some (Host.getScriptSnapshot host fileName) →
       VirtualFiles.hasSource (virtualFiles (update languageModules host s)) fileName = true
       ∧ sourceFileVersions (update languageModules host s) !! fileName
         = Some (Host.getScriptVersion host fileName)).
Proof.
  intros Hrun. destruct (update_ran s Hrun) as (-> & -> & _). split.
  - intros source. apply update_cycle_documents.
  - intros fileName. apply update_cycle_versions.
Qed.

(** X17: after an update cycle that runs, every root file of the host is
    accounted for, provided the host has a snapshot for it when it was a
    tracked document: it is a tracked document, or a tracked plain file with
    the version the host now reports. *)
Theorem update_tracks_root_files (s : State) (fileName : string) :
  ¬ skipped host s →
  fileName ∈ Host.getScriptFileNames host →
  VirtualFiles.hasSource (virtualFiles s) fileName = false
  ∨ is_Some (Host.getScriptSnapshot host fileName) →
  VirtualFiles.hasSource (virtualFiles (update languageModules host s)) fileName = true
  ∨ sourceTsFileVersions (update languageModules host s) !! fileName
    = Some (Host.getScriptVersion host fileName).
Proof.
  intros Hrun Hroot Hcase. destruct (update_ran s Hrun) as (-> & _ & ->).
  destruct (VirtualFiles.hasSource (virtualFiles s) fileName) eqn:Hhas.
  - left. destruct Hcase as [?|Hsnap]; [done|].
    by destruct (update_cycle_versions s fileName Hhas Hsnap).
  - by apply update_cycle_plain_files.
Qed.

End WithModules.

End CycleFacts.

(** ** More on the Program Overlay *)
Module OverlayFacts.

Import Program Overlay.

Section WithCore.

Context {St : Type}.
Variable core : LanguageContext St.

Local Abbreviation transformRelated := (list Diagnostic → St → list Diagnostic * St).

(** [d'] reports what [d] reports. *)
Local Abbreviation same_report d :=
  (λ d' : Diagnostic, messageText d' = messageText d ∧ code d' = code d).

Lemma onMapping_report (F : transformRelated) d fileName start_ end_ docText s :
  same_report d (onMapping core F d fileName start_ end_ docText s).1.
Proof.
  unfold onMapping. cbv zeta.
  destruct (match file d with Some f => _ | None => None end) as [f0|].
  - destruct (relatedInformation d) as [related|]; [|done]. by destruct (F related s).
  - destruct docText as [text|].
    + destruct (relatedInformation d) as [related|]; [|done]. by destruct (F related s).
    + destruct (languageServiceHost_getScriptSnapshot core fileName s) as [snapshot s'].
      destruct (relatedInformation d) as [related|]; [|done]. by destruct (F related s').
Qed.

Lemma map_diagnostic_report (F : transformRelated) d start_ length_ source maps acc :
  Forall (same_report d) acc.1 →
  Forall (same_report d)
         (fold_left (map_diagnostic core F d start_ length_ source) maps acc).1.
Proof.
  revert acc. induction maps as [|[sourceFileName map] maps IH]; intros [result s] Hacc;
    [done|].
  cbn [fold_left]. apply IH. unfold map_diagnostic.
  destruct (negb _); [done|].
  destruct (first_diagnostic (toSourceOffsets map start_ false)) as [start'|]; [|done].
  destruct (first_diagnostic (toSourceOffsets map (start_ + length_) true)) as [end'|];
    [|done].
  pose proof (onMapping_report F d (src_fileName source) start'.1 end'.1
                (Some (snapshot_text (src_snapshot source))) s) as Hreport.
  destruct (onMapping _ _ _ _ _ _ _ _) as [d' s']. cbn [fst] in *.
  apply Forall_app. split; [done|]. by apply Forall_singleton.
Qed.

Lemma transform_one_report (F : transformRelated) d s d' :
  d' ∈ (transform_one core F d s).1 → same_report d d'.
Proof.
  unfold transform_one.
  destruct (file d) as [f|]; [|by intros ->%list_elem_of_singleton].
  destruct (start d) as [start_|]; [|by intros []%elem_of_nil].
  destruct (length d) as [length_|]; [|by intros []%elem_of_nil].
  destruct (virtualFiles_getVirtualFile core (sf_fileName f) s) as [[[virtualFile source]|] s1].
  - destruct (languageServiceHost_fileExists core (src_fileName source) s1) as [exists_ s2].
    assert (d' ∈ (let '(maps, s3) := virtualFiles_getMaps core virtualFile s2 in
                  fold_left (map_diagnostic core F d start_ length_ source) maps ([], s3)).1 →
            same_report d d') as Hmaps.
    { destruct (virtualFiles_getMaps core virtualFile s2) as [maps s3]. intros Hin.
      pose proof (map_diagnostic_report F d start_ length_ source maps ([], s3)
                    (Forall_nil_2 _)) as Hall.
      rewrite Forall_forall in Hall. by apply Hall. }
    destruct exists_ as [[]|]; [exact Hmaps|by intros []%elem_of_nil|exact Hmaps].
  - destruct (languageServiceHost_fileExists core (sf_fileName f) s1) as [exists_ s2].
    pose proof (onMapping_report F d (sf_fileName f) start_ (start_ + length_)
                  (Some (sf_text f)) s2) as Hreport.
    destruct (onMapping _ _ _ _ _ _ _ _) as [d0 s3]. cbn [fst] in *.
    destruct exists_ as [[]|]; [|by intros []%elem_of_nil|];
      by intros ->%list_elem_of_singleton.
Qed.

Lemma transformDiagnostics_report (ds : list Diagnostic) (s : St) d' :
  d' ∈ (transformDiagnostics core ds s).1 →
  ∃ d, d ∈ ds ∧ same_report d d'.
Proof.
  revert s. induction ds as [|d ds IH]; intros s; [by intros []%elem_of_nil|].
  rewrite ProgramFacts.transformDiagnostics_cons.
  pose proof (transform_one_report (transformDiagnostics core) d s d') as Hone.
  destruct (transform_one core (transformDiagnostics core) d s) as [r1 s1].
  specialize (IH s1). destruct (transformDiagnostics core ds s1) as [r2 s2].
  cbn [fst] in *. intros [Hin|Hin]%elem_of_app.
  - exists d. split; [by left|by apply Hone].
  - destruct (IH Hin) as (d0 & Hd0 & Hreport). exists d0. split; [by right|done].
Qed.


Lemma transform_one_plain (F : transformRelated) d f start_ length_ s s1 exists_ s2 :
  file d = Some f → start d = Some start_ → length d = Some length_ →
  virtualFiles_getVirtualFile core (sf_fileName f) s = (None, s1) →
  languageServiceHost_fileExists core (sf_fileName f) s1 = (exists_, s2) →
  exists_ ≠ Some false →
  transform_one core F d s =
    ([mkDiagnostic (file d) (start d) (length d) (messageText d) (code d)
        (match relatedInformation d with
         | Some related => Some (F related s2).1
         | None => None
         end)],
     match relatedInformation d with
     | Some related => (F related s2).2
     | None => s2
     end).
Proof.
  intros Hfile Hstart Hlength Hunit Hexists Hthere.
  unfold transform_one. rewrite Hfile, Hstart, Hlength, Hunit, Hexists.
  unfold onMapping. rewrite Hfile, String.eqb_refl.
  replace (start_ + length_ - start_) with length_ by lia.
  destruct (relatedInformation d) as [related|].
  - destruct (F related s2) as [related' s3]. by destruct exists_ as [[]|].
  - by destruct exists_ as [[]|].
Qed.

(** X19: a located diagnostic of a file that is no generated unit, and that
    the derived [fileExists] does not deny, comes out once, with its own
    file, start, length, message and code; only its related information is
    translated in turn.  Without related information it is returned as it
    is. *)
Theorem transformDiagnostics_plain_file (d : Diagnostic) (f : SourceFile)
    (start_ length_ : Z) (s s1 s2 : St) (exists_ : option bool) :
  file d = Some f → start d = Some start_ → length d = Some length_ →
  virtualFiles_getVirtualFile core (sf_fileName f) s = (None, s1) →
  languageServiceHost_fileExists core (sf_fileName f) s1 = (exists_, s2) →
  exists_ ≠ Some false →
  (transformDiagnostics core [d] s).1 =
    [mkDiagnostic (file d) (start d) (length d) (messageText d) (code d)
       (match relatedInformation d with
        | Some related => Some (transformDiagnostics core related s2).1
        | None => None
        end)]
  ∧ (relatedInformation d = None → transformDiagnostics core [d] s = ([d], s2)).
Proof.
  intros Hfile Hstart Hlength Hunit Hexists Hthere.
  rewrite ProgramFacts.transformDiagnostics_singleton.
  rewrite (transform_one_plain _ d f start_ length_ s s1 exists_ s2) by done.
  split; [done|]. intros Hrelated. rewrite Hrelated. by destruct d; cbn in *; subst.
Qed.

Lemma transformDiagnostics_no_file (ds : list Diagnostic) (s : St) :
  (∀ d, d ∈ ds → file d = None) → transformDiagnostics core ds s = (ds, s).
Proof.
  induction ds as [|d ds IH]; intros Hall; [done|].
  rewrite ProgramFacts.transformDiagnostics_cons.
  rewrite ProgramFacts.transform_one_no_file by (apply Hall; by left).
  rewrite IH by (intros d0 Hd0; apply Hall; by right). done.
Qed.

(** X20: [getGlobalDiagnostics] hands diagnostics that have no file through
    as they are: the same diagnostics, in the same order, and without
    touching the Language Context. *)
Theorem getGlobalDiagnostics_unchanged (globalDiagnostics : list Diagnostic) (s : St) :
  (∀ d, d ∈ globalDiagnostics → file d = None) →
  getGlobalDiagnostics core globalDiagnostics s = (globalDiagnostics, s).
Proof. apply transformDiagnostics_no_file. Qed.

Variable api : option SourceFile → list Diagnostic.

Lemma getSourceFileDiagnosticsWorker_cases (sourceFile : option SourceFile) (s : St) :
  (getSourceFileDiagnosticsWorker core api sourceFile s).1 = []
  ∨ (∃ s', (getSourceFileDiagnosticsWorker core api sourceFile s).1
             = (transformDiagnostics core (api sourceFile) s').1)
    ∧ ∀ sf virtualFile source,
        sourceFile = Some sf →
        (virtualFiles_getVirtualFile core (sf_fileName sf) s).1 = Some (virtualFile, source) →
        vf_capabilities_diagnostic virtualFile = true.
Proof.
  unfold getSourceFileDiagnosticsWorker. destruct sourceFile as [sf|].
  - destruct (virtualFiles_getVirtualFile core (sf_fileName sf) s)
      as [[[virtualFile source]|] s1] eqn:Hfound.
    + destruct (vf_capabilities_diagnostic virtualFile) eqn:Hcapable; cbn [negb];
        [|by left].
      right. split; [by exists s1|].
      intros sf' v src [= <-]. rewrite Hfound. cbn [fst]. by intros [= <- _].
    + right. split; [by exists s1|].
      intros sf' v src [= <-]. by rewrite Hfound.
  - right. split; [by exists s|]. by intros sf' v src [=].
Qed.

(** X21: what [getSyntacticDiagnostics], [getSemanticDiagnostics] and
    [getBindAndCheckDiagnostics] may answer.  A diagnostic is returned only
    when the file asked about is not a generated unit without the diagnostic
    capability; it carries the message and the code of a diagnostic the
    program gave for that file, and has a start and a length when it has a
    file. *)
Theorem getSourceFileDiagnosticsWorker_answers (sourceFile : option SourceFile) (s : St)
    (d' : Diagnostic) :
  d' ∈ (getSourceFileDiagnosticsWorker core api sourceFile s).1 →
  (∃ d, d ∈ api sourceFile ∧ messageText d' = messageText d ∧ code d' = code d)
  ∧ (is_Some (file d') → is_Some (start d') ∧ is_Some (length d'))
  ∧ ∀ sf virtualFile source,
      sourceFile = Some sf →
      (virtualFiles_getVirtualFile core (sf_fileName sf) s).1 = Some (virtualFile, source) →
      vf_capabilities_diagnostic virtualFile = true.
Proof.
  intros Hin.
  destruct (getSourceFileDiagnosticsWorker_cases sourceFile s) as [Hnone|[[s' Hsome] Hcapable]].
  - rewrite Hnone in Hin. by apply elem_of_nil in Hin.
  - rewrite Hsome in Hin.
    split; [by apply (transformDiagnostics_report (api sourceFile) s')|].
    split; [|done]. intros Hfile.
    destruct (ProgramFacts.transformDiagnostics_elem core _ _ _ Hin) as [[_ Hnone]|?];
      [|done].
    rewrite Hnone in Hfile. by destruct Hfile.
Qed.

End WithCore.

End OverlayFacts.

(** ** More on the handlers of the custom requests *)
Module WriteFacts.

Import Core CustomFeatures.

Section WithCore.

Context {St : Type}.
Variable host : LanguageServiceHost.
Variable core : LanguageContext St.


End WithCore.

Section WithModules.

Variable languageModules : list LanguageModule.
Variable host : LanguageServiceHost.



Lemma getSource_elem (vf : VirtualFiles.t) (fileName : string) (source : Source) :
  VirtualFiles.getSource vf fileName = Some source →
  source ∈ vf ∧ src_fileName source = fileName.
Proof.
  unfold VirtualFiles.getSource. intros [Hin Hname]%find_some.
  split; [by apply list_elem_of_In|by apply String.eqb_eq].
Qed.

Lemma getVirtualFileNames_units (fileName : string) (fileKinds : option (list FileKind))
    (s : State) (name : string) :
  name ∈ (Requests.getVirtualFileNames languageModules host fileName fileKinds s).1 →
  ∃ source embedded,
    source ∈ virtualFiles (update languageModules host s)
    ∧ src_fileName source = fileName
    ∧ embedded ∈ forEachEmbeddedFile (src_root source)
    ∧ vf_fileName embedded = name
    ∧ snapshot_text (vf_snapshot embedded) ≠ String.EmptyString
    ∧ vf_kind embedded ∈ default [TypeScriptHostFile] fileKinds.
Proof.
  unfold Requests.getVirtualFileNames. cbv zeta.
  destruct (VirtualFiles.getSource _ fileName) as [source|] eqn:Hsource; cbn [fst];
    [|by intros []%elem_of_nil].
  apply getSource_elem in Hsource as [Hin Hname].
  intros (embedded & -> & [[Hlength Hkind] Hembedded]%list_elem_of_filter)%list_elem_of_fmap.
  exists source, embedded. repeat (split; [done|]). split; [|done].
  intros Hempty. by rewrite Hempty in Hlength.
Qed.

(** X23: the handler of [GetVirtualFileNamesRequest] answers names of
    generated units of the document asked about, each with a non-empty text
    and of a kind asked for; for a path that is no tracked document it
    answers nothing; and with the default kinds every name it answers is one
    the derived [getScriptFileNames] lists. *)
Theorem getVirtualFileNames_answers (fileName : string) (fileKinds : option (list FileKind))
    (s : State) (name : string) :
  name ∈ (Requests.getVirtualFileNames languageModules host fileName fileKinds s).1 →
  (Requests.getVirtualFileNames languageModules host fileName fileKinds s).2
    = update languageModules host s
  ∧ VirtualFiles.hasSource (virtualFiles (update languageModules host s)) fileName = true
  ∧ (∃ source embedded,
       source ∈ virtualFiles (update languageModules host s)
       ∧ src_fileName source = fileName
       ∧ embedded ∈ forEachEmbeddedFile (src_root source)
       ∧ vf_fileName embedded = name
       ∧ snapshot_text (vf_snapshot embedded) ≠ String.EmptyString
       ∧ vf_kind embedded ∈ default [TypeScriptHostFile] fileKinds)
  ∧ (fileKinds = None →
     name ∈ getScriptFileNames host (update languageModules host s)).
Proof.
  intros Hname.
  destruct (getVirtualFileNames_units fileName fileKinds s name Hname)
    as (source & embedded & Hsource & Hfile & Hembedded & Hunit & Htext & Hkind).
  split.
  { unfold Requests.getVirtualFileNames. cbv zeta. by destruct (VirtualFiles.getSource _ _). }
  split.
  { rewrite <- Hfile. by apply VirtualFilesFacts.hasSource_true. }
  split; [by exists source, embedded|].
  intros ->. cbn in Hkind. apply list_elem_of_singleton in Hkind.
  apply CycleFacts.getScriptFileNames_spec. left. by exists source, embedded.
Qed.

End WithModules.

End WriteFacts.

(** ** More properties at work on the small project *)
Module MoreWitnesses.

Import Examples MoreExamples.

(** The comparator on three configurations: the one beside the file, then
    the one above it, then the one elsewhere. *)
Example sortTsConfigs_chain :
  Workspace.sortTsConfigs dirname basename isFileInDir
    "/app/src/a.ts" "/app/src/tsconfig.json" "/app/tsconfig.json" < 0
  ∧ Workspace.sortTsConfigs dirname basename isFileInDir
      "/app/src/a.ts" "/app/tsconfig.json" "/lib/tsconfig.json" < 0
  ∧ Workspace.sortTsConfigs dirname basename isFileInDir
      "/app/src/a.ts" "/app/src/tsconfig.json" "/lib/tsconfig.json" < 0.
Proof. vm_compute. repeat split. Qed.

(** X4 at work: the chain that repeats the self-referencing configuration
    still starts with it. *)
Lemma getReferencesChains_rooted_witness :
  ∃ rest, [selfConfig; selfConfig; leafConfig] = selfConfig :: rest.
Proof.
  apply (ResolverFacts.getReferencesChains_rooted join None selfConfigs 3 selfParsed
           selfConfig
           [ [selfConfig]; [selfConfig; selfConfig; leafConfig]; [selfConfig; leafConfig] ]).
  - vm_compute. reflexivity.
  - right. left.
Defined.

(** X5 at work: in the chain of the self-referencing configuration and the
    leaf, the first references the second. *)
Lemma getReferencesChains_follow_references_witness :
  Resolver.reference_path join None selfConfigs [selfConfig; leafConfig].
Proof.
  apply (ResolverFacts.getReferencesChains_follow_references join None selfConfigs 3
           selfParsed selfConfig
           [ [selfConfig]; [selfConfig; selfConfig; leafConfig]; [selfConfig; leafConfig] ]).
  - vm_compute. reflexivity.
  - vm_compute. reflexivity.
  - right. right. left.
Defined.

(** X6 at work: from [/a/b] two steps of [dirname] reach the root. *)
Lemma search_dirs_terminates_witness :
  ∃ d', Resolver.search_dirs dirname join sys 10 "/a/b" nothing_searched = Some d'
        ∧ Resolver.search_dirs dirname join sys (2 + 2) "/a/b" nothing_searched = Some d'.
Proof.
  apply (SearchFacts.search_dirs_terminates dirname join sys 2 10 "/a/b" nothing_searched).
  - vm_compute. reflexivity.
  - lia.
Defined.

(** X7 at work: the walk from [/a/b] finds the configuration beside the file
    and the one at the root. *)
Lemma search_dirs_collects_witness :
  "/a/b" ∈ Resolver.searchedDirs walked
  ∧ NoDup (Resolver.searchedDirs walked)
  ∧ NoDup (Resolver.rootTsConfigs walked).
Proof.
  destruct (SearchFacts.search_dirs_collects dirname join sys 4 "/a/b" nothing_searched
              walked) as (Hdir & _ & _ & _ & Hsearched & Hroots).
  - vm_compute. reflexivity.
  - apply NoDup_nil_2.
  - apply NoDup_nil_2.
  - split; [exact Hdir|]. split; [exact Hsearched|exact Hroots].
Defined.

(** X8 at work: a second walk from [/a/b] stops at once. *)
Lemma search_dirs_remembered_witness :
  Resolver.search_dirs dirname join sys 1 "/a/b" walked = Some walked.
Proof.
  apply (SearchFacts.search_dirs_remembered dirname join sys 4 0 "/a/b" nothing_searched
           walked).
  vm_compute. reflexivity.
Defined.

(** X9 at work: the shared root of the two chains is asked about once. *)
Lemma check_chains_asks_once_witness :
  ∃ calls,
    Resolver.check_chains (Resolver.logged isRoot) sharedChains [] ([], 0%nat)
      = ((Resolver.check_chains isRoot sharedChains [] 0%nat).1.1,
         [] ++ calls, (calls, (Resolver.check_chains isRoot sharedChains [] 0%nat).2))
    ∧ (Resolver.check_chains isRoot sharedChains [] 0%nat).1.2 = [] ++ calls
    ∧ NoDup ([] ++ calls)
    ∧ (∀ x, x ∈ calls → ∃ chain, chain ∈ sharedChains ∧ x ∈ chain)
    ∧ match (Resolver.check_chains isRoot sharedChains [] 0%nat).1.1 with
      | Some tsconfig => ∃ before, calls = before ++ [tsconfig]
      | None => ∀ chain x, chain ∈ sharedChains → x ∈ chain → x ∈ [] ++ calls
      end.
Proof.
  apply (SearchFacts.check_chains_asks_once isRoot sharedChains [] 0%nat).
  apply NoDup_nil_2.
Defined.

(** The search at work: the second chain first under
    [reverseConfigFilePriority]. *)
Example search_chains_examples :
  (Resolver.search_chains (λ tsconfig (s : nat), (String.eqb tsconfig "/tsconfig.json", s))
     false sharedChains [] 0%nat).1.2
    = ["/a/tsconfig.json"; "/tsconfig.json"]
  ∧ (Resolver.search_chains (λ tsconfig (s : nat), (String.eqb tsconfig "/tsconfig.json", s))
       true sharedChains [] 0%nat).1.2
    = ["/b/tsconfig.json"; "/tsconfig.json"].
Proof. vm_compute. split; reflexivity. Qed.

(** The host proxied by two modules: the first registered wins where both
    proxy a member. *)
Example proxied_host_examples :
  HostProxy.proxied_host [firstModule; secondModule] plainHost "getScriptKind" = Some "first"
  ∧ HostProxy.proxied_host [firstModule; secondModule] plainHost "readFile" = Some "second"
  ∧ HostProxy.proxied_host [firstModule; secondModule] plainHost "fileExists" = Some "host".
Proof. vm_compute. repeat split. Qed.

(** X11 at work: a second cycle for the same host changes nothing. *)
Lemma update_twice_witness :
  Core.update languageModules (host (Some "1")) loaded = loaded.
Proof.
  exact (proj1 (ContextFacts.update_twice languageModules (host (Some "1")) "1"
                  Core.initial eq_refl)).
Defined.

(** X12 at work: the first access to the context. *)
Lemma access_monotone_witness :
  (Core.tsProjectVersion Core.initial ≤ Core.tsProjectVersion loaded)%N
  ∧ Invariants.tokens_kept Core.initial loaded.
Proof.
  destruct (ContextFacts.access_monotone languageModules Core.initial loaded)
    as (Hcounter & Htokens & _).
  - apply rtc_once. exists (host (Some "1")). left. reflexivity.
  - split; [exact Hcounter|exact Htokens].
Defined.

(** X13 at work: on a case-sensitive file system, [/src/Main.ts] is answered
    with the snapshot of [/src/main.ts], although the host has another one
    for it. *)
Lemma getScriptSnapshot_case_insensitive_witness :
  (Core.getScriptSnapshot caseHost "/src/main.ts" Core.initial).1 = Some mainSnapshot
  ∧ Host.getScriptSnapshot caseHost "/src/Main.ts" = Some upperSnapshot
  ∧ (Core.getScriptSnapshot caseHost "/src/Main.ts"
       (Core.getScriptSnapshot caseHost "/src/main.ts" Core.initial).2).1
    = Some mainSnapshot.
Proof.
  assert ((Core.getScriptSnapshot caseHost "/src/main.ts" Core.initial).1
          = Some mainSnapshot) as Hfirst by (vm_compute; reflexivity).
  split; [exact Hfirst|]. split; [reflexivity|].
  refine (proj1 (ContextFacts.getScriptSnapshot_case_insensitive caseHost caseHost
                   "/src/main.ts" "/src/Main.ts" Core.initial _ mainSnapshot
                   _ Hfirst eq_refl _)).
  - vm_compute. reflexivity.
  - vm_compute. reflexivity.
Defined.

(** X16 at work: the second cycle keeps the document and its version. *)
Lemma update_tracks_documents_witness :
  VirtualFiles.hasSource (Core.virtualFiles reloaded) "/src/App.vue" = true
  ∧ Core.sourceFileVersions reloaded !! "/src/App.vue" = Some "1".
Proof.
  refine (proj2 (CycleFacts.update_tracks_documents languageModules (host (Some "2")) loaded _)
            "/src/App.vue" _ _).
  - intros (v & Hv & Hlast). cbn in Hv. vm_compute in Hlast. congruence.
  - vm_compute. reflexivity.
  - cbn. eauto.
Defined.

(** X17 at work: the first cycle tracks the plain file. *)
Lemma update_tracks_root_files_witness :
  VirtualFiles.hasSource (Core.virtualFiles loaded) "/src/main.ts" = true
  ∨ Core.sourceTsFileVersions loaded !! "/src/main.ts" = Some "1".
Proof.
  refine (CycleFacts.update_tracks_root_files languageModules (host (Some "1")) Core.initial
            "/src/main.ts" _ _ _).
  - intros (v & Hv & Hlast). cbn in Hlast. congruence.
  - right. left.
  - left. reflexivity.
Defined.


(** X19 at work: the diagnostic of the plain file comes out as it is. *)
Lemma transformDiagnostics_plain_file_witness :
  Program.transformDiagnostics (core (Some "1")) [mainDiagnostic] loaded
    = ([mainDiagnostic], loaded).
Proof.
  refine (proj2 (OverlayFacts.transformDiagnostics_plain_file (core (Some "1"))
                   mainDiagnostic mainTs 7 3 loaded loaded loaded (Some true)
                   eq_refl eq_refl eq_refl _ _ _) eq_refl).
  - vm_compute. reflexivity.
  - vm_compute. reflexivity.
  - discriminate.
Defined.

(** X20 at work: a global diagnostic is handed through. *)
Lemma getGlobalDiagnostics_unchanged_witness :
  Overlay.getGlobalDiagnostics (core (Some "1")) [globalDiagnostic] loaded
    = ([globalDiagnostic], loaded).
Proof.
  apply (OverlayFacts.getGlobalDiagnostics_unchanged (core (Some "1")) [globalDiagnostic]
           loaded).
  intros d Hd. apply list_elem_of_singleton in Hd. rewrite Hd. reflexivity.
Defined.

(** The worker at work on the generated unit: one of the program's two
    diagnostics is translated, the other has no capable mapping. *)
Example getSourceFileDiagnosticsWorker_appTs :
  (Overlay.getSourceFileDiagnosticsWorker (core (Some "1")) program (Some appTs) loaded).1
  = [ Program.mkDiagnostic
        (Some (Program.mkSourceFile "/src/App.vue" "<script>let x = 1</script>" Program.JSON))
        (Some 12) (Some 1) "x is never read" 6133 None ].
Proof. vm_compute. reflexivity. Qed.

(** X21 at work: the unit asked about has the diagnostic capability. *)
Lemma getSourceFileDiagnosticsWorker_answers_witness :
  vf_capabilities_diagnostic appUnit = true.
Proof.
  refine (proj2 (proj2 (OverlayFacts.getSourceFileDiagnosticsWorker_answers (core (Some "1"))
                          program (Some appTs) loaded
                          (Program.mkDiagnostic
                             (Some (Program.mkSourceFile "/src/App.vue"
                                      "<script>let x = 1</script>" Program.JSON))
                             (Some 12) (Some 1) "x is never read" 6133 None) _))
            appTs appUnit appSource eq_refl _).
  - rewrite getSourceFileDiagnosticsWorker_appTs. left.
  - vm_compute. reflexivity.
Defined.

(** The handler at work: one unit written. *)
Example writeVirtualFiles_paths :
  (CustomFeatures.writeVirtualFiles (host (Some "1")) (core (Some "1")) Core.initial).1.*1
  = ["/src/App.vue.ts"].
Proof. vm_compute. reflexivity. Qed.

(** X23 at work: the script unit of the document is answered, its markup
    unit is not. *)
Lemma getVirtualFileNames_answers_witness :
  (Requests.getVirtualFileNames languageModules (host (Some "1")) "/src/App.vue" None
     Core.initial).1 = ["/src/App.vue.ts"]
  ∧ "/src/App.vue.ts" ∈ Core.getScriptFileNames (host (Some "1")) loaded.
Proof.
  assert ((Requests.getVirtualFileNames languageModules (host (Some "1")) "/src/App.vue" None
             Core.initial).1 = ["/src/App.vue.ts"]) as Hnames by (vm_compute; reflexivity).
  split; [exact Hnames|].
  refine (proj2 (proj2 (proj2 (WriteFacts.getVirtualFileNames_answers languageModules
                                 (host (Some "1")) "/src/App.vue" None Core.initial
                                 "/src/App.vue.ts" _))) eq_refl).
  rewrite Hnames. left.
Defined.

End MoreWitnesses.
